(** * Failure-analysis enrichment pipeline (llm-failure-analysis.js)

    A shallow embedding of [.github/scripts/llm-failure-analysis.js]:
    the JSON documents the script reads and rewrites, the JavaScript
    coercions it relies on, the file system it touches, the two model
    transports, and the functions [findFailedResults], [buildPrompt],
    [callOllamaHttp], [callOllamaCli], [analyzeFailures] and [parseArgs]
    with the options that the script builds from them, followed by the
    properties of the pipeline.

    Conventions of the model.
    - A JavaScript string is a [string]; one [ascii] stands for one code
      unit, so the model covers texts whose code units are below 256.
    - A JavaScript number is a [Z]; the model covers the safe integers
      (magnitude at most 2^53 - 1), on which JavaScript arithmetic and
      printing are exact.  [JSON_parse] rejects numeric literals with a
      fraction or an exponent and integers outside that range, and
      escapes [\uXXXX] above 255.
    - [undefined] is [None] in an [option jvalue]. *)

From Stdlib Require Import ZArith NArith Ascii String List Lia Bool.
From stdpp Require Import base option list strings gmap.

Local Open Scope string_scope.
Local Open Scope list_scope.

(** ** Characters and decimal numerals *)

Definition code (c : ascii) : N := N_of_ascii c.

Definition is_digit (c : ascii) : bool :=
  (48 <=? code c)%N && (code c <=? 57)%N.

Definition digit_val (c : ascii) : N := (code c - 48)%N.

Definition digit_char (d : N) : ascii := ascii_of_N (48 + d).

(** JSON white space: space, tab, line feed, carriage return. *)
Definition is_ws (c : ascii) : bool :=
  (code c =? 32)%N || (code c =? 9)%N || (code c =? 10)%N || (code c =? 13)%N.

Fixpoint skip_ws (s : string) : string :=
  match s with
  | String c r => if is_ws c then skip_ws r else s
  | EmptyString => EmptyString
  end.

(** Most significant digit first; [fuel] bounds the number of digits. *)
Fixpoint digits_of (fuel : nat) (n : N) (acc : string) : string :=
  match fuel with
  | O => acc
  | S fuel' =>
      let acc' := String (digit_char (n mod 10)) acc in
      if (n <? 10)%N then acc' else digits_of fuel' (n / 10) acc'
  end.

Definition N_to_string (n : N) : string :=
  digits_of (S (N.to_nat (N.size n))) n EmptyString.

(** [Number.prototype.toString] on a safe integer. *)
Definition Z_to_string (z : Z) : string :=
  if (z <? 0)%Z then String "-" (N_to_string (Z.abs_N z))
  else N_to_string (Z.abs_N z).

(** Reads the longest run of digits, most significant first. *)
Fixpoint read_digits (s : string) (acc : N) : N * string :=
  match s with
  | String c r =>
      if is_digit c then read_digits r (acc * 10 + digit_val c)%N else (acc, s)
  | EmptyString => (acc, EmptyString)
  end.

Definition MAX_SAFE_INTEGER : N := 9007199254740991.

(** ** JSON documents *)

Unset Elimination Schemes.
Inductive jvalue : Type :=
| JNull
| JBool (b : bool)
| JNum (n : Z)
| JStr (s : string)
| JArr (items : list jvalue)
| JObj (members : list (string * jvalue)).
Set Elimination Schemes.

(** Induction over documents, with the hypothesis available for every
    element of an array and every member of an object. *)
Definition jvalue_ind (P : jvalue -> Prop)
    (Hnull : P JNull)
    (Hbool : forall b, P (JBool b))
    (Hnum : forall n, P (JNum n))
    (Hstr : forall s, P (JStr s))
    (Harr : forall items, Forall P items -> P (JArr items))
    (Hobj : forall members, Forall (fun kv => P (snd kv)) members -> P (JObj members)) :
  forall v, P v :=
  fix go (v : jvalue) : P v :=
    match v with
    | JNull => Hnull
    | JBool b => Hbool b
    | JNum n => Hnum n
    | JStr s => Hstr s
    | JArr items =>
        Harr items
          ((fix all (l : list jvalue) : Forall P l :=
              match l with
              | [] => @List.Forall_nil _ P
              | x :: l' => @List.Forall_cons _ P x l' (go x) (all l')
              end) items)
    | JObj members =>
        Hobj members
          ((fix all (l : list (string * jvalue)) : Forall (fun kv => P (snd kv)) l :=
              match l with
              | [] => @List.Forall_nil _ (fun kv => P (snd kv))
              | kv :: l' => @List.Forall_cons _ (fun kv => P (snd kv)) kv l' (go (snd kv)) (all l')
              end) members)
    end.

(** *** Property order of ordinary objects

    An object lists its array-index keys first, in ascending numeric
    order, then its other keys in creation order. *)

Definition all_digits (s : string) : bool :=
  forallb is_digit (list_ascii_of_string s).

(** The canonical numeric strings below 2^32 - 1. *)
Definition array_index (k : string) : option N :=
  let n := fst (read_digits k 0) in
  if all_digits k && String.eqb (N_to_string n) k && (n <? 4294967295)%N
  then Some n else None.

Definition has_key (k : string) (ms : list (string * jvalue)) : bool :=
  existsb (fun kv => String.eqb (fst kv) k) ms.

Fixpoint replace_member (k : string) (v : jvalue) (ms : list (string * jvalue)) :
    list (string * jvalue) :=
  match ms with
  | [] => []
  | (k', v') :: ms' =>
      if String.eqb k' k then (k', v) :: ms' else (k', v') :: replace_member k v ms'
  end.

(** Position of a new index key [n]: before the first member that is not
    an index key or carries a larger index. *)
Fixpoint insert_index (n : N) (k : string) (v : jvalue) (ms : list (string * jvalue)) :
    list (string * jvalue) :=
  match ms with
  | [] => [(k, v)]
  | (k', v') :: ms' =>
      match array_index k' with
      | Some n' =>
          if (n' <? n)%N then (k', v') :: insert_index n k v ms'
          else (k, v) :: ms
      | None => (k, v) :: ms
      end
  end.

(** [obj[k] = v] on the member list of an ordinary object. *)
Definition obj_set (k : string) (v : jvalue) (ms : list (string * jvalue)) :
    list (string * jvalue) :=
  if has_key k ms then replace_member k v ms
  else match array_index k with
       | Some n => insert_index n k v ms
       | None => ms ++ [(k, v)]
       end.

Fixpoint obj_lookup (k : string) (ms : list (string * jvalue)) : option jvalue :=
  match ms with
  | [] => None
  | (k', v) :: ms' => if String.eqb k' k then Some v else obj_lookup k ms'
  end.

(** The object built from members in source order, as [JSON.parse] does:
    a repeated key keeps its first position and its last value. *)
Definition obj_of_members (ms : list (string * jvalue)) : list (string * jvalue) :=
  fold_left (fun acc kv => obj_set (fst kv) (snd kv) acc) ms [].

(** ** JSON.stringify(value, null, 2) *)

Definition hex_char (d : N) : ascii :=
  if (d <? 10)%N then ascii_of_N (48 + d) else ascii_of_N (87 + d).

Definition dquote : ascii := ascii_of_N 34.

(** QuoteJSONString on one code unit. *)
Definition quote_char (c : ascii) : string :=
  let n := code c in
  if (n =? 8)%N then "\b"
  else if (n =? 9)%N then "\t"
  else if (n =? 10)%N then "\n"
  else if (n =? 12)%N then "\f"
  else if (n =? 13)%N then "\r"
  else if (n =? 34)%N then String "\" (String dquote EmptyString)
  else if (n =? 92)%N then "\\"
  else if (n <? 32)%N then
    String "\" (String "u" (String "0" (String "0"
      (String (hex_char (n / 16)) (String (hex_char (n mod 16)) "")))))
  else String c "".

Fixpoint quote_body (s : string) : string :=
  match s with
  | EmptyString => EmptyString
  | String c r => quote_char c +:+ quote_body r
  end.

Definition quote (s : string) : string :=
  String dquote (quote_body s +:+ String dquote "").

Definition newline : string := String (ascii_of_N 10) "".

Fixpoint indent (level : nat) : string :=
  match level with
  | O => ""
  | S l => "  " +:+ indent l
  end.

Fixpoint join (sep : string) (parts : list string) : string :=
  match parts with
  | [] => ""
  | [p] => p
  | p :: ps => p +:+ sep +:+ join sep ps
  end.

Fixpoint stringify_at (level : nat) (v : jvalue) : string :=
  match v with
  | JNull => "null"
  | JBool true => "true"
  | JBool false => "false"
  | JNum n => Z_to_string n
  | JStr s => quote s
  | JArr [] => "[]"
  | JArr items =>
      "[" +:+ newline +:+ indent (S level)
      +:+ join ("," +:+ newline +:+ indent (S level))
               (map (stringify_at (S level)) items)
      +:+ newline +:+ indent level +:+ "]"
  | JObj [] => "{}"
  | JObj members =>
      "{" +:+ newline +:+ indent (S level)
      +:+ join ("," +:+ newline +:+ indent (S level))
               (map (fun kv => quote (fst kv) +:+ ": " +:+ stringify_at (S level) (snd kv))
                    members)
      +:+ newline +:+ indent level +:+ "}"
  end.

Definition JSON_stringify (v : jvalue) : string := stringify_at 0 v.

(** ** JSON.parse *)

Definition backslash : ascii := ascii_of_N 92.

Definition hex_val (c : ascii) : option N :=
  let n := code c in
  if (48 <=? n)%N && (n <=? 57)%N then Some (n - 48)%N
  else if (97 <=? n)%N && (n <=? 102)%N then Some (n - 87)%N
  else if (65 <=? n)%N && (n <=? 70)%N then Some (n - 55)%N
  else None.

(** The character after a backslash, other than [u]. *)
Definition unescape (e : ascii) : option ascii :=
  let n := code e in
  if (n =? 34)%N then Some dquote
  else if (n =? 92)%N then Some backslash
  else if (n =? 47)%N then Some (ascii_of_N 47)
  else if (n =? 98)%N then Some (ascii_of_N 8)
  else if (n =? 102)%N then Some (ascii_of_N 12)
  else if (n =? 110)%N then Some (ascii_of_N 10)
  else if (n =? 114)%N then Some (ascii_of_N 13)
  else if (n =? 116)%N then Some (ascii_of_N 9)
  else None.

Definition hex4 (h1 h2 h3 h4 : ascii) : option ascii :=
  match hex_val h1, hex_val h2, hex_val h3, hex_val h4 with
  | Some a, Some b, Some c, Some d =>
      let n := (((a * 16 + b) * 16 + c) * 16 + d)%N in
      if (n <? 256)%N then Some (ascii_of_N n) else None
  | _, _, _, _ => None
  end.

Definition cons_result (c : ascii) (r : option (string * string)) :
    option (string * string) :=
  match r with
  | Some (t, rest) => Some (String c t, rest)
  | None => None
  end.

(** The characters of a string literal after its opening quote, up to
    and including the closing quote. *)
Fixpoint parse_string_body (s : string) : option (string * string) :=
  match s with
  | EmptyString => None
  | String c r =>
      if (code c =? 34)%N then Some (EmptyString, r)
      else if (code c =? 92)%N then
        match r with
        | EmptyString => None
        | String e r1 =>
            if (code e =? 117)%N then
              match r1 with
              | String h1 (String h2 (String h3 (String h4 r5))) =>
                  match hex4 h1 h2 h3 h4 with
                  | Some u => cons_result u (parse_string_body r5)
                  | None => None
                  end
              | _ => None
              end
            else
              match unescape e with
              | Some u => cons_result u (parse_string_body r1)
              | None => None
              end
        end
      else if (code c <? 32)%N then None
      else cons_result c (parse_string_body r)
  end.

Definition starts_fraction (s : string) : bool :=
  match s with
  | String c _ => (code c =? 46)%N || (code c =? 101)%N || (code c =? 69)%N
  | EmptyString => false
  end.

Definition parse_unsigned (s : string) : option (N * string) :=
  match s with
  | String c r =>
      if is_digit c then
        let '(n, rest) := if (code c =? 48)%N then (0%N, r) else read_digits s 0 in
        if starts_fraction rest then None
        else if (n <=? MAX_SAFE_INTEGER)%N then Some (n, rest) else None
      else None
  | EmptyString => None
  end.

Definition parse_number (s : string) : option (Z * string) :=
  match s with
  | String c r =>
      if (code c =? 45)%N then
        match parse_unsigned r with
        | Some (n, rest) => Some ((- Z.of_N n)%Z, rest)
        | None => None
        end
      else
        match parse_unsigned s with
        | Some (n, rest) => Some (Z.of_N n, rest)
        | None => None
        end
  | EmptyString => None
  end.

Fixpoint strip_prefix (p s : string) : option string :=
  match p with
  | EmptyString => Some s
  | String a p' =>
      match s with
      | String b s' => if Ascii.eqb a b then strip_prefix p' s' else None
      | EmptyString => None
      end
  end.

Definition parse_literal (s : string) : option (jvalue * string) :=
  match strip_prefix "null" s with
  | Some r => Some (JNull, r)
  | None =>
      match strip_prefix "true" s with
      | Some r => Some (JBool true, r)
      | None =>
          match strip_prefix "false" s with
          | Some r => Some (JBool false, r)
          | None =>
              match parse_number s with
              | Some (n, r) => Some (JNum n, r)
              | None => None
              end
          end
      end
  end.

(** Recursive descent; every call spends one unit of [fuel], and the
    caller has consumed the white space before the value. *)
Fixpoint parse_value (fuel : nat) (s : string) : option (jvalue * string) :=
  match fuel with
  | O => None
  | S fuel' =>
      match s with
      | EmptyString => None
      | String c r =>
          if (code c =? 34)%N then
            match parse_string_body r with
            | Some (t, rest) => Some (JStr t, rest)
            | None => None
            end
          else if (code c =? 91)%N then
            match skip_ws r with
            | EmptyString => None
            | String c' r' =>
                if (code c' =? 93)%N then Some (JArr [], r')
                else
                  match parse_elements fuel' (String c' r') with
                  | Some (vs, rest) => Some (JArr vs, rest)
                  | None => None
                  end
            end
          else if (code c =? 123)%N then
            match skip_ws r with
            | EmptyString => None
            | String c' r' =>
                if (code c' =? 125)%N then Some (JObj [], r')
                else
                  match parse_members fuel' (String c' r') with
                  | Some (ms, rest) => Some (JObj (obj_of_members ms), rest)
                  | None => None
                  end
            end
          else parse_literal s
      end
  end
with parse_elements (fuel : nat) (s : string) : option (list jvalue * string) :=
  match fuel with
  | O => None
  | S fuel' =>
      match parse_value fuel' s with
      | Some (v, r) =>
          match skip_ws r with
          | EmptyString => None
          | String c r' =>
              if (code c =? 44)%N then
                match parse_elements fuel' (skip_ws r') with
                | Some (vs, rest) => Some (v :: vs, rest)
                | None => None
                end
              else if (code c =? 93)%N then Some ([v], r')
              else None
          end
      | None => None
      end
  end
with parse_members (fuel : nat) (s : string) :
    option (list (string * jvalue) * string) :=
  match fuel with
  | O => None
  | S fuel' =>
      match s with
      | EmptyString => None
      | String q r =>
          if (code q =? 34)%N then
            match parse_string_body r with
            | Some (k, r1) =>
                match skip_ws r1 with
                | EmptyString => None
                | String c1 r2 =>
                    if (code c1 =? 58)%N then
                      match parse_value fuel' (skip_ws r2) with
                      | Some (v, r3) =>
                          match skip_ws r3 with
                          | EmptyString => None
                          | String c3 r4 =>
                              if (code c3 =? 44)%N then
                                match parse_members fuel' (skip_ws r4) with
                                | Some (ms, rest) => Some ((k, v) :: ms, rest)
                                | None => None
                                end
                              else if (code c3 =? 125)%N then Some ([(k, v)], r4)
                              else None
                          end
                      | None => None
                      end
                    else None
                end
            | None => None
            end
          else None
      end
  end.

(** [JSON.parse(text)]: [None] is a SyntaxError. *)
Definition JSON_parse (text : string) : option jvalue :=
  match parse_value (2 * String.length text + 2) (skip_ws text) with
  | Some (v, rest) =>
      match skip_ws rest with
      | EmptyString => Some v
      | String _ _ => None
      end
  | None => None
  end.

(** ** JavaScript values, coercions and exceptions *)

(** A computation that returns or throws an [Error] with a message. *)
Inductive result (A : Type) : Type :=
| Ok (a : A)
| Throw (message : string).
Arguments Ok {A} a.
Arguments Throw {A} message.

Global Instance result_ret : MRet result := fun A a => Ok a.
Global Instance result_bind : MBind result := fun A B f m =>
  match m with
  | Ok a => f a
  | Throw e => Throw e
  end.

(** ToBoolean; [None] is [undefined]. *)
Definition truthy (v : option jvalue) : bool :=
  match v with
  | None | Some JNull => false
  | Some (JBool b) => b
  | Some (JNum n) => negb (n =? 0)%Z
  | Some (JStr s) => negb (String.eqb s EmptyString)
  | Some (JArr _) | Some (JObj _) => true
  end.

(** [v === 'text']. *)
Definition strict_eq_string (v : option jvalue) (text : string) : bool :=
  match v with
  | Some (JStr s) => String.eqb s text
  | _ => false
  end.

(** [a || b]. *)
Definition or_else (a b : option jvalue) : option jvalue :=
  if truthy a then a else b.

(** [v.k] for a key that no prototype defines: own members of an
    object, [undefined] on other values, a TypeError on [null] and
    [undefined]. *)
Definition prop (v : option jvalue) (k : string) : result (option jvalue) :=
  match v with
  | None => Throw ("Cannot read properties of undefined (reading '" +:+ k +:+ "')")
  | Some JNull => Throw ("Cannot read properties of null (reading '" +:+ k +:+ "')")
  | Some (JObj ms) => Ok (obj_lookup k ms)
  | Some _ => Ok None
  end.

(** [a && a.k]. *)
Definition and_prop (a : option jvalue) (k : string) : result (option jvalue) :=
  if truthy a then prop a k else Ok a.

(** ToString.  An object parsed from JSON is converted by
    [Object.prototype.toString] unless an own member shadows it, and an
    own member is never callable. *)
Fixpoint to_string (v : jvalue) : result string :=
  match v with
  | JNull => Ok "null"
  | JBool true => Ok "true"
  | JBool false => Ok "false"
  | JNum n => Ok (Z_to_string n)
  | JStr s => Ok s
  | JArr items =>
      parts ← (fix elements (l : list jvalue) : result (list string) :=
                 match l with
                 | [] => Ok []
                 | x :: l' =>
                     s ← match x with JNull => Ok EmptyString | _ => to_string x end;
                     ss ← elements l';
                     Ok (s :: ss)
                 end) items;
      Ok (join "," parts)
  | JObj ms =>
      if has_key "toString" ms then Throw "Cannot convert object to primitive value"
      else Ok "[object Object]"
  end.

Definition to_string_opt (v : option jvalue) : result string :=
  match v with
  | None => Ok "undefined"
  | Some x => to_string x
  end.

(** [Array.prototype.join]: [null] and [undefined] elements are empty. *)
Fixpoint array_join (sep : string) (items : list jvalue) : result string :=
  match items with
  | [] => Ok EmptyString
  | [x] => match x with JNull => Ok EmptyString | _ => to_string x end
  | x :: rest =>
      s ← match x with JNull => Ok EmptyString | _ => to_string x end;
      t ← array_join sep rest;
      Ok (s +:+ sep +:+ t)
  end.

(** [v.toString()] on a truthy value. *)
Definition toString_method (v : jvalue) : result string :=
  match v with
  | JObj ms =>
      if has_key "toString" ms then Throw "toString is not a function"
      else Ok "[object Object]"
  | _ => to_string v
  end.

(** [s.slice(0, n)]. *)
Definition slice0 (n : nat) (s : string) : string := String.substring 0 n s.

Fixpoint ends_with_list (suffix s : list ascii) : bool :=
  if decide (suffix = s) then true
  else match s with
       | [] => false
       | _ :: s' => ends_with_list suffix s'
       end.

(** [s.endsWith(suffix)]. *)
Definition endsWith (s suffix : string) : bool :=
  ends_with_list (list_ascii_of_string suffix) (list_ascii_of_string s).

(** [s.startsWith(p)]. *)
Definition startsWith (s p : string) : bool :=
  match strip_prefix p s with Some _ => true | None => false end.

(** ** Paths and the file system *)

Definition slash : ascii := ascii_of_N 47.

Fixpoint contains_slash (s : string) : bool :=
  match s with
  | EmptyString => false
  | String c r => Ascii.eqb c slash || contains_slash r
  end.

(** [path.join(dir, name)] for a normalised [dir] and an entry name. *)
Definition path_join (dir name : string) : string :=
  dir +:+ String slash name.

(** [path.basename(p)]: what follows the last separator. *)
Fixpoint path_basename (p : string) : string :=
  match p with
  | EmptyString => EmptyString
  | String c r =>
      if contains_slash r then path_basename r
      else if Ascii.eqb c slash then r else p
  end.

Inductive node : Type :=
| File (content : string)
| Directory.

(** The files by path, the writes performed so far, oldest first, and
    the paths that the operating system refuses to write, each with the
    error it raises (a name that is too long, a missing permission, a
    full disk). *)
Record world : Type := World {
  files : gmap string node;
  written : list (string * string);
  refused : string -> option string
}.

Definition existsSync (p : string) (w : world) : bool :=
  match files w !! p with Some _ => true | None => false end.

Definition child_name (dir p : string) : option string :=
  match strip_prefix (dir +:+ String slash EmptyString) p with
  | Some name =>
      if contains_slash name || String.eqb name EmptyString then None else Some name
  | None => None
  end.

Definition readdirSync (dir : string) (w : world) : result (list string) :=
  match files w !! dir with
  | Some Directory => Ok (omap (fun kv => child_name dir (fst kv)) (map_to_list (files w)))
  | Some (File _) => Throw "ENOTDIR: not a directory, scandir"
  | None => Throw "ENOENT: no such file or directory, scandir"
  end.

Definition readFileSync (p : string) (w : world) : result string :=
  match files w !! p with
  | Some (File content) => Ok content
  | Some Directory => Throw "EISDIR: illegal operation on a directory, read"
  | None => Throw "ENOENT: no such file or directory, open"
  end.

(** [fs.writeFileSync(p, data, 'utf8')]: [data] must be a string, [p]
    must not name a directory, and the operating system must not refuse
    the write. *)
Definition writeFileSync (p : string) (data : jvalue) (w : world) : result unit * world :=
  match data with
  | JStr text =>
      match files w !! p with
      | Some Directory => (Throw "EISDIR: illegal operation on a directory, open", w)
      | _ =>
          match refused w p with
          | Some error => (Throw error, w)
          | None =>
              (Ok tt, World (<[p := File text]> (files w)) (written w ++ [(p, text)])
                            (refused w))
          end
      end
  | _ => (Throw "The data argument must be of type string or an instance of Buffer, TypedArray, or DataView.", w)
  end.

(** ** The model service *)

Inductive fetch_outcome : Type :=
| FetchRejected (message : string)
| FetchResponse (status : Z) (statusText : string) (body : string).

Record spawn_outcome : Type := Spawned {
  spawn_error : option string;
  spawn_status : option Z;
  spawn_stdout : string;
  spawn_stderr : string
}.

(** What the outside world answers: [fetch] by URL and request body (the
    object that the script serialises), [spawnSync] by command,
    arguments and standard input. *)
Record transport : Type := Transport {
  fetch : string -> jvalue -> fetch_outcome;
  spawnSync : string -> list string -> string -> spawn_outcome
}.

Definition strip_trailing_slash (s : string) : string :=
  if endsWith s (String slash EmptyString)
  then String.substring 0 (String.length s - 1) s else s.

(** The [url] and the [body] of the request. *)
Definition endpoint_url (ollamaUrl apiPath : string) : string :=
  let base := strip_trailing_slash ollamaUrl in
  let path := if String.eqb apiPath EmptyString then "/api/generate" else apiPath in
  if startsWith path (String slash EmptyString)
  then base +:+ path else base +:+ String slash apiPath.

Definition request_body (model prompt : string) (maxTokens : Z) : jvalue :=
  JObj [("model", JStr model); ("prompt", JStr prompt);
        ("max_tokens", JNum (if (maxTokens =? 0)%Z then 800 else maxTokens))].

Definition response_ok (status : Z) : bool := (200 <=? status)%Z && (status <=? 299)%Z.

Definition callOllamaHttp (tr : transport) (ollamaUrl apiPath model prompt : string)
    (maxTokens : Z) : result jvalue :=
  let attempt : result jvalue :=
    match fetch tr (endpoint_url ollamaUrl apiPath) (request_body model prompt maxTokens) with
    | FetchRejected message => Throw message
    | FetchResponse status statusText text =>
        if response_ok status then
          match JSON_parse text with
          | Some v => Ok v
          | None => Ok (JObj [("raw", JStr text)])
          end
        else Throw ("Ollama HTTP error " +:+ Z_to_string status +:+ " " +:+ statusText)
    end in
  match attempt with
  | Ok v => Ok v
  | Throw message => Throw ("Ollama HTTP call failed: " +:+ message)
  end.

(** The arguments of the [ollama] command. *)
Definition cli_arguments (model : string) (maxTokens : Z) : list string :=
  ["generate"; model; "--max-tokens"; Z_to_string maxTokens].

Definition callOllamaCli (tr : transport) (model prompt : string) (maxTokens : Z) :
    result string :=
  let child := spawnSync tr "ollama" (cli_arguments model maxTokens) prompt in
  let attempt : result string :=
    match spawn_error child with
    | Some message => Throw message
    | None =>
        if decide (spawn_status child = Some 0%Z) then Ok (spawn_stdout child)
        else Throw (if String.eqb (spawn_stderr child) EmptyString
                    then "ollama CLI failed" else spawn_stderr child)
    end in
  match attempt with
  | Ok out => Ok out
  | Throw message => Throw ("Ollama CLI call failed: " +:+ message)
  end.

(** ** Discovery *)

(** An element of [failed]: [{ file: p, json }]. *)
Record test : Type := Test {
  file : string;
  json : jvalue
}.

Definition DEFAULT_ALLURE_DIR : string := "allure-results".

(** [json.status && (json.status === 'failed' || json.status === 'broken')]. *)
Definition is_failed (j : jvalue) : result bool :=
  status ← prop (Some j) "status";
  Ok (truthy status
      && (strict_eq_string status "failed" || strict_eq_string status "broken")).

(** The body of [files.forEach] with its [try]/[catch]. *)
Definition visit (allureDir : string) (w : world) (failed : list test) (name : string) :
    list test :=
  let p := path_join allureDir name in
  match readFileSync p w with
  | Ok text =>
      match JSON_parse text with
      | Some j =>
          match is_failed j with
          | Ok true => failed ++ [Test p j]
          | Ok false | Throw _ => failed
          end
      | None => failed
      end
  | Throw _ => failed
  end.

Definition findFailedResults (allureDir : string) (w : world) : result (list test) :=
  if negb (existsSync allureDir w) then Ok []
  else
    names ← readdirSync allureDir w;
    let files := filter (fun f => endsWith f ".json" = true) names in
    Ok (fold_left (visit allureDir w) files []).

(** ** The prompt *)

(** The callback of [test.json.steps.forEach((s, i) => ...)]; [lines] is
    the array being filled. *)
Definition step_callback (s : jvalue) (i : nat) (lines : list jvalue) :
    result (list jvalue) :=
  st ← prop (Some s) "status";
  let status := or_else st (Some (JStr "unknown")) in
  nm ← prop (Some s) "name";
  name_text ← to_string_opt (or_else nm (Some (JStr "<step>")));
  status_text ← to_string_opt status;
  let lines1 :=
    lines ++ [JStr (N_to_string (N.of_nat (i + 1)) +:+ ". " +:+ name_text
                    +:+ " - " +:+ status_text)] in
  if strict_eq_string st "failed" then
    details ← prop (Some s) "statusDetails";
    message ← and_prop details "message";
    if truthy message then
      message_text ← to_string_opt message;
      Ok (lines1 ++ [JStr ("   Step error: " +:+ message_text)])
    else Ok lines1
  else Ok lines1.

Fixpoint forEach_step (steps : list jvalue) (i : nat) (lines : list jvalue) :
    result (list jvalue) :=
  match steps with
  | [] => Ok lines
  | s :: rest =>
      lines1 ← step_callback s i lines;
      forEach_step rest (S i) lines1
  end.

Definition preamble : list jvalue :=
  [ JStr "You are an expert Playwright + Cucumber engineer.";
    JStr "Analyze the failing test and provide a concise JSON with keys: summary, probable_root_cause, confidence, suggested_fix, immediate_workaround, files_to_change (array), allure_attachment (markdown string).";
    JStr "Do not include secrets. Keep suggested_fix short and actionable.";
    JStr "---" ].

Definition TRACE_LIMIT : nat := 3000.

Definition buildPrompt (t : test) : result string :=
  let j := Some (json t) in
  nm ← prop j "name";
  name_text ← to_string_opt (or_else nm (Some (JStr "Unknown")));
  let lines1 := preamble ++ [JStr ("Test name: " +:+ name_text)] in
  full ← prop j "fullName";
  lines2 ← (if truthy full then
              full_text ← to_string_opt full;
              Ok (lines1 ++ [JStr ("Full name: " +:+ full_text)])
            else Ok lines1);
  details ← prop j "statusDetails";
  message ← and_prop details "message";
  let lines3 :=
    if truthy message
    then lines2 ++ [JStr "Error message:"] ++ option_list message
    else lines2 in
  steps ← prop j "steps";
  lines4 ← match steps with
            | Some (JArr (s :: rest)) =>
                forEach_step (s :: rest) 0 (lines3 ++ [JStr "Steps:"])
            | _ => Ok lines3
            end;
  details' ← prop j "statusDetails";
  trace ← and_prop details' "trace";
  lines5 ← match trace with
            | Some tr =>
                if truthy trace then
                  text ← toString_method tr;
                  Ok (lines4 ++ [JStr "Stack trace:"; JStr (slice0 TRACE_LIMIT text)])
                else Ok lines4
            | None => Ok lines4
            end;
  array_join newline (lines5 ++ [JStr "---"; JStr "Provide the JSON only."]).

(** ** Normalisation of the analysis text (the block before
    [analysisText = pretty]) *)

Definition recognized (parsed : jvalue) : result bool :=
  a ← prop (Some parsed) "summary";
  b ← prop (Some parsed) "probable_root_cause";
  c ← prop (Some parsed) "allure_attachment";
  Ok (truthy a || truthy b || truthy c).

Definition normalize (analysisText : jvalue) : jvalue :=
  let text := match analysisText with
              | JStr s => s
              | v => JSON_stringify v
              end in
  match JSON_parse text with
  | Some parsed =>
      if truthy (Some parsed) then
        match recognized parsed with
        | Ok true => JStr (JSON_stringify parsed)
        | Ok false =>
            match prop (Some parsed) "raw" with
            | Ok (Some raw) =>
                if truthy (Some raw) then raw else JStr (JSON_stringify parsed)
            | _ => JStr (JSON_stringify parsed)
            end
        | Throw _ => JStr text
        end
      else JStr (JSON_stringify parsed)
  | None => JStr text
  end.

(** ** Attaching the analysis to the record (the last [try] block of
    the loop) *)

(** [v.k = x] in sloppy mode. *)
Definition set_prop (v : jvalue) (k : string) (x : jvalue) : result jvalue :=
  match v with
  | JObj ms => Ok (JObj (obj_set k x ms))
  | JNull => Throw ("Cannot set properties of null (setting '" +:+ k +:+ "')")
  | _ => Ok v
  end.

(** [items.find(a => a.source === name)]. *)
Fixpoint find_source (name : string) (items : list jvalue) : result (option jvalue) :=
  match items with
  | [] => Ok None
  | a :: rest =>
      src ← prop (Some a) "source";
      if strict_eq_string src name then Ok (Some a) else find_source name rest
  end.

Definition attachment (name : string) : jvalue :=
  JObj [("name", JStr "LLM failure analysis"); ("source", JStr name);
        ("type", JStr "text/plain")].

(** The record after the block, and whether it has to be written back. *)
Definition attach_entry (j : jvalue) (analysisFileName : string) : result (jvalue * bool) :=
  old ← prop (Some j) "attachments";
  j1 ← set_prop j "attachments" (match or_else old (Some (JArr [])) with
                                  | Some a => a
                                  | None => JArr []
                                  end);
  current ← prop (Some j1) "attachments";
  match current with
  | Some (JArr items) =>
      already ← find_source analysisFileName items;
      if truthy already then Ok (j1, false)
      else
        j2 ← set_prop j1 "attachments" (JArr (items ++ [attachment analysisFileName]));
        Ok (j2, true)
  | _ => Throw "json.attachments.find is not a function"
  end.

Definition attach (f : test) (analysisFileName : string) (w : world) : test * world :=
  match attach_entry (json f) analysisFileName with
  | Ok (j, true) =>
      (Test (file f) j, snd (writeFileSync (file f) (JStr (JSON_stringify j)) w))
  | Ok (j, false) => (Test (file f) j, w)
  | Throw _ => (f, w)
  end.

(** ** The batch *)

(** The [opts] object; an absent or empty string is falsy, and so is a
    zero [maxTokens]. *)
Record options : Type := Options {
  opts_allureDir : option string;
  opts_model : option string;
  opts_ollamaUrl : option string;
  opts_maxTokens : Z;
  opts_apiPath : option string
}.

(** [process.env]. *)
Record environment : Type := Environment {
  OLLAMA_URL : option string;
  OLLAMA_HOST : option string
}.

Definition nonempty (a : option string) : option string :=
  match a with
  | Some s => if String.eqb s EmptyString then None else Some s
  | None => None
  end.

Definition string_or (a : option string) (b : string) : string :=
  match nonempty a with Some s => s | None => b end.

Definition first_of (a b : option string) : option string :=
  match nonempty a with Some s => Some s | None => b end.

Definition safe_char (c : ascii) : bool :=
  let n := code c in
  ((97 <=? n)%N && (n <=? 122)%N) || ((65 <=? n)%N && (n <=? 90)%N)
  || ((48 <=? n)%N && (n <=? 57)%N)
  || (n =? 46)%N || (n =? 95)%N || (n =? 45)%N.

Definition underscore : ascii := ascii_of_N 95.

(** [s.replace(/[^a-zA-Z0-9._-]/g, '_')]. *)
Fixpoint sanitize (s : string) : string :=
  match s with
  | EmptyString => EmptyString
  | String c r => String (if safe_char c then c else underscore) (sanitize r)
  end.

Definition uuid (f : test) : string := sanitize (path_basename (file f)).

Definition analysisFileName (f : test) : string := uuid f +:+ "-llm-analysis.txt".

(** The value of [a || b || fallback] for two optional members. *)
Definition first_truthy (a b : option jvalue) (fallback : jvalue) : jvalue :=
  match or_else a b with
  | Some v => if truthy (Some v) then v else fallback
  | None => fallback
  end.

(** The [try] block around the model call: the HTTP transport when a
    service URL is configured, the command line otherwise. *)
Definition call_model (tr : transport) (ollamaUrl : option string)
    (apiPath model prompt : string) (maxTokens : Z) : result jvalue :=
  match nonempty ollamaUrl with
  | Some url =>
      res ← callOllamaHttp tr url apiPath model prompt maxTokens;
      match res with
      | JStr _ => Ok res
      | _ =>
          output ← prop (Some res) "output";
          match output with
          | Some (JArr items) => s ← array_join newline items; Ok (JStr s)
          | _ =>
              if truthy output then s ← to_string_opt output; Ok (JStr s)
              else
                text ← prop (Some res) "text";
                raw ← prop (Some res) "raw";
                Ok (first_truthy text raw (JStr (JSON_stringify res)))
          end
      end
  | None =>
      cliOut ← callOllamaCli tr model prompt maxTokens;
      match JSON_parse cliOut with
      | Some v => Ok (JStr (JSON_stringify v))
      | None => Ok (JStr cliOut)
      end
  end.

(** The text kept when the [try] block throws. *)
Definition analysis_of (attempt : result jvalue) : jvalue :=
  match attempt with
  | Ok v => v
  | Throw message => JStr ("LLM call failed: " +:+ message)
  end.

(** One iteration of [for (const f of failures)]. *)
Definition analyze_one (tr : transport) (allureDir : string) (ollamaUrl : option string)
    (apiPath model : string) (maxTokens : Z) (f : test) (w : world) :
    result unit * world :=
  let analysisPath := path_join allureDir (analysisFileName f) in
  match buildPrompt f with
  | Throw e => (Throw e, w)
  | Ok prompt =>
      let analysisText :=
        analysis_of (call_model tr ollamaUrl apiPath model prompt maxTokens) in
      let pretty := normalize analysisText in
      match writeFileSync analysisPath pretty w with
      | (Throw e, w1) => (Throw e, w1)
      | (Ok _, w1) => (Ok tt, snd (attach f (analysisFileName f) w1))
      end
  end.

Fixpoint for_each (body : test -> world -> result unit * world) (failures : list test)
    (w : world) : result unit * world :=
  match failures with
  | [] => (Ok tt, w)
  | f :: rest =>
      match body f w with
      | (Ok _, w1) => for_each body rest w1
      | (Throw e, w1) => (Throw e, w1)
      end
  end.

Definition analyzeFailures (opts : options) (env : environment) (tr : transport)
    (w : world) : result Z * world :=
  let allureDir := string_or (opts_allureDir opts) DEFAULT_ALLURE_DIR in
  let model := string_or (opts_model opts) "llama2" in
  let ollamaUrl := first_of (opts_ollamaUrl opts) (first_of (OLLAMA_URL env) (OLLAMA_HOST env)) in
  let maxTokens := if (opts_maxTokens opts =? 0)%Z then 800%Z else opts_maxTokens opts in
  match findFailedResults allureDir w with
  | Throw e => (Throw e, w)
  | Ok [] => (Ok 0%Z, w)
  | Ok failures =>
      let apiPath := string_or (opts_apiPath opts) "/api/generate" in
      match for_each (analyze_one tr allureDir ollamaUrl apiPath model maxTokens) failures w with
      | (Ok _, w1) => (Ok 0%Z, w1)
      | (Throw e, w1) => (Throw e, w1)
      end
  end.

(** The script: [process.exit(code)], or [process.exit(2)] when
    [analyzeFailures] throws. *)
Definition run (opts : options) (env : environment) (tr : transport) (w : world) :
    Z * world :=
  match analyzeFailures opts env tr w with
  | (Ok code_, w1) => (code_, w1)
  | (Throw _, w1) => (2%Z, w1)
  end.

(** ** The command line *)

(** A line terminator, which [.] does not match; the two others, U+2028
    and U+2029, are not among the code units of the model. *)
Definition is_line_terminator (c : ascii) : bool :=
  (code c =? 10)%N || (code c =? 13)%N.

(** The text before the first [=] and the text after it. *)
Fixpoint split_equals (s : string) : option (string * string) :=
  match s with
  | EmptyString => None
  | String c r =>
      if (code c =? 61)%N then Some (EmptyString, r)
      else match split_equals r with
           | Some (k, v) => Some (String c k, v)
           | None => None
           end
  end.

(** [a.match] with the pattern of [parseArgs]: two dashes, a key of one
    or more characters other than [=], the sign [=], and a value without
    line terminator up to the end of the text.  The result is the two
    groups of a match. *)
Definition match_argument (a : string) : option (string * string) :=
  match strip_prefix "--" a with
  | Some r =>
      match split_equals r with
      | Some (k, v) =>
          if String.eqb k EmptyString
             || existsb is_line_terminator (list_ascii_of_string v)
          then None else Some (k, v)
      | None => None
      end
  | None => None
  end.

(** [out[k] = v] for a string [v] on the ordinary object [out]: the key
    [__proto__] reaches the inherited setter, which ignores a string. *)
Definition assign_argument (out : list (string * jvalue)) (k v : string) :
    list (string * jvalue) :=
  if String.eqb k "__proto__" then out else obj_set k (JStr v) out.

(** [parseArgs()], from [process.argv]. *)
Definition parseArgs (argv : list string) : list (string * jvalue) :=
  fold_left (fun out a =>
               match match_argument a with
               | Some (k, v) => assign_argument out k v
               | None => out
               end)
            (drop 2 argv) [].

(** The [opts] object that the script builds before it calls
    [analyzeFailures]. *)
Record script_opts : Type := ScriptOpts {
  so_allureDir : option jvalue;
  so_model : option jvalue;
  so_ollamaUrl : option jvalue;
  so_maxTokens : option jvalue
}.

Definition script_options (args : list (string * jvalue)) (env : environment) :
    script_opts :=
  {| so_allureDir :=
       or_else (or_else (obj_lookup "allure-dir" args) (obj_lookup "allureDir" args))
               (Some (JStr DEFAULT_ALLURE_DIR));
     so_model := or_else (obj_lookup "model" args) (Some (JStr "llama2"));
     so_ollamaUrl := or_else (obj_lookup "ollama-url" args) (JStr <$> OLLAMA_URL env);
     so_maxTokens :=
       or_else (or_else (obj_lookup "max-tokens" args) (obj_lookup "maxTokens" args))
               (Some (JNum 800)) |}.

(** ** Vocabulary of the statements *)

(** The [status] member of a record. *)
Definition record_status (j : jvalue) : option jvalue :=
  match j with
  | JObj ms => obj_lookup "status" ms
  | _ => None
  end.

(** The records eligible for analysis. *)
Definition failed_or_broken (j : jvalue) : bool :=
  strict_eq_string (record_status j) "failed"
  || strict_eq_string (record_status j) "broken".

(** The results directory of a run. *)
Definition results_dir (opts : options) : string :=
  string_or (opts_allureDir opts) DEFAULT_ALLURE_DIR.

(** The [attachments] sequence of a record. *)
Definition attachments_of (j : jvalue) : list jvalue :=
  match j with
  | JObj ms =>
      match obj_lookup "attachments" ms with
      | Some (JArr items) => items
      | _ => []
      end
  | _ => []
  end.

(** An attachment whose [source] is [name]. *)
Definition references (name : string) (a : jvalue) : bool :=
  match a with
  | JObj ms => strict_eq_string (obj_lookup "source" ms) name
  | _ => false
  end.

Definition count_references (name : string) (items : list jvalue) : nat :=
  length (List.filter (references name) items).

Definition is_null (v : jvalue) : bool :=
  match v with JNull => true | _ => false end.

(** A record to which an attachment can be added: an object whose
    [attachments] member is absent, falsy, or an array without [null]. *)
Definition attachable (j : jvalue) : bool :=
  match j with
  | JObj ms =>
      match obj_lookup "attachments" ms with
      | None => true
      | Some (JArr items) => forallb (fun a => negb (is_null a)) items
      | Some v => negb (truthy (Some v))
      end
  | _ => false
  end.

(** *** Documents as [JSON.parse] builds them *)

Definition is_index (k : string) : bool :=
  match array_index k with Some _ => true | None => false end.

Definition key_in (k : string) (ks : list string) : bool :=
  existsb (fun k' => String.eqb k' k) ks.

(** Index keys first, in strictly ascending order from [lo]; no index
    key after another key. *)
Fixpoint ordered_keys (lo : N) (ks : list string) : bool :=
  match ks with
  | [] => true
  | k :: ks' =>
      match array_index k with
      | Some n => (lo <=? n)%N && ordered_keys (n + 1) ks'
      | None => forallb (fun k' => negb (is_index k')) ks'
      end
  end.

Fixpoint distinct (ks : list string) : bool :=
  match ks with
  | [] => true
  | k :: ks' => negb (key_in k ks') && distinct ks'
  end.

Definition well_ordered (ms : list (string * jvalue)) : bool :=
  ordered_keys 0 (map fst ms) && distinct (map fst ms).

(** Safe integers, and objects in property order without repeated key. *)
Fixpoint canonical (v : jvalue) : bool :=
  match v with
  | JNum n => (Z.abs_N n <=? MAX_SAFE_INTEGER)%N
  | JArr items => forallb canonical items
  | JObj ms => well_ordered ms && forallb (fun kv => canonical (snd kv)) ms
  | _ => true
  end.

(** *** Transport failures *)




(** The file system lets the script write [p]: no directory is there,
    and the operating system does not refuse the write. *)
Definition accepts (w : world) (p : string) : Prop :=
  files w !! p <> Some Directory /\ refused w p = None.

(** Every entry of the directory can be written: none is a
    sub-directory, and none is refused. *)
Definition accepts_entries (dir : string) (w : world) : Prop :=
  forall name, accepts w (path_join dir name).

(** *** Records as section 3 of the specification types them *)

Definition text_or_absent (v : option jvalue) : bool :=
  match v with
  | None | Some (JStr _) => true
  | _ => false
  end.

(** A failure detail: an object whose [message] and [trace], when
    present, are texts. *)
Definition well_typed_details (v : option jvalue) : bool :=
  match v with
  | None => true
  | Some (JObj ds) =>
      text_or_absent (obj_lookup "message" ds) && text_or_absent (obj_lookup "trace" ds)
  | _ => false
  end.

Definition well_typed_step (s : jvalue) : bool :=
  match s with
  | JObj ss =>
      text_or_absent (obj_lookup "name" ss) && text_or_absent (obj_lookup "status" ss)
      && well_typed_details (obj_lookup "statusDetails" ss)
  | _ => false
  end.

Definition well_typed_record (j : jvalue) : bool :=
  match j with
  | JObj ms =>
      text_or_absent (obj_lookup "name" ms) && text_or_absent (obj_lookup "fullName" ms)
      && well_typed_details (obj_lookup "statusDetails" ms)
      && match obj_lookup "steps" ms with
         | None => true
         | Some (JArr steps) => forallb well_typed_step steps
         | Some _ => false
         end
  | _ => false
  end.

(** A text member, or [default] when it is absent or empty. *)
Definition text_or (v : option jvalue) (default : string) : string :=
  match v with
  | Some (JStr s) => if String.eqb s EmptyString then default else s
  | _ => default
  end.

(** The non-empty text under [k] in a failure detail. *)
Definition details_text (details : option jvalue) (k : string) : option string :=
  match details with
  | Some (JObj ds) =>
      match obj_lookup k ds with
      | Some (JStr s) => if String.eqb s EmptyString then None else Some s
      | _ => None
      end
  | _ => None
  end.

Definition member (j : jvalue) (k : string) : option jvalue :=
  match j with
  | JObj ms => obj_lookup k ms
  | _ => None
  end.

Definition steps_of (j : jvalue) : list jvalue :=
  match member j "steps" with
  | Some (JArr steps) => steps
  | _ => []
  end.

(** The lines that the specification asks for the step at 0-based
    position [i]: the numbered line, then the step error when the step
    failed and carries a message. *)
Definition step_lines (i : nat) (s : jvalue) : list string :=
  (N_to_string (N.of_nat (i + 1)) +:+ ". " +:+ text_or (member s "name") "<step>"
   +:+ " - " +:+ text_or (member s "status") "unknown")
  :: (if strict_eq_string (member s "status") "failed" then
        match details_text (member s "statusDetails") "message" with
        | Some message => ["   Step error: " +:+ message]
        | None => []
        end
      else []).

(** The lines for the top-level trace. *)
Definition trace_lines (j : jvalue) : list string :=
  match details_text (member j "statusDetails") "trace" with
  | Some trace => ["Stack trace:"; slice0 TRACE_LIMIT trace]
  | None => []
  end.

(** What precedes the steps. *)
Definition head_lines (j : jvalue) : list string :=
  [ "You are an expert Playwright + Cucumber engineer.";
    "Analyze the failing test and provide a concise JSON with keys: summary, probable_root_cause, confidence, suggested_fix, immediate_workaround, files_to_change (array), allure_attachment (markdown string).";
    "Do not include secrets. Keep suggested_fix short and actionable.";
    "---";
    "Test name: " +:+ text_or (member j "name") "Unknown" ]
  ++ (if truthy (member j "fullName")
      then ["Full name: " +:+ text_or (member j "fullName") EmptyString] else [])
  ++ (match details_text (member j "statusDetails") "message" with
      | Some message => ["Error message:"; message]
      | None => []
      end)
  ++ (match steps_of j with [] => [] | _ :: _ => ["Steps:"] end).

(** *** Normalisation *)

(** One of the fields that the script recognises is truthy. *)
Definition recognized_fields (parsed : jvalue) : bool :=
  truthy (member parsed "summary") || truthy (member parsed "probable_root_cause")
  || truthy (member parsed "allure_attachment").

(** The text parses to a structure from which the [raw] member is
    taken. *)
Definition unwraps_raw (x : string) : bool :=
  match JSON_parse x with
  | Some parsed =>
      truthy (Some parsed) && negb (recognized_fields parsed)
      && truthy (member parsed "raw")
  | None => false
  end.

(** *** The writes of a record, and the texts of the printer *)

(** The writes of one record: its analysis file, then at most one
    rewrite of the record file. *)
Definition record_writes (dir : string) (f : test) (writes : list (string * string)) : Prop :=
  exists text rest,
    writes = (path_join dir (analysisFileName f), text) :: rest /\
    (rest = [] \/ exists document, rest = [(file f, document)]).

(** A regular file at [p]. *)
Definition is_file (p : string) (w : world) : Prop :=
  exists text, files w !! p = Some (File text).


(** What may follow a number: nothing, or a character that is neither a
    digit nor the start of a fraction or an exponent. *)
Definition delimited (rest : string) : bool :=
  match rest with
  | EmptyString => true
  | String c _ => negb (is_digit c) && negb (starts_fraction rest)
  end.

(** A character that opens a value: not white space, and none of the
    closing brackets. *)
Definition value_start (c : ascii) : bool :=
  negb (is_ws c) && negb (code c =? 93)%N && negb (code c =? 125)%N.

Definition separator (level : nat) : string := "," +:+ newline +:+ indent (S level).

Definition member_text (level : nat) (kv : string * jvalue) : string :=
  quote (fst kv) +:+ ": " +:+ stringify_at (S level) (snd kv).

(** The text of [v], at any depth and before any delimiter, is parsed
    back to [v] with fuel for its length. *)
Definition roundtrips (v : jvalue) : Prop :=
  forall (level : nat) (rest : string) (fuel : nat),
    canonical v = true -> delimited rest = true ->
    String.length (stringify_at level v) <= fuel ->
    parse_value fuel (stringify_at level v +:+ rest) = Some (v, rest).

(** *** The command line, the answers of the model, and discovery *)

(** The value of the last argument [--k=value] of the command line. *)
Definition argument_value (k : string) (argv : list string) : option string :=
  last (omap (fun a =>
                match match_argument a with
                | Some (k', v) => if String.eqb k' k then Some v else None
                | None => None
                end)
             (drop 2 argv)).

(** The text that the selected transport delivers: the body of a
    response with a status in 200..299, or the standard output of a run
    of the command that exits with 0. *)
Definition answer (tr : transport) (ollamaUrl : option string)
    (apiPath model prompt : string) (maxTokens : Z) : option string :=
  match nonempty ollamaUrl with
  | Some url =>
      match fetch tr (endpoint_url url apiPath) (request_body model prompt maxTokens) with
      | FetchResponse status _ body => if response_ok status then Some body else None
      | FetchRejected _ => None
      end
  | None =>
      let child := spawnSync tr "ollama" (cli_arguments model maxTokens) prompt in
      match spawn_error child with
      | Some _ => None
      | None =>
          if bool_decide (spawn_status child = Some 0%Z)
          then Some (spawn_stdout child) else None
      end
  end.

(** The record that the entry [name] of the directory contributes. *)
Definition discovered (dir : string) (w : world) (name : string) : option test :=
  match files w !! path_join dir name with
  | Some (File text) =>
      match JSON_parse text with
      | Some j => if failed_or_broken j then Some (Test (path_join dir name) j) else None
      | None => None
      end
  | _ => None
  end.

(** The service URL and the settings with which a run calls the model. *)
Definition service_url (opts : options) (env : environment) : option string :=
  nonempty (first_of (opts_ollamaUrl opts) (first_of (OLLAMA_URL env) (OLLAMA_HOST env))).

Definition model_name (opts : options) : string := string_or (opts_model opts) "llama2".

Definition token_limit (opts : options) : Z :=
  if (opts_maxTokens opts =? 0)%Z then 800%Z else opts_maxTokens opts.

Definition api_path (opts : options) : string :=
  string_or (opts_apiPath opts) "/api/generate".

(** A record file that a further run leaves alone: the record it holds
    is not failed, or the attach block has nothing to add to it. *)
Definition settled (p text : string) : Prop :=
  forall j, JSON_parse text = Some j -> is_failed j = Ok true ->
    forall j1, attach_entry j (sanitize (path_basename p) +:+ "-llm-analysis.txt")
               <> Ok (j1, true).

(** The members of the object that a text denotes, in the order and
    with the repetitions of the text. *)
Definition members_as_written (text : string) : option (list (string * jvalue)) :=
  let ends (rest : string) :=
    match skip_ws rest with EmptyString => true | String _ _ => false end in
  match skip_ws text with
  | String c r =>
      if (code c =? 123)%N then
        match skip_ws r with
        | EmptyString => None
        | String c' r' =>
            if (code c' =? 125)%N then (if ends r' then Some [] else None)
            else
              match parse_members (Nat.pred (2 * String.length text + 2)) (String c' r') with
              | Some (ms, rest) => if ends rest then Some ms else None
              | None => None
              end
        end
      else None
  | EmptyString => None
  end.



(** A key of the command line holds no [=], and a value no line
    terminator. *)
Definition no_equals (k : string) : bool :=
  forallb (fun c => negb (code c =? 61)%N) (list_ascii_of_string k).

Definition single_line (v : string) : bool :=
  negb (existsb is_line_terminator (list_ascii_of_string v)).

(** A text that does not begin like a JSON value: after the white
    space comes nothing, or a character that opens neither an object, an
    array, a string or a number, and none of the three literals. *)
Definition plain_text (text : string) : bool :=
  match skip_ws text with
  | EmptyString => true
  | String c r =>
      negb ((code c =? 123)%N || (code c =? 91)%N || (code c =? 34)%N
            || (code c =? 45)%N || is_digit c)
      && negb (startsWith (String c r) "true") && negb (startsWith (String c r) "false")
      && negb (startsWith (String c r) "null")
  end.

(** The texts on which [JSON_parse] stands for [JSON.parse]: those it
    parses, which leaves out numbers with a fraction, an exponent or more
    than 53 bits and escapes above [\u00ff], and those that do not begin
    like a JSON value, which neither parses. *)
Definition modelled (text : string) : bool :=
  match JSON_parse text with
  | Some _ => true
  | None => plain_text text
  end.

(** Every entry of [dir] that discovery reads holds such a text. *)
Definition records_modelled (dir : string) (w : world) : Prop :=
  forall name text,
    endsWith name ".json" = true ->
    files w !! path_join dir name = Some (File text) ->
    modelled text = true.

(** Whatever the prompt, the answer of the transport and the analysis
    text made of it are such texts. *)
Definition answers_modelled (tr : transport) (ollamaUrl : option string)
    (apiPath model : string) (maxTokens : Z) : Prop :=
  forall prompt,
    (forall body, answer tr ollamaUrl apiPath model prompt maxTokens = Some body ->
       modelled body = true) /\
    (forall text,
       analysis_of (call_model tr ollamaUrl apiPath model prompt maxTokens) = JStr text ->
       modelled text = true).

(** A file name made of the characters that sanitising keeps. *)
Definition safe_name (name : string) : bool :=
  forallb safe_char (list_ascii_of_string name).

(** The state of the record files while a run proceeds from [w]: a file
    is settled, or it holds what it held at the start and no record
    processed so far had something to add to it that could be written. *)
Definition record_files_settled (w : world) (processed : test -> Prop) (w' : world) : Prop :=
  refused w' = refused w /\
  forall p text,
    files w' !! p = Some (File text) -> endsWith p ".json" = true ->
    settled p text \/
    (files w !! p = Some (File text) /\
     forall f, processed f -> file f = p ->
       (forall j1, attach_entry (json f) (analysisFileName f) <> Ok (j1, true)) \/
       refused w p <> None).

(** ** Fixtures

    The record that [fake-failure.js] writes to
    [allure-results/fake-failed-1-result.json], and worlds around it. *)

Definition fake_trace : string :=
  "TypeError: foo is not a function" +:+ newline
  +:+ "    at Object.<anonymous> (test.js:10:15)".

Definition fake_members : list (string * jvalue) :=
  [ ("uuid", JStr "fake-failed-1");
    ("historyId", JStr "fake_history");
    ("name", JStr "Fake failing scenario - LLM test");
    ("fullName", JStr "Feature: Fake / Scenario: LLM test");
    ("status", JStr "failed");
    ("stage", JStr "finished");
    ("start", JNum 1700000000000);
    ("stop", JNum 1700000005000);
    ("labels", JArr [JObj [("name", JStr "feature"); ("value", JStr "Fake Feature")]]);
    ("parameters", JArr []);
    ("steps",
     JArr [ JObj [("name", JStr "Given I do something"); ("status", JStr "passed")];
            JObj [("name", JStr "When I trigger failure"); ("status", JStr "failed");
                  ("statusDetails",
                   JObj [("message", JStr "TypeError: foo is not a function");
                         ("trace", JStr fake_trace)])] ]);
    ("attachments", JArr []);
    ("statusDetails",
     JObj [("message", JStr "TypeError: foo is not a function");
           ("trace", JStr fake_trace)]) ].

Definition fake_failed_1 : jvalue := JObj fake_members.

Definition fake_file : string := "allure-results/fake-failed-1-result.json".

Definition fake_test : test := Test fake_file fake_failed_1.

(** A passed record, and the same failed record under a name that does
    not end in [.json]. *)
Definition passed_record : jvalue :=
  JObj [("uuid", JStr "ok-1"); ("name", JStr "Login works"); ("status", JStr "passed")].

Definition world_of (entries : list (string * node)) : world :=
  World (list_to_map entries) [] (fun _ => None).

Definition fake_world : world :=
  world_of [ ("allure-results", Directory);
             (fake_file, File (JSON_stringify fake_failed_1));
             ("allure-results/ok-1-result.json", File (JSON_stringify passed_record));
             ("allure-results/fake-failed-1-result.bak", File (JSON_stringify fake_failed_1)) ].

Definition passed_world : world :=
  world_of [ ("allure-results", Directory);
             ("allure-results/ok-1-result.json", File (JSON_stringify passed_record));
             ("allure-results/notes.json", File "not json at all") ].

Definition empty_world : world := world_of [].

Definition default_options : options := Options None None None 0 None.

Definition no_environment : environment := Environment None None.

(** A machine without the model runner and without network. *)
Definition offline : transport :=
  Transport (fun _ _ => FetchRejected "fetch failed")
            (fun _ _ _ => Spawned (Some "spawnSync ollama ENOENT") None EmptyString EmptyString).

(** A record file whose name needs sanitising. *)
Definition spaced_world : world :=
  world_of [ ("allure-results", Directory);
             ("allure-results/my test#1.json", File (JSON_stringify fake_failed_1)) ].

Definition spaced_test : test := Test "allure-results/my test#1.json" fake_failed_1.

(** The members of a record that never had attachments. *)
Definition bare_members : list (string * jvalue) :=
  [("uuid", JStr "bare-1"); ("name", JStr "No attachments yet"); ("status", JStr "broken")].

(** The scenario of the specification with a trace of 5000 characters. *)
Definition long_trace : string := string_of_list_ascii (repeat "x"%char 5000).

Definition long_trace_record : jvalue :=
  JObj [ ("status", JStr "failed"); ("name", JStr "Fake failing scenario");
         ("statusDetails",
          JObj [("message", JStr "TypeError: foo is not a function");
                ("trace", JStr long_trace)]);
         ("steps",
          JArr [ JObj [("name", JStr "Given I do something"); ("status", JStr "passed")];
                 JObj [("name", JStr "When I trigger failure"); ("status", JStr "failed");
                       ("statusDetails",
                        JObj [("message", JStr "TypeError: foo is not a function")])] ]) ].

(** An object whose only member, [raw], is the text [[1,2]]; the quotes
    of the JSON text are written as [dquote]. *)
Definition wrapped_array : string :=
  "{" +:+ String dquote ("raw" +:+ String dquote (":" +:+ String dquote ("[1,2]" +:+ String dquote "}"))).

(** A record with members that the script does not know, one of them an
    array index: the document keeps them all where they were. *)
Definition unknown_members : list (string * jvalue) :=
  [ ("7", JStr "seven"); ("status", JStr "failed"); ("x-vendor", JObj [("k", JNum 1)]);
    ("attachments", JArr [JObj [("name", JStr "Screenshot"); ("source", JStr "shot.png");
                                ("type", JStr "image/png")]]);
    ("zzz", JNull) ].

(** A service and a model runner that answer [body] to every call. *)
Definition answering (body : string) : transport :=
  Transport (fun _ _ => FetchResponse 200 "OK" body)
            (fun _ _ _ => Spawned None (Some 0%Z) body EmptyString).

(** An answer in the format of the generate endpoint. *)
Definition ollama_response : string :=
  JSON_stringify (JObj [("model", JStr "llama2"); ("response", JStr "The selector changed.");
                        ("done", JBool true)]).

(** The same service with another model runner. *)
Definition other_runner (tr : transport) : transport :=
  Transport (fetch tr) (fun _ _ _ => Spawned None (Some 0%Z) "unexpected" EmptyString).

(** A service that answers 500 and a model runner that exits with 1. *)
Definition failing_service : transport :=
  Transport (fun _ _ => FetchResponse 500 "Internal Server Error" "overloaded")
            (fun _ _ _ => Spawned None (Some 1%Z) EmptyString "model not found").

(** A broken record with a [null] among its steps. *)
Definition null_step_record : jvalue :=
  JObj [("name", JStr "Checkout"); ("status", JStr "broken");
        ("steps", JArr [JObj [("name", JStr "Given a cart"); ("status", JStr "passed")];
                        JNull])].

Definition null_step_world : world :=
  world_of [ ("allure-results", Directory);
             ("allure-results/a-result.json", File (JSON_stringify null_step_record)) ].

(** An answer that wraps a plain text. *)
Definition wrapped_text : string :=
  JSON_stringify (JObj [("raw", JStr "The selector changed.")]).

(** An answer whose [raw] member is a number. *)
Definition raw_number : string := JSON_stringify (JObj [("raw", JNum 5)]).

(** An answer with the three members that the script looks for. *)
Definition layered_response : string :=
  JSON_stringify (JObj [("raw", JStr "third"); ("text", JStr "second");
                        ("output", JArr [JStr "first"; JStr "and more"])]).

(** A record file that lists [status] before the index key [7], and
    [name] twice. *)
Definition reordered_text : string :=
  "{" +:+ quote "status" +:+ ":" +:+ quote "failed" +:+ ","
  +:+ quote "name" +:+ ":" +:+ quote "first" +:+ ","
  +:+ quote "7" +:+ ":" +:+ quote "seven" +:+ ","
  +:+ quote "name" +:+ ":" +:+ quote "second" +:+ "}".

Definition reordered_file : string := "allure-results/r-result.json".

Definition reordered_world : world :=
  world_of [ ("allure-results", Directory); (reordered_file, File reordered_text) ].

(** * Properties *)

(** ** The fixtures, in the domain of the parser *)

(** The entries of a world given by a list, one case each. *)
Ltac world_entries H :=
  cbv [fake_world passed_world spaced_world world_of] in H; cbn [files] in H;
  apply elem_of_list_to_map_2 in H;
  repeat (apply elem_of_cons in H as [H | H]);
  try discriminate H; try (now apply elem_of_nil in H).

Lemma fake_world_modelled : records_modelled "allure-results" fake_world.
Proof.
  intros name text _ H. world_entries H;
    injection H as _ Ht; subst text; vm_compute; reflexivity.
Defined.

Lemma passed_world_modelled : records_modelled "allure-results" passed_world.
Proof.
  intros name text _ H. world_entries H;
    injection H as _ Ht; subst text; vm_compute; reflexivity.
Defined.



Lemma answering_modelled :
  answers_modelled (answering "The selector changed.")
    (service_url default_options no_environment)
    (api_path default_options) (model_name default_options) (token_limit default_options).
Proof.
  intros prompt. split.
  - intros body H. vm_compute in H. injection H as <-. vm_compute. reflexivity.
  - intros text H. vm_compute in H. injection H as <-. vm_compute. reflexivity.
Defined.

(** ** Strings *)

Local Arguments String.append !_ _ / : simpl nomatch.

Lemma app_empty_r (s : string) : s +:+ EmptyString = s.
Proof. induction s as [|c s IH]; simpl; [reflexivity | now rewrite IH]. Qed.

Lemma app_assoc_s (a b c : string) : (a +:+ b) +:+ c = a +:+ (b +:+ c).
Proof. induction a as [|x a IH]; simpl; [reflexivity | now rewrite IH]. Qed.

Lemma length_app_s (a b : string) :
  String.length (a +:+ b) = String.length a + String.length b.
Proof. induction a as [|x a IH]; simpl; [reflexivity | now rewrite IH]. Qed.

Lemma strip_prefix_app (p s : string) : strip_prefix p (p +:+ s) = Some s.
Proof.
  induction p as [|a p IH]; simpl; [reflexivity |].
  now rewrite Ascii.eqb_refl.
Qed.

Lemma strip_prefix_Some (p s r : string) : strip_prefix p s = Some r -> s = p +:+ r.
Proof.
  revert s; induction p as [|a p IH]; intros s H; simpl in *.
  - now injection H.
  - destruct s as [|b s]; [discriminate |].
    destruct (Ascii.eqb a b) eqn:E; [| discriminate].
    apply Ascii.eqb_eq in E; subst b. now rewrite (IH _ H).
Qed.

Lemma contains_slash_app (a b : string) :
  contains_slash (a +:+ b) = contains_slash a || contains_slash b.
Proof.
  induction a as [|x a IH]; simpl; [reflexivity |].
  now rewrite IH, orb_assoc.
Qed.

Lemma path_basename_join (dir name : string) :
  contains_slash name = false -> path_basename (path_join dir name) = name.
Proof.
  intros Hn. unfold path_join.
  induction dir as [|c dir IH]; simpl.
  - now rewrite Hn.
  - rewrite contains_slash_app. simpl.
    now rewrite orb_true_r.
Qed.

Lemma path_join_inj (dir a b : string) : path_join dir a = path_join dir b -> a = b.
Proof.
  unfold path_join. induction dir as [|c dir IH]; simpl; intros H.
  - now injection H.
  - injection H as H. now apply IH.
Qed.

Lemma child_name_Some (dir p name : string) :
  child_name dir p = Some name ->
  p = path_join dir name /\ contains_slash name = false.
Proof.
  unfold child_name, path_join.
  destruct (strip_prefix _ p) as [n|] eqn:E; [| discriminate].
  destruct (contains_slash n) eqn:Hs; simpl; [discriminate |].
  destruct (String.eqb n EmptyString); [discriminate |].
  intros [= <-]. apply strip_prefix_Some in E. subst p.
  split; [| assumption].
  now rewrite app_assoc_s.
Qed.

(** ** Discovery *)

Lemma readdirSync_entries (dir : string) (w : world) (names : list string) (name : string) :
  readdirSync dir w = Ok names -> name ∈ names ->
  contains_slash name = false /\ is_Some (files w !! path_join dir name).
Proof.
  unfold readdirSync. destruct (files w !! dir) as [[c|]|]; try discriminate.
  intros [= <-] Hin. apply list_elem_of_omap in Hin as ([p nd] & Hp & Hc).
  simpl in Hc. apply child_name_Some in Hc as [-> Hs].
  split; [assumption |]. apply elem_of_map_to_list in Hp. eauto.
Qed.

(** A record enters the list only through [visit], under the name being
    visited. *)
Lemma visit_elem (dir : string) (w : world) (acc : list test) (name : string) (f : test) :
  f ∈ visit dir w acc name ->
  f ∈ acc \/
  (file f = path_join dir name /\
   exists text, files w !! path_join dir name = Some (File text) /\
                JSON_parse text = Some (json f) /\ is_failed (json f) = Ok true).
Proof.
  unfold visit, readFileSync.
  destruct (files w !! path_join dir name) as [[text|]|] eqn:Hf; auto.
  destruct (JSON_parse text) as [j|] eqn:Hp; auto.
  destruct (is_failed j) as [[|]|] eqn:Hs; auto.
  intros Hin. apply elem_of_app in Hin as [Hin | Hin]; [now left | right].
  apply list_elem_of_singleton in Hin. subst f. simpl. eauto.
Qed.

Lemma fold_visit_elem (dir : string) (w : world) (names : list string) :
  forall (acc : list test) (f : test),
  f ∈ fold_left (visit dir w) names acc ->
  f ∈ acc \/
  exists name, name ∈ names /\ file f = path_join dir name /\
    exists text, files w !! path_join dir name = Some (File text) /\
                 JSON_parse text = Some (json f) /\ is_failed (json f) = Ok true.
Proof.
  induction names as [|n names IH]; simpl; intros acc f Hin; [now left |].
  apply IH in Hin as [Hin | (name & Hn & Hrest)].
  - apply visit_elem in Hin as [Hin | [Hfile Hrest]]; [now left | right].
    exists n. split; [left | auto].
  - right. exists name. split; [now right | assumption].
Qed.

Lemma findFailedResults_elem (dir : string) (w : world) (failures : list test) (f : test) :
  findFailedResults dir w = Ok failures -> f ∈ failures ->
  exists name, file f = path_join dir name /\ endsWith name ".json" = true /\
    contains_slash name = false /\
    exists text, files w !! file f = Some (File text) /\
                 JSON_parse text = Some (json f) /\ is_failed (json f) = Ok true.
Proof.
  unfold findFailedResults.
  destruct (negb (existsSync dir w)).
  - intros [= <-] Hin. now apply elem_of_nil in Hin.
  - destruct (readdirSync dir w) as [names|] eqn:Hr; simpl; [| discriminate].
    intros [= <-] Hin.
    apply fold_visit_elem in Hin as [Hin | (name & Hn & Hfile & Hrest)].
    + now apply elem_of_nil in Hin.
    + apply list_elem_of_filter in Hn as [Hjson Hn].
      destruct (readdirSync_entries _ _ _ _ Hr Hn) as [Hs _].
      exists name. rewrite Hfile. auto.
Qed.

Lemma is_failed_spec (j : jvalue) : is_failed j = Ok true <-> failed_or_broken j = true.
Proof.
  unfold is_failed, failed_or_broken, record_status.
  destruct j as [| b | n | t | items | ms]; simpl; try (split; discriminate).
  destruct (obj_lookup "status" ms) as [[| b | n | t | items | ms']|]; simpl;
    try (split; discriminate).
  - destruct b; simpl; split; discriminate.
  - destruct (n =? 0)%Z; simpl; split; discriminate.
  - destruct (String.eqb t EmptyString) eqn:E; simpl.
    + apply String.eqb_eq in E. subst t. simpl. split; discriminate.
    + split; [intros [= H] | intros H]; now rewrite H.
Qed.

Lemma fold_visit_nil (dir : string) (w : world) (names : list string) :
  (forall name text j, name ∈ names ->
     files w !! path_join dir name = Some (File text) ->
     JSON_parse text = Some j -> failed_or_broken j = false) ->
  fold_left (visit dir w) names [] = [].
Proof.
  induction names as [|n names IH]; simpl; intros H; [reflexivity |].
  assert (Hv : visit dir w [] n = []).
  { unfold visit, readFileSync.
    destruct (files w !! path_join dir n) as [[text|]|] eqn:Hf; try reflexivity.
    destruct (JSON_parse text) as [j|] eqn:Hp; try reflexivity.
    destruct (is_failed j) as [[|]|] eqn:Hs; try reflexivity.
    apply is_failed_spec in Hs.
    rewrite (H n text j) in Hs; [discriminate | left | assumption | assumption]. }
  rewrite Hv. apply IH. intros name text j Hin. apply H. now right.
Qed.

(** C7. In an existing results directory whose [.json] entries are
    texts in the domain of the parser and where none of them holds a
    failed or broken record, the run exits 0 and leaves the world as it
    was: no file is created or rewritten. *)
Theorem run_without_failed_records (opts : options) (env : environment)
    (tr : transport) (w : world) :
  files w !! results_dir opts = Some Directory ->
  records_modelled (results_dir opts) w ->
  (forall name text j,
     endsWith name ".json" = true ->
     files w !! path_join (results_dir opts) name = Some (File text) ->
     JSON_parse text = Some j -> failed_or_broken j = false) ->
  run opts env tr w = (0%Z, w).
Proof.
  intros Hdir _ Hnone.
  unfold run, analyzeFailures. fold (results_dir opts).
  assert (Hf : findFailedResults (results_dir opts) w = Ok []).
  { unfold findFailedResults, existsSync. rewrite Hdir. simpl.
    destruct (readdirSync (results_dir opts) w) as [names|] eqn:Hr.
    - simpl. f_equal. apply fold_visit_nil.
      intros name text j Hin. apply list_elem_of_filter in Hin as [Hj _].
      now apply Hnone.
    - unfold readdirSync in Hr. rewrite Hdir in Hr. discriminate. }
  now rewrite Hf.
Qed.

Lemma run_without_failed_records_witness :
  run default_options no_environment offline passed_world = (0%Z, passed_world).
Proof.
  apply run_without_failed_records.
  - vm_compute. reflexivity.
  - apply passed_world_modelled.
  - intros name text j Hj Hfile Hparse.
    change (results_dir default_options) with "allure-results" in Hfile.
    unfold passed_world, world_of in Hfile. cbn [files] in Hfile.
    apply elem_of_list_to_map_2 in Hfile.
    repeat (apply elem_of_cons in Hfile as [Hfile | Hfile]).
    + discriminate.
    + injection Hfile as _ Ht. subst text. vm_compute in Hparse.
      injection Hparse as Hj'. subst j. reflexivity.
    + injection Hfile as _ Ht. subst text. vm_compute in Hparse. discriminate.
    + now apply elem_of_nil in Hfile.
Defined.

(** ** Exit codes *)

Lemma for_each_result (body : test -> world -> result unit * world)
    (failures : list test) (w : world) :
  (exists w1, for_each body failures w = (Ok tt, w1)) \/
  (exists e w1, for_each body failures w = (Throw e, w1)).
Proof.
  revert w; induction failures as [|f failures IH]; simpl; intros w; [eauto |].
  destruct (body f w) as [[[]|e] w1]; [apply IH | eauto].
Qed.

Lemma analyzeFailures_code (opts : options) (env : environment) (tr : transport)
    (w w1 : world) (c : Z) :
  analyzeFailures opts env tr w = (Ok c, w1) -> c = 0%Z.
Proof.
  unfold analyzeFailures.
  destruct (findFailedResults _ w) as [[|f failures]|e]; try congruence.
  destruct (for_each _ _ w) as [[[]|e] w2]; congruence.
Qed.

Lemma findFailedResults_missing (dir : string) (w : world) :
  existsSync dir w = false -> findFailedResults dir w = Ok [].
Proof. unfold findFailedResults. now intros ->. Qed.

Lemma findFailedResults_not_directory (dir : string) (w : world) (content : string) :
  files w !! dir = Some (File content) ->
  exists e, findFailedResults dir w = Throw e.
Proof.
  intros H. unfold findFailedResults, existsSync, readdirSync. rewrite H. simpl. eauto.
Qed.

(** C2, as the code has it.  A results path that does not exist is not an
    error: discovery returns no record and the run exits 0 without
    touching anything.  The exit code is 0 or 2, and it is 2 exactly when
    an exception escapes [analyzeFailures]; this happens before any
    record is processed when the results path exists but is not a
    directory. *)
Theorem exit_codes (opts : options) (env : environment) (tr : transport) (w : world) :
  (existsSync (results_dir opts) w = false -> run opts env tr w = (0%Z, w)) /\
  (fst (run opts env tr w) = 0%Z \/ fst (run opts env tr w) = 2%Z) /\
  (fst (run opts env tr w) = 2%Z <->
     exists e, fst (analyzeFailures opts env tr w) = Throw e) /\
  (forall content, files w !! results_dir opts = Some (File content) ->
     run opts env tr w = (2%Z, w)).
Proof.
  repeat split.
  - intros H. unfold run, analyzeFailures. fold (results_dir opts).
    now rewrite (findFailedResults_missing _ _ H).
  - unfold run. destruct (analyzeFailures opts env tr w) as [[c|e] w1] eqn:E; simpl.
    + left. eapply analyzeFailures_code, E.
    + now right.
  - unfold run. destruct (analyzeFailures opts env tr w) as [[c|e] w1] eqn:E; simpl.
    + intros ->. apply analyzeFailures_code in E. discriminate.
    + eauto.
  - unfold run. destruct (analyzeFailures opts env tr w) as [[c|e] w1] eqn:E; simpl.
    + intros [e' He']. discriminate.
    + reflexivity.
  - intros content H. unfold run, analyzeFailures. fold (results_dir opts).
    destruct (findFailedResults_not_directory _ _ _ H) as [e ->]. reflexivity.
Qed.

Lemma exit_codes_witness :
  run default_options no_environment offline empty_world = (0%Z, empty_world).
Proof.
  apply (exit_codes default_options no_environment offline empty_world).
  vm_compute. reflexivity.
Defined.

(** C2, as the claim states it, fails: the default results path is
    absent from the empty world, and the run exits 0, not 2. *)
Lemma missing_directory_exits_0 :
  ~ (existsSync (results_dir default_options) empty_world = false ->
     fst (run default_options no_environment offline empty_world) = 2%Z).
Proof.
  intros H. assert (E : existsSync (results_dir default_options) empty_world = false)
    by (vm_compute; reflexivity).
  specialize (H E). vm_compute in H. discriminate.
Qed.

(** ** The writes of a batch *)

Local Arguments writeFileSync : simpl never.

Lemma writeFileSync_Ok (p : string) (data : jvalue) (w w1 : world) (u : unit) :
  writeFileSync p data w = (Ok u, w1) ->
  exists text, data = JStr text /\
    w1 = World (<[p := File text]> (files w)) (written w ++ [(p, text)]) (refused w).
Proof.
  unfold writeFileSync. destruct data; try discriminate.
  destruct (files w !! p) as [[c|]|]; try discriminate;
    (destruct (refused w p); [discriminate | intros [= _ <-]; eauto]).
Qed.

Lemma writeFileSync_Throw (p : string) (data : jvalue) (w w1 : world) (e : string) :
  writeFileSync p data w = (Throw e, w1) -> w1 = w.
Proof.
  unfold writeFileSync. destruct data; try (now intros [= _ <-]).
  destruct (files w !! p) as [[c|]|]; try (now intros [= _ <-]);
    (destruct (refused w p); [now intros [= _ <-] | discriminate]).
Qed.

Lemma attach_written (f : test) (name : string) (w : world) :
  written (snd (attach f name w)) = written w \/
  exists document, written (snd (attach f name w)) = written w ++ [(file f, document)].
Proof.
  unfold attach. destruct (attach_entry (json f) name) as [[j [|]]|e]; simpl; auto.
  destruct (writeFileSync (file f) (JStr (JSON_stringify j)) w) as [[u|e] w1] eqn:E; simpl.
  - apply writeFileSync_Ok in E as (text & _ & ->). simpl. eauto.
  - apply writeFileSync_Throw in E. subst w1. auto.
Qed.

Lemma analyze_one_written (tr : transport) (dir : string) (url : option string)
    (apiPath model : string) (maxTokens : Z) (f : test) (w w1 : world) :
  analyze_one tr dir url apiPath model maxTokens f w = (Ok tt, w1) ->
  exists writes, record_writes dir f writes /\ written w1 = written w ++ writes.
Proof.
  unfold analyze_one. destruct (buildPrompt f) as [prompt|e]; [| discriminate].
  destruct (writeFileSync _ _ w) as [[u|e] w2] eqn:E; [| discriminate].
  intros [= <-]. apply writeFileSync_Ok in E as (text & _ & ->).
  destruct (attach_written f (analysisFileName f)
              (World (<[path_join dir (analysisFileName f) := File text]> (files w))
                     (written w ++ [(path_join dir (analysisFileName f), text)])
                     (refused w)))
    as [H | [document H]]; rewrite H; simpl.
  - exists [(path_join dir (analysisFileName f), text)]. split; [| reflexivity].
    exists text, []. auto.
  - exists [(path_join dir (analysisFileName f), text); (file f, document)].
    split; [| now rewrite <- app_assoc].
    exists text, [(file f, document)]. eauto.
Qed.

Lemma analyze_one_Throw (tr : transport) (dir : string) (url : option string)
    (apiPath model : string) (maxTokens : Z) (f : test) (w w1 : world) (e : string) :
  analyze_one tr dir url apiPath model maxTokens f w = (Throw e, w1) -> w1 = w.
Proof.
  unfold analyze_one. destruct (buildPrompt f) as [prompt|e']; [| now intros [= _ <-]].
  destruct (writeFileSync _ _ w) as [[u|e'] w2] eqn:E; [discriminate |].
  intros [= _ <-]. eapply writeFileSync_Throw, E.
Qed.

(** Whether the loop ends or throws, the writes are those of the records
    processed so far. *)
Lemma for_each_written_any (tr : transport) (dir : string) (url : option string)
    (apiPath model : string) (maxTokens : Z) (failures : list test) :
  forall w w1 r,
  for_each (analyze_one tr dir url apiPath model maxTokens) failures w = (r, w1) ->
  exists processed rest groups,
    failures = processed ++ rest /\
    Forall2 (record_writes dir) processed groups /\
    written w1 = written w ++ concat groups.
Proof.
  induction failures as [|f failures IH]; simpl; intros w w1 r H.
  - injection H as _ <-. exists [], [], []. repeat split; [constructor | now rewrite app_nil_r].
  - destruct (analyze_one _ _ _ _ _ _ f w) as [[[]|e] w2] eqn:E.
    + apply analyze_one_written in E as (writes & Hw & Hlog).
      apply IH in H as (processed & rest & groups & -> & Hg & Hlog').
      exists (f :: processed), rest, (writes :: groups). split; [reflexivity |].
      split; [now constructor |]. rewrite Hlog', Hlog. simpl. now rewrite <- app_assoc.
    + injection H as _ <-. apply analyze_one_Throw in E. subst w2.
      exists [], (f :: failures), []. repeat split; [constructor | now rewrite app_nil_r].
Qed.

Lemma run_written (opts : options) (env : environment) (tr : transport) (w : world)
    (failures : list test) :
  findFailedResults (results_dir opts) w = Ok failures ->
  exists processed rest groups,
    failures = processed ++ rest /\
    Forall2 (record_writes (results_dir opts)) processed groups /\
    written (snd (run opts env tr w)) = written w ++ concat groups.
Proof.
  intros Hd. unfold run, analyzeFailures. fold (results_dir opts). rewrite Hd.
  destruct failures as [|f failures].
  - exists [], [], []. repeat split; [constructor | simpl; now rewrite app_nil_r].
  - match goal with
    | |- context [for_each ?body ?l w] =>
        destruct (for_each body l w) as [r w1] eqn:E
    end.
    apply for_each_written_any in E as (processed & rest & groups & Hp & Hg & Hlog).
    exists processed, rest, groups. repeat split; try assumption.
    now destruct r.
Qed.

(** C9. Discovery examines only the entries whose name ends in [.json]:
    every discovered record comes from such an entry of the directory,
    no record is returned for an entry with another name, whatever its
    content, and every write of the run is the analysis file or the
    rewrite of a discovered record. *)
Theorem discovery_only_json (opts : options) (w : world) (failures : list test) :
  findFailedResults (results_dir opts) w = Ok failures ->
  (forall f, f ∈ failures ->
     exists name, file f = path_join (results_dir opts) name /\
                  endsWith name ".json" = true) /\
  (forall name, endsWith name ".json" = false ->
     forall f, f ∈ failures -> file f <> path_join (results_dir opts) name) /\
  (forall env tr p text,
     (p, text) ∈ written (snd (run opts env tr w)) ->
     (p, text) ∈ written w \/
     exists f name,
       f ∈ failures /\ file f = path_join (results_dir opts) name /\
       endsWith name ".json" = true /\
       (p = path_join (results_dir opts) (analysisFileName f) \/ p = file f)).
Proof.
  intros Hd. split; [| split].
  - intros f Hin.
    destruct (findFailedResults_elem _ _ _ _ Hd Hin) as (name & Hf & Hj & _).
    eauto.
  - intros name Hno f Hin Heq.
    destruct (findFailedResults_elem _ _ _ _ Hd Hin) as (name' & Hf & Hj & _).
    rewrite Hf in Heq. apply path_join_inj in Heq. subst name'.
    rewrite Hj in Hno. discriminate.
  - intros env tr p text Hin.
    destruct (run_written opts env tr w failures Hd)
      as (processed & rest & groups & Hp & Hg & Hlog).
    rewrite Hlog in Hin. apply elem_of_app in Hin as [Hin | Hin]; [now left | right].
    apply list_elem_of_In, in_concat in Hin as (group & Hgroup & Hin).
    apply list_elem_of_In in Hgroup, Hin.
    apply list_elem_of_lookup in Hgroup as [i Hi].
    destruct (Forall2_lookup_r _ _ _ _ _ Hg Hi) as (f & Hfi & text0 & more & -> & Hmore).
    assert (Hf : f ∈ failures).
    { rewrite Hp. apply elem_of_app. left. eapply list_elem_of_lookup_2, Hfi. }
    destruct (findFailedResults_elem _ _ _ _ Hd Hf) as (name & Hfile & Hj & _).
    exists f, name. repeat split; try assumption.
    apply elem_of_cons in Hin as [Hin | Hin]; [left; congruence |].
    destruct Hmore as [-> | [document ->]]; [now apply elem_of_nil in Hin |].
    apply list_elem_of_singleton in Hin. right. congruence.
Qed.

Lemma discovery_only_json_witness :
  (forall f, f ∈ [fake_test] ->
     exists name, file f = path_join "allure-results" name /\ endsWith name ".json" = true) /\
  (forall name, endsWith name ".json" = false ->
     forall f, f ∈ [fake_test] -> file f <> path_join "allure-results" name) /\
  (forall env tr p text,
     (p, text) ∈ written (snd (run default_options env tr fake_world)) ->
     (p, text) ∈ written fake_world \/
     exists f name,
       f ∈ [fake_test] /\ file f = path_join "allure-results" name /\
       endsWith name ".json" = true /\
       (p = path_join "allure-results" (analysisFileName f) \/ p = file f)).
Proof.
  apply (discovery_only_json default_options fake_world [fake_test]).
  vm_compute. reflexivity.
Defined.




(** ** The name of the analysis file *)




Lemma sanitize_allowed (s : string) :
  forallb safe_char (list_ascii_of_string (sanitize s)) = true.
Proof.
  induction s as [|c s IH]; simpl; [reflexivity |].
  rewrite IH, andb_true_r.
  destruct (safe_char c) eqn:E; [assumption | reflexivity].
Qed.

Lemma analysisFileName_of_entry (dir name : string) (f : test) :
  file f = path_join dir name -> contains_slash name = false ->
  analysisFileName f = sanitize name +:+ "-llm-analysis.txt".
Proof.
  intros Hf Hs. unfold analysisFileName, uuid.
  now rewrite Hf, path_basename_join.
Qed.

Lemma run_completed (opts : options) (env : environment) (tr : transport)
    (w w1 : world) (failures : list test) :
  findFailedResults (results_dir opts) w = Ok failures ->
  run opts env tr w = (0%Z, w1) ->
  exists url apiPath model maxTokens,
    for_each (analyze_one tr (results_dir opts) url apiPath model maxTokens) failures w
    = (Ok tt, w1).
Proof.
  intros Hd. unfold run, analyzeFailures. fold (results_dir opts). rewrite Hd.
  destruct failures as [|f failures].
  - intros [= <-]. exists None, EmptyString, EmptyString, 0%Z. reflexivity.
  - match goal with
    | |- context [for_each (analyze_one tr ?d ?u ?a ?m ?t) ?l w] =>
        destruct (for_each (analyze_one tr d u a m t) l w) as [[[]|e] w2] eqn:E;
        [intros [= <-]; exists u, a, m, t; exact E | discriminate]
    end.
Qed.



Example analysisFileName_spaced :
  analysisFileName spaced_test = "my_test_1.json-llm-analysis.txt".
Proof. reflexivity. Qed.

Example analysisFileName_fake :
  analysisFileName fake_test = "fake-failed-1-result.json-llm-analysis.txt".
Proof. reflexivity. Qed.



(** ** Members of an object *)

Lemma obj_lookup_None (k : string) (ms : list (string * jvalue)) :
  obj_lookup k ms = None <-> has_key k ms = false.
Proof.
  induction ms as [|[k' v] ms IH]; simpl; [tauto |].
  destruct (String.eqb k' k); simpl; [split; discriminate | exact IH].
Qed.

Lemma obj_lookup_Some_has_key (k : string) (ms : list (string * jvalue)) (v : jvalue) :
  obj_lookup k ms = Some v -> has_key k ms = true.
Proof.
  intros H. destruct (has_key k ms) eqn:E; [reflexivity |].
  apply obj_lookup_None in E. congruence.
Qed.

Lemma replace_member_lookup_eq (k : string) (v : jvalue) (ms : list (string * jvalue)) :
  has_key k ms = true -> obj_lookup k (replace_member k v ms) = Some v.
Proof.
  induction ms as [|[k' v'] ms IH]; simpl; [discriminate |].
  destruct (String.eqb k' k) eqn:E; simpl; rewrite E; [reflexivity | exact IH].
Qed.

Lemma replace_member_lookup_ne (k k' : string) (v : jvalue) (ms : list (string * jvalue)) :
  k' <> k -> obj_lookup k' (replace_member k v ms) = obj_lookup k' ms.
Proof.
  intros Hne. induction ms as [|[k0 v0] ms IH]; simpl; [reflexivity |].
  destruct (String.eqb k0 k) eqn:E; simpl.
  - apply String.eqb_eq in E. subst k0.
    destruct (String.eqb k k') eqn:E'; [| reflexivity].
    apply String.eqb_eq in E'. congruence.
  - now rewrite IH.
Qed.

Lemma replace_member_keys (k : string) (v : jvalue) (ms : list (string * jvalue)) :
  map fst (replace_member k v ms) = map fst ms.
Proof.
  induction ms as [|[k0 v0] ms IH]; simpl; [reflexivity |].
  destruct (String.eqb k0 k); simpl; [reflexivity | now rewrite IH].
Qed.

Lemma replace_member_others (k : string) (v : jvalue) (ms : list (string * jvalue)) :
  filter (fun kv => fst kv <> k) (replace_member k v ms)
  = filter (fun kv => fst kv <> k) ms.
Proof.
  induction ms as [|[k0 v0] ms IH]; simpl; [reflexivity |].
  destruct (String.eqb k0 k) eqn:E; simpl.
  - apply String.eqb_eq in E. subst k0.
    rewrite !filter_cons. simpl. now rewrite !decide_False by tauto.
  - rewrite !filter_cons. simpl. now rewrite IH.
Qed.

Lemma replace_member_same (k : string) (v : jvalue) (ms : list (string * jvalue)) :
  obj_lookup k ms = Some v -> replace_member k v ms = ms.
Proof.
  induction ms as [|[k0 v0] ms IH]; simpl; [reflexivity |].
  destruct (String.eqb k0 k); [now intros [= ->] | intros H; now rewrite IH].
Qed.

Lemma replace_member_twice (k : string) (v v' : jvalue) (ms : list (string * jvalue)) :
  replace_member k v' (replace_member k v ms) = replace_member k v' ms.
Proof.
  induction ms as [|[k0 v0] ms IH]; simpl; [reflexivity |].
  destruct (String.eqb k0 k) eqn:E; simpl; rewrite E; [reflexivity | now rewrite IH].
Qed.

Lemma has_key_replace_member (k : string) (v : jvalue) (ms : list (string * jvalue)) :
  has_key k (replace_member k v ms) = has_key k ms.
Proof.
  unfold has_key. induction ms as [|[k0 v0] ms IH]; simpl; [reflexivity |].
  destruct (String.eqb k0 k) eqn:E; simpl; rewrite E; [reflexivity | exact IH].
Qed.

Lemma has_key_app (k : string) (ms ms' : list (string * jvalue)) :
  has_key k (ms ++ ms') = has_key k ms || has_key k ms'.
Proof. unfold has_key. apply existsb_app. Qed.

Lemma obj_lookup_app (k : string) (ms ms' : list (string * jvalue)) :
  obj_lookup k (ms ++ ms') =
  match obj_lookup k ms with Some v => Some v | None => obj_lookup k ms' end.
Proof.
  induction ms as [|[k0 v0] ms IH]; simpl; [reflexivity |].
  destruct (String.eqb k0 k); [reflexivity | exact IH].
Qed.

Lemma replace_member_app_end (k : string) (v v' : jvalue) (ms : list (string * jvalue)) :
  has_key k ms = false ->
  replace_member k v' (ms ++ [(k, v)]) = ms ++ [(k, v')].
Proof.
  unfold has_key. induction ms as [|[k0 v0] ms IH]; simpl.
  - now rewrite String.eqb_refl.
  - destruct (String.eqb k0 k); simpl; [discriminate | intros H; now rewrite IH].
Qed.

(** The key [attachments] is not an array index: a new member goes last. *)
Lemma obj_set_attachments (v : jvalue) (ms : list (string * jvalue)) :
  obj_set "attachments" v ms =
  if has_key "attachments" ms then replace_member "attachments" v ms
  else ms ++ [("attachments", v)].
Proof. reflexivity. Qed.

Lemma obj_set_attachments_lookup (v : jvalue) (ms : list (string * jvalue)) :
  obj_lookup "attachments" (obj_set "attachments" v ms) = Some v.
Proof.
  rewrite obj_set_attachments. destruct (has_key "attachments" ms) eqn:E.
  - now apply replace_member_lookup_eq.
  - rewrite obj_lookup_app. apply obj_lookup_None in E. now rewrite E.
Qed.

Lemma obj_set_attachments_twice (v v' : jvalue) (ms : list (string * jvalue)) :
  obj_set "attachments" v' (obj_set "attachments" v ms) = obj_set "attachments" v' ms.
Proof.
  rewrite !obj_set_attachments. destruct (has_key "attachments" ms) eqn:E.
  - rewrite has_key_replace_member, E. apply replace_member_twice.
  - rewrite has_key_app, E. simpl. now apply replace_member_app_end.
Qed.

Lemma obj_set_attachments_same (v : jvalue) (ms : list (string * jvalue)) :
  obj_lookup "attachments" ms = Some v -> obj_set "attachments" v ms = ms.
Proof.
  intros H. rewrite obj_set_attachments, (obj_lookup_Some_has_key _ _ _ H).
  now apply replace_member_same.
Qed.

Lemma obj_set_attachments_others (v : jvalue) (ms : list (string * jvalue)) :
  filter (fun kv => fst kv <> "attachments") (obj_set "attachments" v ms)
  = filter (fun kv => fst kv <> "attachments") ms.
Proof.
  rewrite obj_set_attachments. destruct (has_key "attachments" ms).
  - apply replace_member_others.
  - rewrite filter_app, filter_cons. simpl.
    now rewrite filter_nil, app_nil_r.
Qed.

Lemma obj_set_attachments_keys (v : jvalue) (ms : list (string * jvalue)) :
  map fst (obj_set "attachments" v ms) =
  if has_key "attachments" ms then map fst ms else map fst ms ++ ["attachments"].
Proof.
  rewrite obj_set_attachments. destruct (has_key "attachments" ms).
  - apply replace_member_keys.
  - now rewrite map_app.
Qed.

(** ** The attach block *)

Lemma references_attachment (name : string) : references name (attachment name) = true.
Proof. simpl. apply String.eqb_refl. Qed.

Lemma references_truthy (name : string) (a : jvalue) :
  references name a = true -> truthy (Some a) = true.
Proof. destruct a; simpl; try discriminate; reflexivity. Qed.

Lemma find_source_found (name : string) (items : list jvalue) (a : jvalue) :
  find_source name items = Ok (Some a) -> references name a = true.
Proof.
  induction items as [|x items IH]; simpl; [discriminate |].
  destruct x as [| b | n | s | l | ms]; simpl; try exact IH; try discriminate.
  destruct (strict_eq_string (obj_lookup "source" ms) name) eqn:E; [| exact IH].
  intros [= <-]. exact E.
Qed.

Lemma find_source_falsy (name : string) (items : list jvalue) (found : option jvalue) :
  find_source name items = Ok found -> truthy found = false -> found = None.
Proof.
  destruct found as [a|]; [| reflexivity].
  intros H Hf. apply find_source_found, references_truthy in H. congruence.
Qed.

(** On an array without [null], [find] with the callback of the script is
    the search for the first attachment that references the file. *)
Lemma find_source_find (name : string) (items : list jvalue) :
  forallb (fun a => negb (is_null a)) items = true ->
  find_source name items = Ok (List.find (references name) items).
Proof.
  induction items as [|x items IH]; simpl; [reflexivity |].
  intros H. apply andb_true_iff in H as [Hx H].
  destruct x as [| b | n | s | l | ms]; simpl in *; try discriminate; auto.
  destruct (strict_eq_string (obj_lookup "source" ms) name); auto.
Qed.

Lemma find_source_app_None (name : string) (items : list jvalue) :
  find_source name items = Ok None ->
  find_source name (items ++ [attachment name]) = Ok (Some (attachment name)).
Proof.
  induction items as [|x items IH]; simpl.
  - now rewrite String.eqb_refl.
  - destruct x as [| b | n | s | l | ms]; simpl; try exact IH; try discriminate.
    destruct (strict_eq_string (obj_lookup "source" ms) name); [discriminate | exact IH].
Qed.

Lemma find_source_count_None (name : string) (items : list jvalue) :
  find_source name items = Ok None -> count_references name items = 0.
Proof.
  unfold count_references. induction items as [|x items IH]; simpl; [reflexivity |].
  destruct x as [| b | n | s | l | ms]; simpl; try exact IH; try discriminate.
  destruct (strict_eq_string (obj_lookup "source" ms) name); [discriminate | exact IH].
Qed.

Lemma count_references_app (name : string) (l l' : list jvalue) :
  count_references name (l ++ l') = count_references name l + count_references name l'.
Proof. unfold count_references. now rewrite List.filter_app, length_app. Qed.

Lemma count_references_find (name : string) (items : list jvalue) (a : jvalue) :
  List.find (references name) items = Some a -> 1 <= count_references name items.
Proof.
  unfold count_references. induction items as [|x items IH]; simpl; [discriminate |].
  destruct (references name x); simpl; [lia | exact IH].
Qed.

(** The array on which the block works: the member of the record, or a
    fresh empty array when the member is absent or falsy. *)
Lemma working_array (ms : list (string * jvalue)) (items : list jvalue) :
  or_else (obj_lookup "attachments" ms) (Some (JArr [])) = Some (JArr items) ->
  attachments_of (JObj ms) = items /\
  obj_lookup "attachments" (obj_set "attachments" (JArr items) ms) = Some (JArr items).
Proof.
  intros H. split; [| apply obj_set_attachments_lookup].
  unfold or_else in H. simpl.
  destruct (obj_lookup "attachments" ms) as [[| b | n | s | l | ms']|]; simpl in H.
  - now injection H as <-.
  - destruct b; [discriminate | now injection H as <-].
  - destruct (n =? 0)%Z; simpl in H; [now injection H as <- | discriminate].
  - destruct (String.eqb s EmptyString); simpl in H; [now injection H as <- | discriminate].
  - now injection H as <-.
  - discriminate.
  - now injection H as <-.
Qed.

(** What a successful block has done. *)
Lemma attach_entry_Ok (j j1 : jvalue) (name : string) (persist : bool) :
  attach_entry j name = Ok (j1, persist) ->
  exists ms items found,
    j = JObj ms /\
    or_else (obj_lookup "attachments" ms) (Some (JArr [])) = Some (JArr items) /\
    find_source name items = Ok found /\
    ((truthy found = true /\ persist = false /\
      j1 = JObj (obj_set "attachments" (JArr items) ms)) \/
     (found = None /\ persist = true /\
      j1 = JObj (obj_set "attachments" (JArr (items ++ [attachment name])) ms))).
Proof.
  unfold attach_entry.
  destruct j as [| b | n | s | l | ms]; simpl; try discriminate.
  rewrite obj_set_attachments_lookup.
  destruct (or_else (obj_lookup "attachments" ms) (Some (JArr []))) as [a|] eqn:E.
  2: { exfalso. unfold or_else in E.
       destruct (truthy (obj_lookup "attachments" ms)) eqn:T; [| discriminate].
       rewrite E in T. discriminate. }
  destruct a as [| b | n | s | items | ms']; try discriminate.
  destruct (find_source name items) as [found|e] eqn:F; simpl; [| discriminate].
  destruct (truthy found) eqn:T.
  - intros [= <- <-]. exists ms, items, found. auto 10.
  - intros [= <- <-]. exists ms, items, found.
    rewrite obj_set_attachments_twice.
    repeat split; auto. right. split; [eapply find_source_falsy; eassumption | auto].
Qed.

Lemma or_else_array (l : list jvalue) (b : option jvalue) :
  or_else (Some (JArr l)) b = Some (JArr l).
Proof. reflexivity. Qed.

Lemma attach_entry_again (j j1 : jvalue) (name : string) (persist : bool) :
  attach_entry j name = Ok (j1, persist) -> attach_entry j1 name = Ok (j1, false).
Proof.
  intros H.
  apply attach_entry_Ok in H as (ms & items & found & -> & _ & Hfind & [(T & -> & ->) | (-> & -> & ->)]).
  - unfold attach_entry. cbn [prop mbind result_bind set_prop].
    rewrite (obj_set_attachments_lookup (JArr items) ms), or_else_array.
    cbv beta iota.
    rewrite obj_set_attachments_twice, obj_set_attachments_lookup.
    rewrite Hfind. cbn [mbind result_bind]. now rewrite T.
  - unfold attach_entry. cbn [prop mbind result_bind set_prop].
    rewrite (obj_set_attachments_lookup (JArr (items ++ [attachment name])) ms),
      or_else_array.
    cbv beta iota.
    rewrite obj_set_attachments_twice, obj_set_attachments_lookup.
    now rewrite (find_source_app_None _ _ Hfind).
Qed.

Lemma attachable_working_array (ms : list (string * jvalue)) :
  attachable (JObj ms) = true ->
  or_else (obj_lookup "attachments" ms) (Some (JArr []))
    = Some (JArr (attachments_of (JObj ms))) /\
  forallb (fun a => negb (is_null a)) (attachments_of (JObj ms)) = true.
Proof.
  unfold or_else. simpl.
  destruct (obj_lookup "attachments" ms) as [[| b | n | s | l | ms']|]; simpl; auto.
  - destruct b; simpl; [discriminate | auto].
  - destruct (n =? 0)%Z; simpl; [auto | discriminate].
  - destruct (String.eqb s EmptyString); simpl; [auto | discriminate].
  - discriminate.
Qed.

(** The block on an attachable record. *)
Lemma attach_entry_attachable (ms : list (string * jvalue)) (name : string) :
  attachable (JObj ms) = true ->
  attach_entry (JObj ms) name =
  match List.find (references name) (attachments_of (JObj ms)) with
  | Some _ =>
      Ok (JObj (obj_set "attachments" (JArr (attachments_of (JObj ms))) ms), false)
  | None =>
      Ok (JObj (obj_set "attachments"
                  (JArr (attachments_of (JObj ms) ++ [attachment name])) ms), true)
  end.
Proof.
  intros H. destruct (attachable_working_array _ H) as [Hw Hn].
  unfold attach_entry. cbn [prop mbind result_bind set_prop].
  rewrite Hw. cbn [prop mbind result_bind set_prop].
  rewrite obj_set_attachments_lookup. cbn [mbind result_bind].
  rewrite (find_source_find _ _ Hn). cbn [mbind result_bind].
  destruct (List.find (references name) (attachments_of (JObj ms))) as [a|] eqn:F.
  - apply find_some in F as [_ F]. now rewrite (references_truthy _ _ F).
  - cbn [truthy]. now rewrite obj_set_attachments_twice.
Qed.

Lemma find_source_count_Some (name : string) (items : list jvalue) (a : jvalue) :
  find_source name items = Ok (Some a) -> 1 <= count_references name items.
Proof.
  unfold count_references. induction items as [|x items IH]; simpl; [discriminate |].
  destruct x as [| b | n | s | l | ms]; simpl; try exact IH; try discriminate.
  destruct (strict_eq_string (obj_lookup "source" ms) name); simpl; [lia | exact IH].
Qed.

Lemma obj_set_attachments_lookup_ne (k : string) (v : jvalue) (ms : list (string * jvalue)) :
  k <> "attachments" ->
  obj_lookup k (obj_set "attachments" v ms) = obj_lookup k ms.
Proof.
  intros Hne. rewrite obj_set_attachments. destruct (has_key "attachments" ms).
  - now apply replace_member_lookup_ne.
  - rewrite obj_lookup_app. destruct (obj_lookup k ms); [reflexivity |].
    cbn [obj_lookup]. destruct (String.eqb "attachments" k) eqn:E; [| reflexivity].
    apply String.eqb_eq in E. congruence.
Qed.

Lemma attachments_of_set (items : list jvalue) (ms : list (string * jvalue)) :
  attachments_of (JObj (obj_set "attachments" (JArr items) ms)) = items.
Proof. simpl. now rewrite obj_set_attachments_lookup. Qed.

(** C4. Running the attach block a second time changes nothing: the
    record in memory, the files and the writes are those left by the
    first run.  The attachments present before are kept, in order, at the
    front of the sequence.  When the record was attachable and carried at
    most one attachment for the analysis file, it carries exactly one
    afterwards. *)
Theorem attach_twice (f : test) (name : string) (w : world) :
  let once := attach f name w in
  let twice := attach (fst once) name (snd once) in
  twice = once /\
  (exists extra, attachments_of (json (fst twice)) = attachments_of (json f) ++ extra) /\
  (attachable (json f) = true ->
   count_references name (attachments_of (json f)) <= 1 ->
   count_references name (attachments_of (json (fst twice))) = 1).
Proof.
  cbv zeta. destruct (attach f name w) as [f1 w1] eqn:Hon. simpl fst. simpl snd.
  unfold attach in Hon.
  destruct (attach_entry (json f) name) as [[j1 persist]|e] eqn:E.
  - assert (Hf1 : f1 = Test (file f) j1) by (destruct persist; now injection Hon).
    clear Hon. subst f1.
    pose proof (attach_entry_again _ _ _ _ E) as E2.
    unfold attach. cbn [json file]. rewrite E2. cbn [fst json].
    split; [reflexivity |].
    apply attach_entry_Ok in E
      as (ms & items & found & Hj & Hw & Hfind & [(T & -> & ->) | (-> & -> & ->)]);
      apply working_array in Hw as [Hitems _]; rewrite Hj;
      rewrite attachments_of_set, Hitems.
    + split; [exists []; now rewrite app_nil_r |].
      intros _ Hle. destruct found as [a|]; [| discriminate].
      apply find_source_count_Some in Hfind. lia.
    + split; [eauto |].
      intros _ _. rewrite count_references_app, (find_source_count_None _ _ Hfind).
      unfold count_references. simpl. now rewrite String.eqb_refl.
  - injection Hon as <- <-. unfold attach. rewrite E. cbn [fst].
    split; [reflexivity |]. split; [exists []; now rewrite app_nil_r |].
    intros Ha. destruct (json f) as [| b | n | s | l | ms]; try discriminate.
    rewrite (attach_entry_attachable _ _ Ha) in E.
    destruct (List.find _ _); discriminate.
Qed.

Lemma attach_twice_witness :
  let once := attach fake_test (analysisFileName fake_test) fake_world in
  let twice := attach (fst once) (analysisFileName fake_test) (snd once) in
  twice = once /\
  (exists extra, attachments_of (json (fst twice)) = attachments_of fake_failed_1 ++ extra) /\
  count_references (analysisFileName fake_test) (attachments_of (json (fst twice))) = 1.
Proof.
  destruct (attach_twice fake_test (analysisFileName fake_test) fake_world)
    as (H1 & H2 & H3).
  split; [exact H1 |]. split; [exact H2 |].
  apply H3; [reflexivity | vm_compute; lia].
Defined.

(** C10. On a record without an [attachments] member the block does not
    fail: it creates the member, as the last one, holding exactly the new
    attachment, and asks for the record to be written back.  On every
    attachable record the block succeeds, and it appends exactly one
    attachment when none references the analysis file yet. *)
Theorem attach_initialises_attachments (ms : list (string * jvalue)) (name : string) :
  (has_key "attachments" ms = false ->
   attach_entry (JObj ms) name
   = Ok (JObj (ms ++ [("attachments", JArr [attachment name])]), true)) /\
  (attachable (JObj ms) = true ->
   exists j1 persist,
     attach_entry (JObj ms) name = Ok (j1, persist) /\
     (count_references name (attachments_of (JObj ms)) = 0 ->
      persist = true /\
      attachments_of j1 = attachments_of (JObj ms) ++ [attachment name])).
Proof.
  split.
  - intros H. assert (Hl : obj_lookup "attachments" ms = None) by now apply obj_lookup_None.
    assert (Ha : attachable (JObj ms) = true) by (simpl; now rewrite Hl).
    rewrite (attach_entry_attachable _ _ Ha). simpl. rewrite Hl. simpl.
    now rewrite obj_set_attachments, H.
  - intros Ha. rewrite (attach_entry_attachable _ _ Ha).
    destruct (List.find (references name) (attachments_of (JObj ms))) as [a|] eqn:F.
    + eexists _, _. split; [reflexivity |].
      intros Hc. apply count_references_find in F. lia.
    + eexists _, _. split; [reflexivity |].
      intros _. split; [reflexivity | apply attachments_of_set].
Qed.

Lemma attach_initialises_attachments_witness :
  attach_entry (JObj bare_members) "bare-1-result.json-llm-analysis.txt"
  = Ok (JObj (bare_members
              ++ [("attachments", JArr [attachment "bare-1-result.json-llm-analysis.txt"])]),
        true)
  /\ exists j1 persist,
       attach_entry fake_failed_1 (analysisFileName fake_test) = Ok (j1, persist) /\
       persist = true /\
       attachments_of j1 = attachments_of fake_failed_1 ++ [attachment (analysisFileName fake_test)].
Proof.
  split.
  - apply (attach_initialises_attachments bare_members). reflexivity.
  - destruct (attach_initialises_attachments fake_members
                (analysisFileName fake_test)) as [_ H].
    destruct (H eq_refl) as (j1 & persist & E & Hc).
    exists j1, persist. split; [exact E |]. apply Hc. reflexivity.
Defined.

(** ** The prompt *)

Lemma array_join_texts (sep : string) (l : list string) :
  array_join sep (map JStr l) = Ok (join sep l).
Proof.
  induction l as [|x l IH]; [reflexivity |].
  destruct l as [|y l]; [reflexivity |].
  change (array_join sep (map JStr (x :: y :: l)))
    with (t ← array_join sep (map JStr (y :: l)); Ok (x +:+ sep +:+ t)).
  now rewrite IH.
Qed.

Lemma to_string_text_or (v : option jvalue) (d : string) :
  text_or_absent v = true -> String.eqb d EmptyString = false ->
  to_string_opt (or_else v (Some (JStr d))) = Ok (text_or v d).
Proof.
  intros Hv Hd. unfold or_else.
  destruct v as [[| b | n | s | l | ms]|]; try discriminate; simpl.
  - destruct (String.eqb s EmptyString); reflexivity.
  - reflexivity.
Qed.

Lemma and_prop_details (d : option jvalue) (k : string) :
  well_typed_details d = true -> k = "message" \/ k = "trace" ->
  match details_text d k with
  | Some m => and_prop d k = Ok (Some (JStr m)) /\ truthy (Some (JStr m)) = true
  | None => exists v, and_prop d k = Ok v /\ truthy v = false
  end.
Proof.
  intros Hd Hk. unfold and_prop, details_text.
  destruct d as [[| b | n | s | l | ds]|]; try discriminate; simpl.
  - assert (Hv : text_or_absent (obj_lookup k ds) = true).
    { simpl in Hd. apply andb_true_iff in Hd as [H1 H2]. now destruct Hk as [-> | ->]. }
    destruct (obj_lookup k ds) as [[| b | n | s | l | ms]|]; try discriminate.
    + destruct (String.eqb s EmptyString) eqn:E.
      * exists (Some (JStr s)). simpl. now rewrite E.
      * simpl. now rewrite E.
    + exists None. auto.
  - exists None. auto.
Qed.

Lemma step_callback_typed (s : jvalue) (i : nat) (lines : list jvalue) :
  well_typed_step s = true ->
  step_callback s i lines = Ok (lines ++ map JStr (step_lines i s)).
Proof.
  destruct s as [| b | n | t | l | ss]; try discriminate.
  intros H. simpl in H.
  apply andb_true_iff in H as [H Hd]. apply andb_true_iff in H as [Hn Hs].
  unfold step_callback, step_lines. cbn [prop member mbind result_bind].
  rewrite (to_string_text_or _ "<step>" Hn eq_refl).
  rewrite (to_string_text_or _ "unknown" Hs eq_refl).
  cbn [mbind result_bind].
  destruct (strict_eq_string (obj_lookup "status" ss) "failed"); [| reflexivity].
  pose proof (and_prop_details _ "message" Hd (or_introl eq_refl)) as Hm.
  destruct (details_text (obj_lookup "statusDetails" ss) "message") as [m|].
  - destruct Hm as [Hm1 Hm2]. rewrite Hm1. cbn [mbind result_bind]. rewrite Hm2.
    cbn [mbind result_bind to_string_opt to_string map].
    now rewrite <- app_assoc.
  - destruct Hm as (v & Hm1 & Hm2). rewrite Hm1. cbn [mbind result_bind].
    now rewrite Hm2.
Qed.

Lemma forEach_step_typed (steps : list jvalue) :
  forall (i : nat) (lines : list jvalue),
  forallb well_typed_step steps = true ->
  forEach_step steps i lines
  = Ok (lines ++ map JStr (concat (imap (fun k s => step_lines (i + k) s) steps))).
Proof.
  induction steps as [|s steps IH]; intros i lines H.
  - simpl. now rewrite app_nil_r.
  - simpl in H. apply andb_true_iff in H as [Hs H].
    cbn [forEach_step]. rewrite (step_callback_typed _ _ _ Hs).
    cbn [mbind result_bind]. rewrite (IH _ _ H).
    cbn [imap concat]. rewrite Nat.add_0_r, map_app, <- app_assoc.
    do 5 f_equal. apply imap_ext. intros k x _. simpl. f_equal. lia.
Qed.

Lemma slice0_length (n : nat) (s : string) : String.length (slice0 n s) <= n.
Proof.
  unfold slice0. revert s; induction n as [|n IH]; intros [|c s]; simpl; try lia.
  specialize (IH s). lia.
Qed.

Lemma slice0_prefix (n : nat) (s : string) : exists rest, s = slice0 n s +:+ rest.
Proof.
  unfold slice0. revert s; induction n as [|n IH]; intros [|c s]; simpl.
  - now exists EmptyString.
  - now exists (String c s).
  - now exists EmptyString.
  - destruct (IH s) as [rest H]. exists rest. now rewrite <- H.
Qed.

Lemma slice0_short (n : nat) (s : string) : String.length s <= n -> slice0 n s = s.
Proof.
  unfold slice0. revert s; induction n as [|n IH]; intros [|c s]; simpl; try reflexivity.
  - lia.
  - intros H. rewrite IH; [reflexivity | lia].
Qed.

Lemma slice0_long (n : nat) (s : string) :
  n <= String.length s -> String.length (slice0 n s) = n.
Proof.
  unfold slice0. revert s; induction n as [|n IH]; intros [|c s]; simpl; try reflexivity.
  - lia.
  - intros H. rewrite IH; [reflexivity | lia].
Qed.

Lemma buildPrompt_typed (path : string) (j : jvalue) :
  well_typed_record j = true ->
  buildPrompt (Test path j)
  = Ok (join newline
          (head_lines j ++ concat (imap step_lines (steps_of j))
           ++ trace_lines j ++ ["---"; "Provide the JSON only."])).
Proof.
  destruct j as [| b | n | t | l | ms]; try discriminate.
  intros H. simpl in H.
  apply andb_true_iff in H as [H Hsteps]. apply andb_true_iff in H as [H Hd].
  apply andb_true_iff in H as [Hn Hf].
  rewrite <- array_join_texts.
  unfold buildPrompt, head_lines, trace_lines, steps_of.
  cbn [json prop member mbind result_bind].
  rewrite (to_string_text_or _ "Unknown" Hn eq_refl). cbn [mbind result_bind].
  assert (Hfull :
    (if truthy (obj_lookup "fullName" ms)
     then full_text ← to_string_opt (obj_lookup "fullName" ms);
          Ok ((preamble ++ [JStr ("Test name: " +:+ text_or (obj_lookup "name" ms) "Unknown")])
              ++ [JStr ("Full name: " +:+ full_text)])
     else Ok (preamble ++ [JStr ("Test name: " +:+ text_or (obj_lookup "name" ms) "Unknown")]))
    = Ok (map JStr
            ([ "You are an expert Playwright + Cucumber engineer.";
               "Analyze the failing test and provide a concise JSON with keys: summary, probable_root_cause, confidence, suggested_fix, immediate_workaround, files_to_change (array), allure_attachment (markdown string).";
               "Do not include secrets. Keep suggested_fix short and actionable.";
               "---";
               "Test name: " +:+ text_or (obj_lookup "name" ms) "Unknown" ]
             ++ (if truthy (obj_lookup "fullName" ms)
                 then ["Full name: " +:+ text_or (obj_lookup "fullName" ms) EmptyString]
                 else [])))).
  { destruct (obj_lookup "fullName" ms) as [[| b | n | s | l | ms']|]; try discriminate;
      try reflexivity.
    simpl. destruct (String.eqb s EmptyString); reflexivity. }
  rewrite Hfull. clear Hfull. cbn [mbind result_bind].
  pose proof (and_prop_details _ "message" Hd (or_introl eq_refl)) as Hm.
  pose proof (and_prop_details _ "trace" Hd (or_intror eq_refl)) as Ht.
  set (head0 := _ ++ (if truthy (obj_lookup "fullName" ms) then _ else _)) in *.
  destruct (details_text (obj_lookup "statusDetails" ms) "message") as [m|];
    [destruct Hm as [Hm1 Hm2] | destruct Hm as (vm & Hm1 & Hm2)];
    rewrite Hm1; cbn [mbind result_bind]; rewrite Hm2;
    (destruct (details_text (obj_lookup "statusDetails" ms) "trace") as [tr|];
     [destruct Ht as [Ht1 Ht2] | destruct Ht as (vt & Ht1 & Ht2)]);
    (destruct (obj_lookup "steps" ms) as [[| b | n | s | [|s0 steps] | ms']|];
     try discriminate);
    try rewrite (forEach_step_typed _ _ _ Hsteps);
    cbn [mbind result_bind]; rewrite Ht1; cbn [mbind result_bind];
    try rewrite Ht2; cbn [mbind result_bind toString_method to_string option_list];
    try (destruct vt; rewrite ?Ht2); cbn [mbind result_bind];
    f_equal; rewrite ?map_app, <- ?app_assoc; try reflexivity.
Qed.

(** C5. For a well-typed record the prompt is the head lines, then for
    every step in order the lines [step_lines] gives it (the 1-based
    numbered line, followed by the step error exactly when the step
    failed and carries a non-empty message), then the closing lines.  When
    the record has a top-level trace the closing lines start with the
    trace cut to its first 3000 characters. *)
Theorem prompt_steps_and_trace (path : string) (j : jvalue) :
  well_typed_record j = true ->
  (exists before after,
     buildPrompt (Test path j)
     = Ok (join newline (before ++ concat (imap step_lines (steps_of j)) ++ after)) /\
     forall trace,
       details_text (member j "statusDetails") "trace" = Some trace ->
       after = ["Stack trace:"; slice0 3000 trace; "---"; "Provide the JSON only."] /\
       String.length (slice0 3000 trace) <= 3000 /\
       (exists rest, trace = slice0 3000 trace +:+ rest) /\
       (3000 <= String.length trace -> String.length (slice0 3000 trace) = 3000) /\
       (String.length trace <= 3000 -> slice0 3000 trace = trace)) /\
  (forall i s,
     hd_error (step_lines i s)
     = Some (N_to_string (N.of_nat (i + 1)) +:+ ". " +:+ text_or (member s "name") "<step>"
             +:+ " - " +:+ text_or (member s "status") "unknown") /\
     ((exists message,
         strict_eq_string (member s "status") "failed" = true /\
         details_text (member s "statusDetails") "message" = Some message /\
         tl (step_lines i s) = ["   Step error: " +:+ message]) \/
      ((strict_eq_string (member s "status") "failed" = false \/
        details_text (member s "statusDetails") "message" = None) /\
       tl (step_lines i s) = []))).
Proof.
  intros H. split.
  - exists (head_lines j), (trace_lines j ++ ["---"; "Provide the JSON only."]).
    split; [now apply buildPrompt_typed |].
    intros trace Ht. unfold trace_lines. rewrite Ht.
    split; [reflexivity |]. split; [apply slice0_length |].
    split; [apply slice0_prefix |]. split; [apply slice0_long | apply slice0_short].
  - intros i s. split; [reflexivity |]. unfold step_lines. cbn [tl].
    destruct (strict_eq_string (member s "status") "failed"); [| right; auto].
    destruct (details_text (member s "statusDetails") "message") as [m|]; [left | right]; eauto.
Qed.

Lemma prompt_steps_and_trace_witness :
  buildPrompt fake_test
  = Ok (join newline
          [ "You are an expert Playwright + Cucumber engineer.";
            "Analyze the failing test and provide a concise JSON with keys: summary, probable_root_cause, confidence, suggested_fix, immediate_workaround, files_to_change (array), allure_attachment (markdown string).";
            "Do not include secrets. Keep suggested_fix short and actionable.";
            "---";
            "Test name: Fake failing scenario - LLM test";
            "Full name: Feature: Fake / Scenario: LLM test";
            "Error message:";
            "TypeError: foo is not a function";
            "Steps:";
            "1. Given I do something - passed";
            "2. When I trigger failure - failed";
            "   Step error: TypeError: foo is not a function";
            "Stack trace:";
            fake_trace;
            "---";
            "Provide the JSON only." ]).
Proof.
  destruct (prompt_steps_and_trace fake_file fake_failed_1 eq_refl)
    as [(before & after & Hp & Ht) _].
  destruct (Ht fake_trace eq_refl) as (Hafter & _).
  reflexivity.
Defined.

Example long_trace_is_cut :
  buildPrompt (Test "allure-results/long.json" long_trace_record)
  = Ok (join newline
          [ "You are an expert Playwright + Cucumber engineer.";
            "Analyze the failing test and provide a concise JSON with keys: summary, probable_root_cause, confidence, suggested_fix, immediate_workaround, files_to_change (array), allure_attachment (markdown string).";
            "Do not include secrets. Keep suggested_fix short and actionable.";
            "---";
            "Test name: Fake failing scenario";
            "Error message:";
            "TypeError: foo is not a function";
            "Steps:";
            "1. Given I do something - passed";
            "2. When I trigger failure - failed";
            "   Step error: TypeError: foo is not a function";
            "Stack trace:";
            string_of_list_ascii (repeat "x"%char 3000);
            "---";
            "Provide the JSON only." ]).
Proof. vm_compute. reflexivity. Qed.

(** ** Transport failures *)

Lemma JSON_parse_failure_text (message : string) :
  JSON_parse ("LLM call failed: " +:+ message) = None.
Proof.
  unfold JSON_parse.
  destruct (2 * String.length ("LLM call failed: " +:+ message) + 2) as [|fuel] eqn:E;
    [lia | reflexivity].
Qed.

Lemma normalize_failure_text (message : string) :
  normalize (JStr ("LLM call failed: " +:+ message))
  = JStr ("LLM call failed: " +:+ message).
Proof. unfold normalize. now rewrite JSON_parse_failure_text. Qed.


Lemma writeFileSync_file (p text : string) (w : world) :
  accepts w p ->
  writeFileSync p (JStr text) w
  = (Ok tt, World (<[p := File text]> (files w)) (written w ++ [(p, text)]) (refused w)).
Proof.
  intros [Hd Hr]. unfold writeFileSync. rewrite Hr.
  destruct (files w !! p) as [[c|]|]; try reflexivity. congruence.
Qed.

Lemma accepts_write (p q text : string) (w : world) (log : list (string * string)) :
  accepts w q -> accepts (World (<[p := File text]> (files w)) log (refused w)) q.
Proof.
  intros [Hd Hr]. split; [| exact Hr]. simpl.
  rewrite lookup_insert. case_decide; [discriminate | exact Hd].
Qed.

Lemma attach_accepts (f : test) (name q : string) (w : world) :
  accepts w q -> accepts (snd (attach f name w)) q.
Proof.
  intros H. unfold attach.
  destruct (attach_entry (json f) name) as [[j [|]]|e]; simpl; try assumption.
  destruct (writeFileSync (file f) (JStr (JSON_stringify j)) w) as [[u|e] w1] eqn:E; simpl.
  - apply writeFileSync_Ok in E as (text & _ & ->). now apply accepts_write.
  - apply writeFileSync_Throw in E. now subst w1.
Qed.


Lemma nonempty_idem (a : option string) : nonempty (nonempty a) = nonempty a.
Proof.
  unfold nonempty. destruct a as [s|]; [| reflexivity].
  destruct (String.eqb s EmptyString) eqn:E; [reflexivity | now rewrite E].
Qed.

Lemma call_model_service (tr : transport) (url : option string)
    (apiPath model prompt : string) (maxTokens : Z) :
  call_model tr (nonempty url) apiPath model prompt maxTokens
  = call_model tr url apiPath model prompt maxTokens.
Proof. unfold call_model. now rewrite nonempty_idem. Qed.



(** A record whose analysis is a text, in a place that can be written,
    is processed to the end. *)
Lemma analyze_one_text (tr : transport) (dir : string) (url : option string)
    (apiPath model : string) (maxTokens : Z) (f : test) (w : world)
    (prompt text : string) :
  accepts w (path_join dir (analysisFileName f)) ->
  buildPrompt f = Ok prompt ->
  normalize (analysis_of (call_model tr url apiPath model prompt maxTokens)) = JStr text ->
  analyze_one tr dir url apiPath model maxTokens f w
  = (Ok tt,
     snd (attach f (analysisFileName f)
            (World (<[path_join dir (analysisFileName f) := File text]> (files w))
                   (written w ++ [(path_join dir (analysisFileName f), text)])
                   (refused w)))).
Proof.
  intros Ha Hp Hn. unfold analyze_one. rewrite Hp, Hn.
  now rewrite writeFileSync_file.
Qed.

Lemma buildPrompt_typed_test (f : test) :
  well_typed_record (json f) = true -> exists prompt, buildPrompt f = Ok prompt.
Proof. destruct f as [path j]. intros H. eexists. now apply buildPrompt_typed. Qed.

Lemma for_each_texts (tr : transport) (dir : string) (url : option string)
    (apiPath model : string) (maxTokens : Z) (failures : list test) :
  forall w,
  (forall f, f ∈ failures -> accepts w (path_join dir (analysisFileName f))) ->
  (forall f, f ∈ failures ->
     exists prompt text,
       buildPrompt f = Ok prompt /\
       normalize (analysis_of (call_model tr url apiPath model prompt maxTokens))
       = JStr text) ->
  exists w1,
    for_each (analyze_one tr dir url apiPath model maxTokens) failures w = (Ok tt, w1).
Proof.
  induction failures as [|f failures IH]; intros w Ha H; simpl; [eauto |].
  destruct (H f) as (prompt & text & Hp & Hn); [left |].
  rewrite (analyze_one_text tr dir url apiPath model maxTokens f w prompt text
             (Ha f ltac:(left)) Hp Hn).
  apply IH.
  - intros g Hg. apply attach_accepts, accepts_write, Ha. now right.
  - intros g Hg. apply H. now right.
Qed.

Lemma findFailedResults_directory (dir : string) (w : world) :
  files w !! dir = Some Directory -> exists failures, findFailedResults dir w = Ok failures.
Proof.
  intros H. unfold findFailedResults, existsSync, readdirSync. rewrite H. simpl. eauto.
Qed.





(** ** Decimal numerals *)

Lemma digit_char_spec (d : N) :
  (d < 10)%N ->
  is_digit (digit_char d) = true /\ digit_val (digit_char d) = d /\
  (code (digit_char d) =? 48)%N = (d =? 0)%N.
Proof.
  intros H.
  assert (Hd : (d = 0 \/ d = 1 \/ d = 2 \/ d = 3 \/ d = 4 \/ d = 5 \/ d = 6 \/ d = 7
                \/ d = 8 \/ d = 9)%N) by lia.
  repeat (destruct Hd as [-> | Hd]; [repeat split |]). now subst d.
Qed.

Lemma digits_of_app (fuel : nat) (n : N) (acc rest : string) :
  digits_of fuel n acc +:+ rest = digits_of fuel n (acc +:+ rest).
Proof.
  revert n acc; induction fuel as [|fuel IH]; intros n acc; simpl; [reflexivity |].
  destruct (n <? 10)%N; [reflexivity | apply IH].
Qed.

Lemma tenth_fits (fuel : nat) (n : N) :
  (n < 2 ^ N.of_nat (S fuel))%N -> (n / 10 < 2 ^ N.of_nat fuel)%N.
Proof.
  rewrite Nat2N.inj_succ, N.pow_succ_r'. intros H.
  apply N.Div0.div_lt_upper_bound. lia.
Qed.

Lemma read_digits_of (fuel : nat) :
  forall (n : N) (acc : string),
  (n < 2 ^ N.of_nat fuel)%N ->
  read_digits (digits_of (S fuel) n acc) 0 = read_digits acc n.
Proof.
  induction fuel as [|fuel IH]; intros n acc H.
  - assert (n = 0%N) as -> by (simpl in H; lia). reflexivity.
  - cbn [digits_of]. destruct (n <? 10)%N eqn:E.
    + apply N.ltb_lt in E. destruct (digit_char_spec (n mod 10)) as (Hd & Hv & _).
      { apply N.mod_lt. lia. }
      cbn [read_digits]. rewrite Hd, Hv. rewrite N.mod_small by assumption. reflexivity.
    + change (read_digits
                (digits_of (S fuel) (n / 10) (String (digit_char (n mod 10)) acc)) 0
              = read_digits acc n).
      rewrite IH by now apply tenth_fits.
      destruct (digit_char_spec (n mod 10)) as (Hd & Hv & _).
      { apply N.mod_lt. lia. }
      cbn [read_digits]. rewrite Hd, Hv. f_equal.
      pose proof (N.div_mod n 10 ltac:(lia)). lia.
Qed.

(** The first digit of a positive number is not zero. *)
Lemma digits_of_head (fuel : nat) :
  forall (n : N) (acc : string),
  (0 < n)%N -> (n < 2 ^ N.of_nat fuel)%N ->
  exists c r, digits_of (S fuel) n acc = String c r /\
              is_digit c = true /\ (code c =? 48)%N = false.
Proof.
  induction fuel as [|fuel IH]; intros n acc Hpos H.
  - simpl in H. lia.
  - cbn [digits_of]. destruct (n <? 10)%N eqn:E.
    + apply N.ltb_lt in E. destruct (digit_char_spec (n mod 10)) as (Hd & _ & Hz).
      { apply N.mod_lt. lia. }
      exists (digit_char (n mod 10)), acc. repeat split; [assumption |].
      rewrite Hz, N.mod_small by assumption. apply N.eqb_neq. lia.
    + apply N.ltb_ge in E.
      apply (IH (n / 10)%N); [| now apply tenth_fits].
      apply N.div_str_pos. lia.
Qed.

Lemma N_to_string_fits (n : N) : (n < 2 ^ N.of_nat (N.to_nat (N.size n)))%N.
Proof. rewrite N2Nat.id. apply N.size_gt. Qed.

Lemma read_digits_stop (rest : string) (n : N) :
  delimited rest = true -> read_digits rest n = (n, rest).
Proof.
  destruct rest as [|c r]; [reflexivity |]. simpl.
  destruct (is_digit c); [discriminate | reflexivity].
Qed.

Lemma delimited_fraction (rest : string) :
  delimited rest = true -> starts_fraction rest = false.
Proof.
  destruct rest as [|c r]; [reflexivity |]. unfold delimited.
  destruct (is_digit c); [discriminate |]. simpl.
  now destruct (_ || _).
Qed.

Lemma parse_unsigned_roundtrip (n : N) (rest : string) :
  (n <= MAX_SAFE_INTEGER)%N -> delimited rest = true ->
  parse_unsigned (N_to_string n +:+ rest) = Some (n, rest).
Proof.
  intros Hmax Hrest. unfold N_to_string. rewrite digits_of_app. simpl (EmptyString +:+ rest).
  destruct (N.eq_dec n 0%N) as [-> | Hn].
  - simpl. rewrite (delimited_fraction _ Hrest). reflexivity.
  - destruct (digits_of_head (N.to_nat (N.size n)) n rest) as (c & r & Hc & Hd & Hz);
      [lia | apply N_to_string_fits |].
    pose proof (read_digits_of (N.to_nat (N.size n)) n rest (N_to_string_fits n)) as Hr.
    rewrite Hc in *. unfold parse_unsigned. rewrite Hd, Hz, Hr.
    rewrite (read_digits_stop _ _ Hrest), (delimited_fraction _ Hrest).
    apply N.leb_le in Hmax. now rewrite Hmax.
Qed.

(** A numeral starts with a digit or a minus sign. *)
Lemma Z_to_string_head (z : Z) (rest : string) :
  exists c r, Z_to_string z +:+ rest = String c r /\
              (is_digit c || (code c =? 45)%N) = true.
Proof.
  unfold Z_to_string. destruct (z <? 0)%Z.
  - simpl. eauto.
  - unfold N_to_string. rewrite digits_of_app.
    destruct (N.eq_dec (Z.abs_N z) 0%N) as [-> | Hn].
    + simpl. eauto.
    + destruct (digits_of_head (N.to_nat (N.size (Z.abs_N z))) (Z.abs_N z)
                  (EmptyString +:+ rest)) as (c & r & Hc & Hd & _);
        [lia | apply N_to_string_fits |].
      exists c, r. now rewrite Hc, Hd.
Qed.

Lemma parse_number_roundtrip (z : Z) (rest : string) :
  (Z.abs_N z <= MAX_SAFE_INTEGER)%N -> delimited rest = true ->
  parse_number (Z_to_string z +:+ rest) = Some (z, rest).
Proof.
  intros Hmax Hrest. unfold Z_to_string. destruct (z <? 0)%Z eqn:E.
  - simpl. rewrite (parse_unsigned_roundtrip _ _ Hmax Hrest).
    apply Z.ltb_lt in E. do 2 f_equal. lia.
  - apply Z.ltb_ge in E.
    pose proof (parse_unsigned_roundtrip _ _ Hmax Hrest) as Hu.
    unfold N_to_string in *. rewrite digits_of_app in *.
    destruct (N.eq_dec (Z.abs_N z) 0%N) as [H0 | Hn].
    + rewrite H0 in *. simpl in *. rewrite Hu. do 2 f_equal. lia.
    + destruct (digits_of_head (N.to_nat (N.size (Z.abs_N z))) (Z.abs_N z)
                  (EmptyString +:+ rest)) as (c & r & Hc & Hd & _);
        [lia | apply N_to_string_fits |].
      rewrite Hc in *. unfold parse_number.
      assert (H45 : (code c =? 45)%N = false).
      { unfold is_digit in Hd. apply andb_true_iff in Hd as [H1 _].
        apply N.leb_le in H1. apply N.eqb_neq. lia. }
      rewrite H45, Hu. do 2 f_equal. lia.
Qed.

(** ** String literals *)

Lemma parse_string_char (c : ascii) (r : string) :
  parse_string_body (quote_char c +:+ r) = cons_result c (parse_string_body r).
Proof. destruct c as [[] [] [] [] [] [] [] []]; reflexivity. Qed.

Lemma parse_string_roundtrip (s rest : string) :
  parse_string_body (quote_body s +:+ String dquote rest) = Some (s, rest).
Proof.
  induction s as [|c s IH]; [reflexivity |].
  cbn [quote_body]. rewrite app_assoc_s, parse_string_char, IH. reflexivity.
Qed.

(** ** White space and the first character of a value *)

Lemma skip_ws_indent (level : nat) (s : string) : skip_ws (indent level +:+ s) = skip_ws s.
Proof. induction level as [|l IH]; [reflexivity | exact IH]. Qed.

Lemma skip_ws_newline_indent (level : nat) (s : string) :
  skip_ws (newline +:+ indent level +:+ s) = skip_ws s.
Proof. exact (skip_ws_indent level s). Qed.

Lemma skip_ws_value_start (c : ascii) (r : string) :
  value_start c = true -> skip_ws (String c r) = String c r.
Proof.
  unfold value_start. simpl. destruct (is_ws c); [discriminate | reflexivity].
Qed.

Lemma number_value_start (c : ascii) :
  (is_digit c || (code c =? 45)%N) = true -> value_start c = true.
Proof. destruct c as [[] [] [] [] [] [] [] []]; intros H; try discriminate H; reflexivity. Qed.

Lemma stringify_head (level : nat) (v : jvalue) (rest : string) :
  exists c r, stringify_at level v +:+ rest = String c r /\ value_start c = true.
Proof.
  destruct v as [| [|] | n | s | [|x items] | [|kv members]]; simpl;
    try (eexists _, _; split; [reflexivity | reflexivity]).
  destruct (Z_to_string_head n rest) as (c & r & Hc & Hd).
  exists c, r. split; [assumption | now apply number_value_start].
Qed.

Lemma stringify_length_pos (level : nat) (v : jvalue) :
  1 <= String.length (stringify_at level v).
Proof.
  destruct (stringify_head level v EmptyString) as (c & r & H & _).
  rewrite app_empty_r in H. rewrite H. simpl. lia.
Qed.

(** A number is parsed as a literal. *)
Lemma parse_value_number (c : ascii) (r : string) (fuel : nat) :
  (is_digit c || (code c =? 45)%N) = true ->
  parse_value (S fuel) (String c r)
  = match parse_number (String c r) with
    | Some (n, r') => Some (JNum n, r')
    | None => None
    end.
Proof. destruct c as [[] [] [] [] [] [] [] []]; intros H; try discriminate H; reflexivity. Qed.

(** ** Property order *)

Lemma has_key_key_in (k : string) (ms : list (string * jvalue)) :
  has_key k ms = key_in k (map fst ms).
Proof.
  unfold has_key, key_in. induction ms as [|[k' v] ms IH]; simpl; [reflexivity |].
  now rewrite IH.
Qed.

Lemma array_index_canonical (k : string) (n : N) :
  array_index k = Some n -> k = N_to_string n.
Proof.
  unfold array_index.
  destruct (all_digits k); simpl; [| discriminate].
  destruct (String.eqb (N_to_string (fst (read_digits k 0))) k) eqn:E; simpl; [| discriminate].
  destruct (_ <? _)%N; [| discriminate].
  intros [= <-]. apply String.eqb_eq in E. now symmetry.
Qed.

Lemma array_index_inj (k k' : string) (n : N) :
  array_index k = Some n -> array_index k' = Some n -> k = k'.
Proof.
  intros H H'. apply array_index_canonical in H, H'. congruence.
Qed.

Lemma key_in_app (k : string) (ks ks' : list string) :
  key_in k (ks ++ ks') = key_in k ks || key_in k ks'.
Proof. unfold key_in. apply existsb_app. Qed.

Lemma distinct_snoc (ks : list string) (k : string) :
  distinct (ks ++ [k]) = distinct ks && negb (key_in k ks).
Proof.
  induction ks as [|k' ks IH]; simpl; [reflexivity |].
  rewrite IH, key_in_app. simpl. rewrite orb_false_r.
  rewrite (String.eqb_sym k k').
  destruct (key_in k' ks), (String.eqb k' k), (distinct ks), (key_in k ks); reflexivity.
Qed.

Lemma ordered_keys_last (ks : list string) (k : string) (n : N) :
  forall lo, ordered_keys lo (ks ++ [k]) = true -> array_index k = Some n -> (lo <= n)%N.
Proof.
  induction ks as [|k' ks IH]; intros lo H Hk; simpl in H.
  - rewrite Hk in H. apply andb_true_iff in H as [H _]. now apply N.leb_le.
  - destruct (array_index k') as [n'|].
    + apply andb_true_iff in H as [H1 H2]. apply N.leb_le in H1.
      specialize (IH _ H2 Hk). lia.
    + rewrite forallb_app in H. apply andb_true_iff in H as [_ H]. simpl in H.
      unfold is_index in H. rewrite Hk in H. discriminate.
Qed.

Lemma ordered_keys_snoc_inv (ks : list string) (k : string) :
  forall lo, ordered_keys lo (ks ++ [k]) = true -> ordered_keys lo ks = true.
Proof.
  induction ks as [|k' ks IH]; intros lo H; [reflexivity |]. simpl in *.
  destruct (array_index k') as [n'|].
  - apply andb_true_iff in H as [H1 H2]. rewrite H1. simpl. now apply IH.
  - rewrite forallb_app in H. now apply andb_true_iff in H as [H _].
Qed.

Lemma insert_index_end (k : string) (v : jvalue) (n : N) (ms : list (string * jvalue)) :
  forall lo, ordered_keys lo (map fst ms ++ [k]) = true -> array_index k = Some n ->
  insert_index n k v ms = ms ++ [(k, v)].
Proof.
  induction ms as [|[k' v'] ms IH]; intros lo H Hk; [reflexivity |].
  cbn [insert_index map fst app] in *. cbn [ordered_keys] in H.
  destruct (array_index k') as [n'|].
  - apply andb_true_iff in H as [_ H].
    pose proof (ordered_keys_last _ _ _ _ H Hk) as Hlt.
    assert (E : (n' <? n)%N = true) by (apply N.ltb_lt; lia).
    rewrite E. f_equal. now apply (IH (n' + 1)%N).
  - rewrite forallb_app in H. apply andb_true_iff in H as [_ H]. simpl in H.
    unfold is_index in H. rewrite Hk in H. discriminate.
Qed.

Lemma well_ordered_snoc (ms : list (string * jvalue)) (k : string) (v : jvalue) :
  well_ordered (ms ++ [(k, v)]) = true ->
  well_ordered ms = true /\ obj_set k v ms = ms ++ [(k, v)].
Proof.
  unfold well_ordered. rewrite map_app. cbn [map fst].
  intros H. apply andb_true_iff in H as [Ho Hd].
  rewrite distinct_snoc in Hd. apply andb_true_iff in Hd as [Hd Hk].
  apply negb_true_iff in Hk.
  split.
  - now rewrite (ordered_keys_snoc_inv _ _ _ Ho), Hd.
  - unfold obj_set. rewrite has_key_key_in, Hk.
    destruct (array_index k) as [n|] eqn:E; [| reflexivity].
    now apply (insert_index_end k v n ms 0%N).
Qed.

(** Rebuilding a well-ordered object from its members gives it back. *)
Lemma obj_of_members_well_ordered (ms : list (string * jvalue)) :
  well_ordered ms = true -> obj_of_members ms = ms.
Proof.
  unfold obj_of_members.
  induction ms as [|[k v] ms IH] using rev_ind; intros H; [reflexivity |].
  apply well_ordered_snoc in H as [Hw Hs].
  rewrite fold_left_app. simpl. now rewrite IH.
Qed.

Lemma key_in_insert_index (x k : string) (v : jvalue) (n : N) (ms : list (string * jvalue)) :
  key_in x (map fst (insert_index n k v ms))
  = String.eqb k x || key_in x (map fst ms).
Proof.
  induction ms as [|[k' v'] ms IH]; simpl; [reflexivity |].
  destruct (array_index k') as [n'|]; [| reflexivity].
  destruct (n' <? n)%N; [| reflexivity].
  simpl. rewrite IH.
  destruct (String.eqb k' x), (String.eqb k x); reflexivity.
Qed.

Lemma key_in_cons (k k' : string) (ks : list string) :
  key_in k (k' :: ks) = String.eqb k' k || key_in k ks.
Proof. reflexivity. Qed.

Lemma insert_index_distinct (k : string) (v : jvalue) (n : N) (ms : list (string * jvalue)) :
  key_in k (map fst ms) = false -> distinct (map fst ms) = true ->
  distinct (map fst (insert_index n k v ms)) = true.
Proof.
  induction ms as [|[k' v'] ms IH]; intros Hk Hd; [reflexivity |].
  cbn [map fst] in Hk, Hd. rewrite key_in_cons in Hk. cbn [distinct] in Hd.
  apply orb_false_iff in Hk as [Hk' Hk].
  apply andb_true_iff in Hd as [Hd' Hd].
  assert (Hall : distinct (k :: k' :: map fst ms) = true).
  { cbn [distinct]. rewrite key_in_cons, Hk', Hk, Hd', Hd. reflexivity. }
  cbn [insert_index]. destruct (array_index k') as [n'|]; [| exact Hall].
  destruct (n' <? n)%N; [| exact Hall].
  cbn [map fst distinct]. rewrite key_in_insert_index, (IH Hk Hd).
  apply negb_true_iff in Hd'. rewrite Hd', String.eqb_sym, Hk'. reflexivity.
Qed.

Lemma insert_index_ordered (k : string) (v : jvalue) (n : N) (ms : list (string * jvalue)) :
  forall lo, array_index k = Some n -> (lo <= n)%N ->
  key_in k (map fst ms) = false -> ordered_keys lo (map fst ms) = true ->
  ordered_keys lo (map fst (insert_index n k v ms)) = true.
Proof.
  induction ms as [|[k' v'] ms IH]; intros lo Hk Hlo Hin Ho.
  - simpl. rewrite Hk. apply andb_true_iff. split; [now apply N.leb_le | reflexivity].
  - cbn [map fst] in Hin. rewrite key_in_cons in Hin.
    apply orb_false_iff in Hin as [Hne Hin].
    cbn [insert_index]. cbn [map fst ordered_keys] in Ho.
    destruct (array_index k') as [n'|] eqn:E'.
    + apply andb_true_iff in Ho as [H1 H2].
      destruct (n' <? n)%N eqn:L.
      * cbn [map fst ordered_keys]. rewrite E', H1. simpl.
        apply IH; try assumption. apply N.ltb_lt in L. lia.
      * cbn [map fst ordered_keys]. rewrite Hk, E'.
        apply N.ltb_ge in L.
        assert (n <> n').
        { intros ->. apply String.eqb_neq in Hne. apply Hne.
          now apply (array_index_inj _ _ n'). }
        rewrite H2, andb_true_r.
        apply andb_true_iff. split; apply N.leb_le; lia.
    + cbn [map fst ordered_keys]. rewrite Hk, E'.
      apply andb_true_iff. split; [now apply N.leb_le | exact Ho].
Qed.

Lemma ordered_keys_snoc (ks : list string) (k : string) :
  forall lo, array_index k = None -> ordered_keys lo ks = true ->
  ordered_keys lo (ks ++ [k]) = true.
Proof.
  induction ks as [|k' ks IH]; intros lo Hk H; simpl.
  - now rewrite Hk.
  - simpl in H. destruct (array_index k') as [n'|].
    + apply andb_true_iff in H as [H1 H2]. rewrite H1. simpl. now apply IH.
    + rewrite forallb_app, H. simpl. unfold is_index. now rewrite Hk.
Qed.

Lemma obj_set_well_ordered (k : string) (v : jvalue) (ms : list (string * jvalue)) :
  well_ordered ms = true -> well_ordered (obj_set k v ms) = true.
Proof.
  unfold well_ordered, obj_set. intros H. apply andb_true_iff in H as [Ho Hd].
  rewrite has_key_key_in. destruct (key_in k (map fst ms)) eqn:Hin.
  - now rewrite replace_member_keys, Ho, Hd.
  - destruct (array_index k) as [n|] eqn:E.
    + rewrite insert_index_ordered, insert_index_distinct; auto. lia.
    + rewrite map_app. cbn [map fst].
      rewrite ordered_keys_snoc, distinct_snoc, Hd, Hin; auto.
Qed.

Lemma obj_of_members_ordered (ms : list (string * jvalue)) :
  well_ordered (obj_of_members ms) = true.
Proof.
  unfold obj_of_members.
  assert (H : forall acc, well_ordered acc = true ->
                well_ordered (fold_left (fun acc kv => obj_set (fst kv) (snd kv) acc) ms acc)
                = true).
  { induction ms as [|[k v] ms IH]; intros acc Ha; [assumption |].
    simpl. apply IH. now apply obj_set_well_ordered. }
  now apply H.
Qed.

Lemma obj_set_values (Q : jvalue -> bool) (k : string) (v : jvalue)
    (ms : list (string * jvalue)) :
  Q v = true -> forallb (fun kv => Q (snd kv)) ms = true ->
  forallb (fun kv => Q (snd kv)) (obj_set k v ms) = true.
Proof.
  intros Hv H. unfold obj_set. destruct (has_key k ms).
  - induction ms as [|[k' v'] ms IH]; [reflexivity |]. simpl in *.
    apply andb_true_iff in H as [H1 H2].
    destruct (String.eqb k' k); simpl; [now rewrite Hv, H2 | now rewrite H1, IH].
  - destruct (array_index k) as [n|].
    + induction ms as [|[k' v'] ms IH]; simpl; [now rewrite Hv |].
      simpl in H. apply andb_true_iff in H as [H1 H2].
      destruct (array_index k') as [n'|]; [destruct (n' <? n)%N |]; simpl;
        rewrite ?Hv, ?H1, ?H2, ?IH; auto.
    + rewrite forallb_app, H. simpl. now rewrite Hv.
Qed.

Lemma obj_of_members_values (Q : jvalue -> bool) (ms : list (string * jvalue)) :
  forallb (fun kv => Q (snd kv)) ms = true ->
  forallb (fun kv => Q (snd kv)) (obj_of_members ms) = true.
Proof.
  unfold obj_of_members.
  assert (H : forall acc, forallb (fun kv => Q (snd kv)) acc = true ->
                forallb (fun kv => Q (snd kv)) ms = true ->
                forallb (fun kv => Q (snd kv))
                  (fold_left (fun acc kv => obj_set (fst kv) (snd kv) acc) ms acc) = true).
  { induction ms as [|[k v] ms IH]; intros acc Ha Hm; [assumption |].
    simpl in *. apply andb_true_iff in Hm as [H1 H2].
    apply IH; [now apply obj_set_values | assumption]. }
  now apply H.
Qed.

(** ** [JSON.parse] reads back what [JSON.stringify] prints *)

Lemma join_cons2 (sep p q : string) (ps : list string) :
  join sep (p :: q :: ps) = p +:+ sep +:+ join sep (q :: ps).
Proof. reflexivity. Qed.

Lemma separator_shape (level : nat) (s : string) :
  separator level +:+ s = String "," (newline +:+ indent (S level) +:+ s).
Proof. unfold separator. now rewrite !app_assoc_s. Qed.

Lemma separator_length (level : nat) : 1 <= String.length (separator level).
Proof. unfold separator. simpl. lia. Qed.

Lemma join_values_head (level : nat) (x : jvalue) (xs : list jvalue) (rest : string) :
  exists c r,
    join (separator level) (map (stringify_at (S level)) (x :: xs)) +:+ rest = String c r /\
    value_start c = true.
Proof.
  destruct xs as [|y ys].
  - apply stringify_head.
  - cbn [map]. rewrite join_cons2, app_assoc_s. apply stringify_head.
Qed.

Lemma delimited_newline (s : string) : delimited (newline +:+ s) = true.
Proof. reflexivity. Qed.

Lemma delimited_comma (s : string) : delimited (String "," s) = true.
Proof. reflexivity. Qed.

Lemma parse_elements_roundtrip (level : nat) (xs : list jvalue) :
  forall (x : jvalue) (rest : string) (fuel : nat),
  Forall roundtrips (x :: xs) -> forallb canonical (x :: xs) = true ->
  String.length (join (separator level) (map (stringify_at (S level)) (x :: xs))) + 1 <= fuel ->
  parse_elements fuel
    (join (separator level) (map (stringify_at (S level)) (x :: xs))
     +:+ newline +:+ indent level +:+ String "]" rest)
  = Some (x :: xs, rest).
Proof.
  induction xs as [|y ys IH]; intros x rest fuel Hall Hc Hfuel.
  - cbn [map join] in *. destruct fuel as [|fuel]; [lia |].
    apply Forall_cons in Hall as [Hx _]. simpl in Hc. rewrite andb_true_r in Hc.
    cbn [parse_elements].
    rewrite (Hx (S level) _ fuel Hc (delimited_newline _)) by lia.
    rewrite skip_ws_newline_indent. reflexivity.
  - cbn [map] in *. rewrite join_cons2 in *.
    destruct fuel as [|fuel]; [lia |].
    apply Forall_cons in Hall as [Hx Hall].
    cbn [forallb] in Hc. apply andb_true_iff in Hc as [Hcx Hc].
    rewrite !length_app_s in Hfuel. pose proof (separator_length level).
    rewrite !app_assoc_s, separator_shape.
    cbn [parse_elements].
    rewrite (Hx (S level) _ fuel Hcx (delimited_comma _)) by lia.
    change (skip_ws (String "," ?s)) with (String "," s).
    change (code "," =? 44)%N with true. cbv iota.
    rewrite skip_ws_newline_indent.
    destruct (join_values_head level y ys (newline +:+ indent level +:+ String "]" rest))
      as (c & r & Hhead & Hstart).
    cbn [map] in Hhead. rewrite Hhead, (skip_ws_value_start _ _ Hstart), <- Hhead.
    rewrite (IH y rest fuel Hall Hc) by (cbn [map]; lia).
    reflexivity.
Qed.

Lemma member_text_shape (level : nat) (k : string) (v : jvalue) (s : string) :
  member_text level (k, v) +:+ s
  = String dquote (quote_body k +:+ String dquote
                     (String ":" (String " " (stringify_at (S level) v +:+ s)))).
Proof. unfold member_text, quote. cbn [fst snd]. simpl. now rewrite !app_assoc_s. Qed.

Lemma member_text_length (level : nat) (kv : string * jvalue) :
  String.length (stringify_at (S level) (snd kv)) + 1 <= String.length (member_text level kv).
Proof. unfold member_text, quote. simpl. rewrite !length_app_s. simpl. lia. Qed.

Lemma join_members_head (level : nat) (kv : string * jvalue)
    (kvs : list (string * jvalue)) (rest : string) :
  exists r,
    join (separator level) (map (member_text level) (kv :: kvs)) +:+ rest = String dquote r.
Proof.
  destruct kv as [k v]. destruct kvs as [|kv' kvs]; cbn [map].
  - cbn [join]. rewrite member_text_shape. eauto.
  - rewrite join_cons2, app_assoc_s, member_text_shape. eauto.
Qed.

Lemma parse_members_step (fuel : nat) (level : nat) (k : string) (v : jvalue) (s : string) :
  roundtrips v -> canonical v = true -> delimited s = true ->
  String.length (stringify_at (S level) v) <= fuel ->
  parse_members (S fuel) (member_text level (k, v) +:+ s)
  = match skip_ws s with
    | EmptyString => None
    | String c3 r4 =>
        if (code c3 =? 44)%N then
          match parse_members fuel (skip_ws r4) with
          | Some (ms, rest) => Some ((k, v) :: ms, rest)
          | None => None
          end
        else if (code c3 =? 125)%N then Some ([(k, v)], r4)
        else None
    end.
Proof.
  intros Hv Hc Hs Hfuel. rewrite member_text_shape.
  cbn [parse_members]. change (code dquote =? 34)%N with true. cbv iota.
  rewrite parse_string_roundtrip.
  change (skip_ws (String ":" ?x)) with (String ":" x).
  change (code ":" =? 58)%N with true. cbv iota.
  destruct (stringify_head (S level) v s) as (c & r & Hhead & Hstart).
  change (skip_ws (String " " ?x)) with (skip_ws x).
  rewrite Hhead, (skip_ws_value_start _ _ Hstart), <- Hhead.
  now rewrite (Hv (S level) s fuel Hc Hs Hfuel).
Qed.

Lemma parse_members_roundtrip (level : nat) (kvs : list (string * jvalue)) :
  forall (kv : string * jvalue) (rest : string) (fuel : nat),
  Forall (fun kv => roundtrips (snd kv)) (kv :: kvs) ->
  forallb (fun kv => canonical (snd kv)) (kv :: kvs) = true ->
  String.length (join (separator level) (map (member_text level) (kv :: kvs))) + 1 <= fuel ->
  parse_members fuel
    (join (separator level) (map (member_text level) (kv :: kvs))
     +:+ newline +:+ indent level +:+ String "}" rest)
  = Some (kv :: kvs, rest).
Proof.
  induction kvs as [|kv' kvs IH]; intros [k v] rest fuel Hall Hc Hfuel.
  - cbn [map join] in *. destruct fuel as [|fuel]; [lia |].
    apply Forall_cons in Hall as [Hv _]. simpl in Hc. rewrite andb_true_r in Hc.
    pose proof (member_text_length level (k, v)) as Hlen. cbn [snd] in *.
    rewrite (parse_members_step fuel level k v _ Hv Hc (delimited_newline _)) by lia.
    rewrite skip_ws_newline_indent. reflexivity.
  - cbn [map] in *. rewrite join_cons2 in *.
    destruct fuel as [|fuel]; [lia |].
    apply Forall_cons in Hall as [Hv Hall].
    cbn [forallb] in Hc. apply andb_true_iff in Hc as [Hcv Hc].
    rewrite !length_app_s in Hfuel. pose proof (separator_length level).
    pose proof (member_text_length level (k, v)) as Hlen. cbn [snd] in *.
    rewrite !app_assoc_s, separator_shape.
    rewrite (parse_members_step fuel level k v _ Hv Hcv (delimited_comma _)) by lia.
    change (skip_ws (String "," ?s)) with (String "," s).
    change (code "," =? 44)%N with true. cbv iota.
    rewrite skip_ws_newline_indent.
    destruct (join_members_head level kv' kvs (newline +:+ indent level +:+ String "}" rest))
      as (r & Hhead).
    cbn [map] in Hhead. rewrite Hhead.
    change (skip_ws (String dquote r)) with (String dquote r). rewrite <- Hhead.
    rewrite (IH kv' rest fuel Hall Hc) by (cbn [map]; lia).
    reflexivity.
Qed.

Lemma stringify_array_shape (level : nat) (x : jvalue) (xs : list jvalue) (rest : string) :
  stringify_at level (JArr (x :: xs)) +:+ rest
  = String "[" (newline +:+ indent (S level)
                +:+ (join (separator level) (map (stringify_at (S level)) (x :: xs))
                     +:+ newline +:+ indent level +:+ String "]" rest)).
Proof.
  change (stringify_at level (JArr (x :: xs)))
    with ("[" +:+ newline +:+ indent (S level)
          +:+ join (separator level) (map (stringify_at (S level)) (x :: xs))
          +:+ newline +:+ indent level +:+ "]").
  now rewrite !app_assoc_s.
Qed.

Lemma stringify_array_length (level : nat) (x : jvalue) (xs : list jvalue) :
  String.length (join (separator level) (map (stringify_at (S level)) (x :: xs))) + 3
  <= String.length (stringify_at level (JArr (x :: xs))).
Proof.
  change (stringify_at level (JArr (x :: xs)))
    with ("[" +:+ newline +:+ indent (S level)
          +:+ join (separator level) (map (stringify_at (S level)) (x :: xs))
          +:+ newline +:+ indent level +:+ "]").
  rewrite !length_app_s. change (String.length "[") with 1.
  change (String.length newline) with 1. lia.
Qed.

Lemma stringify_object_shape (level : nat) (kv : string * jvalue)
    (kvs : list (string * jvalue)) (rest : string) :
  stringify_at level (JObj (kv :: kvs)) +:+ rest
  = String "{" (newline +:+ indent (S level)
                +:+ (join (separator level) (map (member_text level) (kv :: kvs))
                     +:+ newline +:+ indent level +:+ String "}" rest)).
Proof.
  change (stringify_at level (JObj (kv :: kvs)))
    with ("{" +:+ newline +:+ indent (S level)
          +:+ join (separator level) (map (member_text level) (kv :: kvs))
          +:+ newline +:+ indent level +:+ "}").
  now rewrite !app_assoc_s.
Qed.

Lemma stringify_object_length (level : nat) (kv : string * jvalue)
    (kvs : list (string * jvalue)) :
  String.length (join (separator level) (map (member_text level) (kv :: kvs))) + 3
  <= String.length (stringify_at level (JObj (kv :: kvs))).
Proof.
  change (stringify_at level (JObj (kv :: kvs)))
    with ("{" +:+ newline +:+ indent (S level)
          +:+ join (separator level) (map (member_text level) (kv :: kvs))
          +:+ newline +:+ indent level +:+ "}").
  rewrite !length_app_s. change (String.length "{") with 1.
  change (String.length newline) with 1. lia.
Qed.

Lemma value_start_not_close (c : ascii) :
  value_start c = true -> (code c =? 93)%N = false /\ (code c =? 125)%N = false.
Proof.
  unfold value_start. intros H. apply andb_true_iff in H as [H H2].
  apply andb_true_iff in H as [_ H1]. apply negb_true_iff in H1, H2. auto.
Qed.

Lemma roundtrips_all (v : jvalue) : roundtrips v.
Proof.
  induction v as [| b | n | s | items IH | members IH] using jvalue_ind;
    intros level rest fuel Hc Hrest Hfuel.
  - destruct fuel as [|fuel]; [simpl in Hfuel; lia | reflexivity].
  - destruct fuel as [|fuel]; [destruct b; simpl in Hfuel; lia | destruct b; reflexivity].
  - pose proof (stringify_length_pos level (JNum n)).
    destruct fuel as [|fuel]; [lia |].
    cbn [stringify_at canonical] in *. apply N.leb_le in Hc.
    destruct (Z_to_string_head n rest) as (c & r & Hhead & Hd).
    rewrite Hhead, (parse_value_number _ _ _ Hd), <- Hhead.
    now rewrite parse_number_roundtrip.
  - pose proof (stringify_length_pos level (JStr s)).
    destruct fuel as [|fuel]; [lia |].
    cbn [stringify_at]. unfold quote.
    change (String dquote (quote_body s +:+ String dquote EmptyString) +:+ rest)
      with (String dquote ((quote_body s +:+ String dquote EmptyString) +:+ rest)).
    rewrite app_assoc_s.
    change (String dquote EmptyString +:+ rest) with (String dquote rest).
    cbn [parse_value]. change (code dquote =? 34)%N with true. cbv iota.
    now rewrite parse_string_roundtrip.
  - destruct items as [|x xs].
    + destruct fuel as [|fuel]; [simpl in Hfuel; lia | reflexivity].
    + pose proof (stringify_array_length level x xs).
      destruct fuel as [|fuel]; [lia |].
      cbn [canonical] in Hc.
      rewrite stringify_array_shape.
      cbn [parse_value]. change (code "[" =? 34)%N with false.
      change (code "[" =? 91)%N with true. cbv iota.
      rewrite skip_ws_newline_indent.
      destruct (join_values_head level x xs (newline +:+ indent level +:+ String "]" rest))
        as (c & r & Hhead & Hstart).
      rewrite Hhead, (skip_ws_value_start _ _ Hstart).
      destruct (value_start_not_close _ Hstart) as [H93 _].
      rewrite H93, <- Hhead.
      rewrite (parse_elements_roundtrip level xs x rest fuel IH Hc) by lia.
      reflexivity.
  - destruct members as [|kv kvs].
    + destruct fuel as [|fuel]; [simpl in Hfuel; lia | reflexivity].
    + pose proof (stringify_object_length level kv kvs).
      destruct fuel as [|fuel]; [lia |].
      cbn [canonical] in Hc. apply andb_true_iff in Hc as [Hw Hc].
      rewrite stringify_object_shape.
      cbn [parse_value]. change (code "{" =? 34)%N with false.
      change (code "{" =? 91)%N with false. change (code "{" =? 123)%N with true.
      cbv iota. rewrite skip_ws_newline_indent.
      destruct (join_members_head level kv kvs (newline +:+ indent level +:+ String "}" rest))
        as (r & Hhead).
      rewrite Hhead. change (skip_ws (String dquote r)) with (String dquote r).
      change (code dquote =? 125)%N with false. cbv iota. rewrite <- Hhead.
      rewrite (parse_members_roundtrip level kvs kv rest fuel IH Hc) by lia.
      now rewrite (obj_of_members_well_ordered _ Hw).
Qed.

(** Parsing the text that [JSON.stringify] prints for a canonical
    document returns the document. *)
Lemma JSON_parse_stringify (v : jvalue) :
  canonical v = true -> JSON_parse (JSON_stringify v) = Some v.
Proof.
  intros Hc. unfold JSON_parse, JSON_stringify.
  destruct (stringify_head 0 v EmptyString) as (c & r & Hhead & Hstart).
  rewrite app_empty_r in Hhead.
  rewrite Hhead at 2. rewrite (skip_ws_value_start _ _ Hstart), <- Hhead.
  rewrite <- (app_empty_r (stringify_at 0 v)) at 2.
  rewrite (roundtrips_all v 0 EmptyString _ Hc eq_refl) by lia.
  reflexivity.
Qed.

(** ** [JSON.parse] builds canonical documents *)

Lemma parse_unsigned_safe (s : string) (n : N) (r : string) :
  parse_unsigned s = Some (n, r) -> (n <= MAX_SAFE_INTEGER)%N.
Proof.
  unfold parse_unsigned. destruct s as [|c s']; [discriminate |].
  destruct (is_digit c); [| discriminate].
  destruct (if (code c =? 48)%N then _ else _) as [m rest].
  destruct (starts_fraction rest); [discriminate |].
  destruct (m <=? MAX_SAFE_INTEGER)%N eqn:E; [| discriminate].
  intros [= <- _]. now apply N.leb_le.
Qed.

Lemma parse_number_safe (s : string) (z : Z) (r : string) :
  parse_number s = Some (z, r) -> (Z.abs_N z <=? MAX_SAFE_INTEGER)%N = true.
Proof.
  unfold parse_number. destruct s as [|c s']; [discriminate |].
  destruct (code c =? 45)%N.
  - destruct (parse_unsigned s') as [[n rest]|] eqn:E; [| discriminate].
    intros [= <- _]. apply parse_unsigned_safe in E. apply N.leb_le. lia.
  - destruct (parse_unsigned (String c s')) as [[n rest]|] eqn:E; [| discriminate].
    intros [= <- _]. apply parse_unsigned_safe in E. apply N.leb_le. lia.
Qed.

Lemma parse_literal_canonical (s : string) (v : jvalue) (r : string) :
  parse_literal s = Some (v, r) -> canonical v = true.
Proof.
  unfold parse_literal.
  destruct (strip_prefix "null" s); [now intros [= <- _] |].
  destruct (strip_prefix "true" s); [now intros [= <- _] |].
  destruct (strip_prefix "false" s); [now intros [= <- _] |].
  destruct (parse_number s) as [[n rest]|] eqn:E; [| discriminate].
  intros [= <- _]. simpl. eapply parse_number_safe, E.
Qed.

Lemma parse_canonical (fuel : nat) :
  (forall s v r, parse_value fuel s = Some (v, r) -> canonical v = true) /\
  (forall s vs r, parse_elements fuel s = Some (vs, r) -> forallb canonical vs = true) /\
  (forall s ms r, parse_members fuel s = Some (ms, r) ->
     forallb (fun kv => canonical (snd kv)) ms = true).
Proof.
  induction fuel as [|fuel (IHv & IHe & IHm)]; [repeat split; discriminate |].
  repeat split.
  - intros s v r H. cbn [parse_value] in H.
    destruct s as [|c s']; [discriminate |].
    destruct (code c =? 34)%N.
    { destruct (parse_string_body s') as [[t rest]|]; [| discriminate].
      now injection H as <- _. }
    destruct (code c =? 91)%N.
    { destruct (skip_ws s') as [|c' r']; [discriminate |].
      destruct (code c' =? 93)%N; [now injection H as <- _ |].
      destruct (parse_elements fuel (String c' r')) as [[vs rest]|] eqn:E; [| discriminate].
      injection H as <- _. simpl. eapply IHe, E. }
    destruct (code c =? 123)%N.
    { destruct (skip_ws s') as [|c' r']; [discriminate |].
      destruct (code c' =? 125)%N; [now injection H as <- _ |].
      destruct (parse_members fuel (String c' r')) as [[ms rest]|] eqn:E; [| discriminate].
      injection H as <- _. cbn [canonical].
      rewrite obj_of_members_ordered. simpl.
      apply obj_of_members_values. eapply IHm, E. }
    eapply parse_literal_canonical, H.
  - intros s vs r H. cbn [parse_elements] in H.
    destruct (parse_value fuel s) as [[v r1]|] eqn:E; [| discriminate].
    apply IHv in E.
    destruct (skip_ws r1) as [|c r']; [discriminate |].
    destruct (code c =? 44)%N.
    { destruct (parse_elements fuel (skip_ws r')) as [[vs' rest]|] eqn:E'; [| discriminate].
      injection H as <- _. simpl. rewrite E. simpl. eapply IHe, E'. }
    destruct (code c =? 93)%N; [| discriminate].
    injection H as <- _. simpl. now rewrite E.
  - intros s ms r H. cbn [parse_members] in H.
    destruct s as [|q s']; [discriminate |].
    destruct (code q =? 34)%N; [| discriminate].
    destruct (parse_string_body s') as [[k r1]|]; [| discriminate].
    destruct (skip_ws r1) as [|c1 r2]; [discriminate |].
    destruct (code c1 =? 58)%N; [| discriminate].
    destruct (parse_value fuel (skip_ws r2)) as [[v r3]|] eqn:E; [| discriminate].
    apply IHv in E.
    destruct (skip_ws r3) as [|c3 r4]; [discriminate |].
    destruct (code c3 =? 44)%N.
    { destruct (parse_members fuel (skip_ws r4)) as [[ms' rest]|] eqn:E'; [| discriminate].
      injection H as <- _. simpl. rewrite E. simpl. eapply IHm, E'. }
    destruct (code c3 =? 125)%N; [| discriminate].
    injection H as <- _. simpl. now rewrite E.
Qed.

Lemma JSON_parse_canonical (text : string) (v : jvalue) :
  JSON_parse text = Some v -> canonical v = true.
Proof.
  unfold JSON_parse.
  destruct (parse_value _ (skip_ws text)) as [[v' rest]|] eqn:E; [| discriminate].
  destruct (skip_ws rest); [| discriminate].
  intros [= <-]. eapply (proj1 (parse_canonical _)), E.
Qed.

(** Printing a parsed document and parsing the text gives the document
    again. *)
Lemma JSON_reparse (text : string) (v : jvalue) :
  JSON_parse text = Some v -> JSON_parse (JSON_stringify v) = Some v.
Proof. intros H. eapply JSON_parse_stringify, JSON_parse_canonical, H. Qed.

(** ** Normalisation *)

Lemma prop_truthy (parsed : jvalue) (k : string) :
  truthy (Some parsed) = true -> prop (Some parsed) k = Ok (member parsed k).
Proof. destruct parsed; try discriminate; reflexivity. Qed.

Lemma recognized_truthy (parsed : jvalue) :
  truthy (Some parsed) = true -> recognized parsed = Ok (recognized_fields parsed).
Proof.
  intros H. unfold recognized, recognized_fields.
  now rewrite !(prop_truthy _ _ H).
Qed.

(** What the block computes from a text that parses. *)
Lemma normalize_parsed (text : string) (parsed : jvalue) :
  JSON_parse text = Some parsed ->
  normalize (JStr text)
  = if truthy (Some parsed) && negb (recognized_fields parsed)
       && truthy (member parsed "raw")
    then match member parsed "raw" with
         | Some raw => raw
         | None => JStr (JSON_stringify parsed)
         end
    else JStr (JSON_stringify parsed).
Proof.
  intros H. unfold normalize. rewrite H.
  destruct (truthy (Some parsed)) eqn:T; [| reflexivity].
  rewrite (recognized_truthy _ T), (prop_truthy _ _ T).
  destruct (recognized_fields parsed); [reflexivity |].
  destruct (member parsed "raw") as [raw|]; [| reflexivity].
  simpl. now destruct (truthy (Some raw)).
Qed.

Lemma normalize_unparsed (text : string) :
  JSON_parse text = None -> normalize (JStr text) = JStr text.
Proof. intros H. unfold normalize. now rewrite H. Qed.

Lemma plain_text_not_json (text : string) :
  plain_text text = true -> JSON_parse text = None.
Proof.
  unfold plain_text, JSON_parse, startsWith.
  destruct (2 * String.length text + 2) as [|fuel] eqn:E; [lia |]. clear E.
  destruct (skip_ws text) as [|c r]; [reflexivity |].
  intros H. apply andb_true_iff in H as [H Hnull]. apply andb_true_iff in H as [H Hfalse].
  apply andb_true_iff in H as [H Htrue]. apply negb_true_iff in H.
  apply orb_false_iff in H as [H Hdigit]. apply orb_false_iff in H as [H Hminus].
  apply orb_false_iff in H as [H Hquote]. apply orb_false_iff in H as [Hbrace Hbracket].
  cbn [parse_value]. rewrite Hquote, Hbracket, Hbrace. unfold parse_literal.
  destruct (strip_prefix "null" (String c r)); [discriminate |].
  destruct (strip_prefix "true" (String c r)); [discriminate |].
  destruct (strip_prefix "false" (String c r)); [discriminate |].
  unfold parse_number, parse_unsigned. now rewrite Hminus, Hdigit.
Qed.



Example normalize_wrapped_text :
  unwraps_raw wrapped_text = true /\
  normalize (JStr wrapped_text) = JStr "The selector changed." /\
  normalize (normalize (JStr wrapped_text)) = normalize (JStr wrapped_text).
Proof. vm_compute. auto. Qed.

Example wrapped_array_parses :
  JSON_parse wrapped_array = Some (JObj [("raw", JStr "[1,2]")]).
Proof. vm_compute. reflexivity. Qed.

Example normalize_wrapped_array : normalize (JStr wrapped_array) = JStr "[1,2]".
Proof. vm_compute. reflexivity. Qed.

Example normalize_unwrapped_array :
  normalize (JStr "[1,2]")
  = JStr ("[" +:+ newline +:+ "  1," +:+ newline +:+ "  2" +:+ newline +:+ "]").
Proof. vm_compute. reflexivity. Qed.


(** ** The record written back *)

Lemma canonical_attachment (name : string) : canonical (attachment name) = true.
Proof. reflexivity. Qed.

Lemma canonical_lookup (k : string) (ms : list (string * jvalue)) (v : jvalue) :
  forallb (fun kv => canonical (snd kv)) ms = true ->
  obj_lookup k ms = Some v -> canonical v = true.
Proof.
  induction ms as [|[k' v'] ms IH]; simpl; [discriminate |].
  intros H. apply andb_true_iff in H as [H1 H2].
  destruct (String.eqb k' k); [now intros [= <-] | now apply IH].
Qed.

Lemma canonical_attachments_of (j : jvalue) :
  canonical j = true -> forallb canonical (attachments_of j) = true.
Proof.
  destruct j as [| b | n | s | l | ms]; try reflexivity.
  cbn [canonical attachments_of]. intros H. apply andb_true_iff in H as [_ H].
  destruct (obj_lookup "attachments" ms) as [v|] eqn:E; [| reflexivity].
  apply (canonical_lookup _ _ _ H) in E. now destruct v.
Qed.

Lemma canonical_set (k : string) (v : jvalue) (ms : list (string * jvalue)) :
  canonical (JObj ms) = true -> canonical v = true ->
  canonical (JObj (obj_set k v ms)) = true.
Proof.
  cbn [canonical]. intros H Hv. apply andb_true_iff in H as [Hw Hc].
  now rewrite obj_set_well_ordered, (obj_set_values canonical).
Qed.

(** What [JSON.parse] makes of the members of a text. *)
Lemma members_as_written_parse (text : string) (src : list (string * jvalue)) :
  members_as_written text = Some src ->
  JSON_parse text = Some (JObj (obj_of_members src)).
Proof.
  unfold members_as_written, JSON_parse.
  destruct (2 * String.length text + 2) as [|fuel] eqn:E; [lia |]. cbn [Nat.pred].
  destruct (skip_ws text) as [|c r]; [discriminate |].
  destruct (code c =? 123)%N eqn:Ec; [| discriminate].
  apply N.eqb_eq in Ec. cbn [parse_value]. rewrite Ec. cbn [N.eqb Pos.eqb].
  destruct (skip_ws r) as [|c' r']; [discriminate |].
  destruct (code c' =? 125)%N.
  - destruct (skip_ws r'); [now intros [= <-] | discriminate].
  - destruct (parse_members fuel (String c' r')) as [[ms rest]|]; [| discriminate].
    destruct (skip_ws rest); [now intros [= <-] | discriminate].
Qed.

(** C8, as the code has it.  The document written back is the record
    as [JSON.parse] built it, with one change: the [attachments] member
    holds the previous sequence followed by the new attachment.  Every
    other member of the parsed record, known to the script or not, is
    there with its value and in its place, and [attachments] keeps its
    place or comes last when the record had none.  Relative to the text
    of the file the members are those that property order leaves: keys
    that are array indices come first in ascending order, and of members
    with the same key the last value stays at the first position.  When
    the text lists distinct keys with the index keys first and ascending,
    the members written are those of the text, in the order of the text.
    Reading the file again gives the document written. *)
Theorem persist_preserves_fields (f : test) (name text : string)
    (src : list (string * jvalue)) (w : world) (j1 : jvalue) :
  members_as_written text = Some src ->
  JSON_parse text = Some (json f) ->
  attach_entry (json f) name = Ok (j1, true) ->
  exists ms1,
    json f = JObj (obj_of_members src) /\ j1 = JObj ms1 /\
    filter (fun kv => fst kv <> "attachments") ms1
      = filter (fun kv => fst kv <> "attachments") (obj_of_members src) /\
    map fst ms1 = (if has_key "attachments" (obj_of_members src)
                   then map fst (obj_of_members src)
                   else map fst (obj_of_members src) ++ ["attachments"]) /\
    (forall k, k <> "attachments" ->
       obj_lookup k ms1 = obj_lookup k (obj_of_members src)) /\
    attachments_of j1 = attachments_of (json f) ++ [attachment name] /\
    (well_ordered src = true ->
     filter (fun kv => fst kv <> "attachments") ms1
       = filter (fun kv => fst kv <> "attachments") src /\
     map fst ms1 = (if has_key "attachments" src then map fst src
                    else map fst src ++ ["attachments"])) /\
    (accepts w (file f) ->
     attach f name w
     = (Test (file f) j1,
        World (<[file f := File (JSON_stringify j1)]> (files w))
              (written w ++ [(file f, JSON_stringify j1)]) (refused w))) /\
    JSON_parse (JSON_stringify j1) = Some j1.
Proof.
  intros Hsrc Hparse E.
  pose proof (JSON_parse_canonical _ _ Hparse) as Hc.
  rewrite (members_as_written_parse _ _ Hsrc) in Hparse. injection Hparse as Hj.
  pose proof E as E'.
  apply attach_entry_Ok in E'
    as (ms & items & found & Hms & Hw & Hfind & [(_ & [=] & _) | (-> & _ & ->)]).
  assert (ms = obj_of_members src) as -> by congruence.
  apply working_array in Hw as [Hitems _].
  exists (obj_set "attachments" (JArr (items ++ [attachment name])) (obj_of_members src)).
  split; [now symmetry |]. split; [reflexivity |].
  split; [apply obj_set_attachments_others |].
  split; [apply obj_set_attachments_keys |].
  split; [intros k Hk; now apply obj_set_attachments_lookup_ne |].
  split; [now rewrite Hms, attachments_of_set, Hitems |].
  split; [| split].
  - intros Hwo. rewrite (obj_of_members_well_ordered _ Hwo).
    split; [apply obj_set_attachments_others | apply obj_set_attachments_keys].
  - intros Ha. unfold attach. rewrite E. now rewrite writeFileSync_file.
  - apply JSON_parse_stringify, canonical_set; [now rewrite <- Hms |].
    cbn [canonical]. rewrite forallb_app, <- Hitems, <- Hms, (canonical_attachments_of _ Hc).
    reflexivity.
Qed.

Lemma persist_preserves_fields_witness :
  exists ms1,
    json fake_test = JObj (obj_of_members fake_members) /\
    JObj (obj_set "attachments" (JArr [attachment (analysisFileName fake_test)]) fake_members)
      = JObj ms1 /\
    filter (fun kv => fst kv <> "attachments") ms1
      = filter (fun kv => fst kv <> "attachments") (obj_of_members fake_members) /\
    map fst ms1 = (if has_key "attachments" (obj_of_members fake_members)
                   then map fst (obj_of_members fake_members)
                   else map fst (obj_of_members fake_members) ++ ["attachments"]) /\
    (forall k, k <> "attachments" ->
       obj_lookup k ms1 = obj_lookup k (obj_of_members fake_members)) /\
    attachments_of
      (JObj (obj_set "attachments" (JArr [attachment (analysisFileName fake_test)]) fake_members))
      = attachments_of (json fake_test) ++ [attachment (analysisFileName fake_test)] /\
    (well_ordered fake_members = true ->
     filter (fun kv => fst kv <> "attachments") ms1
       = filter (fun kv => fst kv <> "attachments") fake_members /\
     map fst ms1 = (if has_key "attachments" fake_members then map fst fake_members
                    else map fst fake_members ++ ["attachments"])) /\
    (accepts fake_world (file fake_test) ->
     attach fake_test (analysisFileName fake_test) fake_world
     = (Test (file fake_test)
          (JObj (obj_set "attachments" (JArr [attachment (analysisFileName fake_test)]) fake_members)),
        World (<[file fake_test :=
                   File (JSON_stringify
                     (JObj (obj_set "attachments"
                              (JArr [attachment (analysisFileName fake_test)]) fake_members)))]>
                 (files fake_world))
              (written fake_world
               ++ [(file fake_test,
                    JSON_stringify
                      (JObj (obj_set "attachments"
                               (JArr [attachment (analysisFileName fake_test)]) fake_members)))])
              (refused fake_world))) /\
    JSON_parse
      (JSON_stringify
         (JObj (obj_set "attachments"
                  (JArr [attachment (analysisFileName fake_test)]) fake_members)))
    = Some (JObj (obj_set "attachments"
                    (JArr [attachment (analysisFileName fake_test)]) fake_members)).
Proof.
  apply (persist_preserves_fields fake_test (analysisFileName fake_test)
           (JSON_stringify fake_failed_1) fake_members fake_world).
  - vm_compute. reflexivity.
  - vm_compute. reflexivity.
  - vm_compute. reflexivity.
Defined.

(** C8, as the claim states it, fails: the file lists [status] before
    [7] and gives [name] twice; the run writes it back with [7] first
    and with one [name], the last. *)
Lemma persist_reorders_fields :
  members_as_written reordered_text
  = Some [ ("status", JStr "failed"); ("name", JStr "first"); ("7", JStr "seven");
           ("name", JStr "second") ] /\
  files reordered_world !! reordered_file = Some (File reordered_text) /\
  exists document,
    files (snd (run default_options no_environment offline reordered_world)) !! reordered_file
    = Some (File document) /\
    members_as_written document
    = Some [ ("7", JStr "seven"); ("status", JStr "failed"); ("name", JStr "second");
             ("attachments", JArr [attachment "r-result.json-llm-analysis.txt"]) ].
Proof.
  split; [vm_compute; reflexivity |]. split; [vm_compute; reflexivity |].
  eexists. split; [vm_compute; reflexivity |]. vm_compute. reflexivity.
Qed.

Example unknown_members_kept :
  attach_entry (JObj unknown_members) "r.json-llm-analysis.txt"
  = Ok (JObj [ ("7", JStr "seven"); ("status", JStr "failed");
               ("x-vendor", JObj [("k", JNum 1)]);
               ("attachments",
                JArr [ JObj [("name", JStr "Screenshot"); ("source", JStr "shot.png");
                             ("type", JStr "image/png")];
                       attachment "r.json-llm-analysis.txt" ]);
               ("zzz", JNull) ],
        true).
Proof. reflexivity. Qed.

(** ** The fuel of [JSON_parse] never runs out *)

Lemma skip_ws_length (s : string) : String.length (skip_ws s) <= String.length s.
Proof.
  induction s as [|c s IH]; simpl; [lia |].
  destruct (is_ws c); simpl; lia.
Qed.

Lemma cons_result_Some (c : ascii) (o : option (string * string)) (t r : string) :
  cons_result c o = Some (t, r) -> exists t', o = Some (t', r).
Proof. destruct o as [[t' r']|]; simpl; [intros [= _ <-]; eauto | discriminate]. Qed.

Lemma parse_string_body_length (s t r : string) :
  parse_string_body s = Some (t, r) -> String.length r < String.length s.
Proof.
  remember (String.length s) as n eqn:Hn. revert s t r Hn.
  induction n as [n IH] using lt_wf_ind. intros s t r Hn H.
  destruct s as [|c s1]; [discriminate |]. simpl in Hn. cbn [parse_string_body] in H.
  destruct (code c =? 34)%N; [injection H as _ <-; lia |].
  destruct (code c =? 92)%N.
  - destruct s1 as [|e s2]; [discriminate |]. simpl in Hn.
    destruct (code e =? 117)%N.
    + destruct s2 as [|h1 [|h2 [|h3 [|h4 s6]]]]; try discriminate. simpl in Hn.
      destruct (hex4 h1 h2 h3 h4); [| discriminate].
      apply cons_result_Some in H as [t' H].
      apply (IH (String.length s6)) in H; [lia | lia | reflexivity].
    + destruct (unescape e); [| discriminate].
      apply cons_result_Some in H as [t' H].
      apply (IH (String.length s2)) in H; [lia | lia | reflexivity].
  - destruct (code c <? 32)%N; [discriminate |].
    apply cons_result_Some in H as [t' H].
    apply (IH (String.length s1)) in H; [lia | lia | reflexivity].
Qed.

Lemma strip_prefix_length (p s r : string) :
  strip_prefix p s = Some r -> String.length s = String.length p + String.length r.
Proof.
  intros H. apply strip_prefix_Some in H. subst s. apply length_app_s.
Qed.

Lemma read_digits_length (s : string) (acc n : N) (r : string) :
  read_digits s acc = (n, r) -> String.length r <= String.length s.
Proof.
  revert acc; induction s as [|c s IH]; intros acc; simpl.
  - intros [= _ <-]. simpl. lia.
  - destruct (is_digit c); [intros H; apply IH in H; lia | intros [= _ <-]; simpl; lia].
Qed.

Lemma parse_unsigned_length (s : string) (n : N) (r : string) :
  parse_unsigned s = Some (n, r) -> String.length r < String.length s.
Proof.
  unfold parse_unsigned. destruct s as [|c s1]; [discriminate |].
  destruct (is_digit c) eqn:Hd; [| discriminate].
  destruct (code c =? 48)%N.
  - destruct (starts_fraction s1); [discriminate |].
    destruct (0 <=? MAX_SAFE_INTEGER)%N; [| discriminate].
    intros [= _ <-]. simpl. lia.
  - destruct (read_digits (String c s1) 0) as [m rest] eqn:E.
    destruct (starts_fraction rest); [discriminate |].
    destruct (m <=? MAX_SAFE_INTEGER)%N; [| discriminate].
    intros [= _ <-]. simpl in E. rewrite Hd in E.
    apply read_digits_length in E. simpl. lia.
Qed.

Lemma parse_literal_length (s : string) (v : jvalue) (r : string) :
  parse_literal s = Some (v, r) -> String.length r < String.length s.
Proof.
  unfold parse_literal.
  destruct (strip_prefix "null" s) eqn:E1;
    [intros [= _ <-]; apply strip_prefix_length in E1; simpl in E1; lia |].
  destruct (strip_prefix "true" s) eqn:E2;
    [intros [= _ <-]; apply strip_prefix_length in E2; simpl in E2; lia |].
  destruct (strip_prefix "false" s) eqn:E3;
    [intros [= _ <-]; apply strip_prefix_length in E3; simpl in E3; lia |].
  unfold parse_number. destruct s as [|c s1]; [discriminate |].
  destruct (code c =? 45)%N.
  - destruct (parse_unsigned s1) as [[n rest]|] eqn:E; [| discriminate].
    intros [= _ <-]. apply parse_unsigned_length in E. simpl. lia.
  - destruct (parse_unsigned (String c s1)) as [[n rest]|] eqn:E; [| discriminate].
    intros [= _ <-]. now apply parse_unsigned_length in E.
Qed.

(** Every parser consumes at least one character. *)
Lemma parse_length (fuel : nat) :
  (forall s v r, parse_value fuel s = Some (v, r) -> String.length r < String.length s) /\
  (forall s vs r, parse_elements fuel s = Some (vs, r) -> String.length r < String.length s) /\
  (forall s ms r, parse_members fuel s = Some (ms, r) -> String.length r < String.length s).
Proof.
  induction fuel as [|fuel (IHv & IHe & IHm)]; [repeat split; discriminate |].
  repeat split.
  - intros s v r H. cbn [parse_value] in H.
    destruct s as [|c s1]; [discriminate |].
    destruct (code c =? 34)%N.
    { destruct (parse_string_body s1) as [[t rest]|] eqn:E; [| discriminate].
      injection H as _ <-. apply parse_string_body_length in E. simpl. lia. }
    destruct (code c =? 91)%N.
    { pose proof (skip_ws_length s1) as Hs.
      destruct (skip_ws s1) as [|c' r']; [discriminate |].
      destruct (code c' =? 93)%N; [injection H as _ <-; simpl in *; lia |].
      destruct (parse_elements fuel (String c' r')) as [[vs rest]|] eqn:E; [| discriminate].
      injection H as _ <-. apply IHe in E. simpl in *. lia. }
    destruct (code c =? 123)%N.
    { pose proof (skip_ws_length s1) as Hs.
      destruct (skip_ws s1) as [|c' r']; [discriminate |].
      destruct (code c' =? 125)%N; [injection H as _ <-; simpl in *; lia |].
      destruct (parse_members fuel (String c' r')) as [[ms rest]|] eqn:E; [| discriminate].
      injection H as _ <-. apply IHm in E. simpl in *. lia. }
    eapply parse_literal_length, H.
  - intros s vs r H. cbn [parse_elements] in H.
    destruct (parse_value fuel s) as [[v r1]|] eqn:E; [| discriminate].
    apply IHv in E. pose proof (skip_ws_length r1) as Hs.
    destruct (skip_ws r1) as [|c r']; [discriminate |].
    destruct (code c =? 44)%N.
    { pose proof (skip_ws_length r') as Hs'.
      destruct (parse_elements fuel (skip_ws r')) as [[vs' rest]|] eqn:E'; [| discriminate].
      injection H as _ <-. apply IHe in E'. simpl in *. lia. }
    destruct (code c =? 93)%N; [| discriminate].
    injection H as _ <-. simpl in *. lia.
  - intros s ms r H. cbn [parse_members] in H.
    destruct s as [|q s1]; [discriminate |].
    destruct (code q =? 34)%N; [| discriminate].
    destruct (parse_string_body s1) as [[k r1]|] eqn:Ek; [| discriminate].
    apply parse_string_body_length in Ek. pose proof (skip_ws_length r1) as Hs1.
    destruct (skip_ws r1) as [|c1 r2]; [discriminate |].
    destruct (code c1 =? 58)%N; [| discriminate].
    pose proof (skip_ws_length r2) as Hs2.
    destruct (parse_value fuel (skip_ws r2)) as [[v r3]|] eqn:E; [| discriminate].
    apply IHv in E. pose proof (skip_ws_length r3) as Hs3.
    destruct (skip_ws r3) as [|c3 r4]; [discriminate |].
    destruct (code c3 =? 44)%N.
    { pose proof (skip_ws_length r4) as Hs4.
      destruct (parse_members fuel (skip_ws r4)) as [[ms' rest]|] eqn:E'; [| discriminate].
      injection H as _ <-. apply IHm in E'. simpl in *. lia. }
    destruct (code c3 =? 125)%N; [| discriminate].
    injection H as _ <-. simpl in *. lia.
Qed.

Lemma parse_fuel_step (fuel : nat) :
  forall next, next = S fuel ->
  (forall s, 2 * String.length s + 1 <= fuel -> parse_value fuel s = parse_value next s) /\
  (forall s, 2 * String.length s + 2 <= fuel ->
     parse_elements fuel s = parse_elements next s) /\
  (forall s, 2 * String.length s + 2 <= fuel ->
     parse_members fuel s = parse_members next s).
Proof.
  induction fuel as [|fuel IH]; intros next Hnext; [repeat split; intros s H; lia |].
  destruct next as [|next]; [discriminate |]. injection Hnext as Hnext.
  destruct (IH next Hnext) as (IHv & IHe & IHm).
  destruct (parse_length fuel) as (Lv & _ & _).
  repeat split.
  - intros s H. cbn [parse_value].
    destruct s as [|c s1]; [reflexivity |]. simpl in H.
    destruct (code c =? 34)%N; [reflexivity |].
    pose proof (skip_ws_length s1) as Hs.
    destruct (code c =? 91)%N.
    { destruct (skip_ws s1) as [|c' r']; [reflexivity |].
      destruct (code c' =? 93)%N; [reflexivity |].
      rewrite <- IHe by (simpl in *; lia). reflexivity. }
    destruct (code c =? 123)%N; [| reflexivity].
    destruct (skip_ws s1) as [|c' r']; [reflexivity |].
    destruct (code c' =? 125)%N; [reflexivity |].
    rewrite <- IHm by (simpl in *; lia). reflexivity.
  - intros s H. cbn [parse_elements].
    rewrite <- IHv by lia.
    destruct (parse_value fuel s) as [[v r1]|] eqn:E; [| reflexivity].
    apply Lv in E. pose proof (skip_ws_length r1) as Hs.
    destruct (skip_ws r1) as [|c r']; [reflexivity |].
    destruct (code c =? 44)%N; [| reflexivity].
    pose proof (skip_ws_length r') as Hs'.
    rewrite <- IHe by (simpl in *; lia). reflexivity.
  - intros s H. cbn [parse_members].
    destruct s as [|q s1]; [reflexivity |]. simpl in H.
    destruct (code q =? 34)%N; [| reflexivity].
    destruct (parse_string_body s1) as [[k r1]|] eqn:Ek; [| reflexivity].
    apply parse_string_body_length in Ek. pose proof (skip_ws_length r1) as Hs1.
    destruct (skip_ws r1) as [|c1 r2]; [reflexivity |].
    destruct (code c1 =? 58)%N; [| reflexivity].
    pose proof (skip_ws_length r2) as Hs2.
    rewrite <- IHv by (simpl in *; lia).
    destruct (parse_value fuel (skip_ws r2)) as [[v r3]|] eqn:E; [| reflexivity].
    apply Lv in E. pose proof (skip_ws_length r3) as Hs3.
    destruct (skip_ws r3) as [|c3 r4]; [reflexivity |].
    destruct (code c3 =? 44)%N; [| reflexivity].
    pose proof (skip_ws_length r4) as Hs4.
    rewrite <- IHm by (simpl in *; lia). reflexivity.
Qed.

(** More fuel than [JSON_parse] takes changes nothing: [None] is a
    syntax error of the text, never an exhausted fuel. *)
Lemma JSON_parse_fuel (text : string) (more : nat) :
  parse_value (2 * String.length text + 2 + more) (skip_ws text)
  = parse_value (2 * String.length text + 2) (skip_ws text).
Proof.
  induction more as [|more IH]; [now rewrite Nat.add_0_r |].
  rewrite <- IH. rewrite Nat.add_succ_r. symmetry.
  apply (proj1 (parse_fuel_step _ _ eq_refl)).
  pose proof (skip_ws_length text). lia.
Qed.

(** ** The command line *)

Lemma split_equals_spec (s k v : string) :
  split_equals s = Some (k, v) <-> s = k +:+ String "=" v /\ no_equals k = true.
Proof.
  unfold no_equals. revert k; induction s as [|c s IH]; intros k; simpl.
  - split; [discriminate |]. intros [H _]. destruct k; discriminate.
  - destruct (code c =? 61)%N eqn:E.
    + split.
      * intros [= <- <-]. apply N.eqb_eq in E.
        assert (c = "="%char) as ->
          by (rewrite <- (ascii_N_embedding c); unfold code in E; now rewrite E).
        auto.
      * intros [H Hk]. destruct k as [|c' k]; simpl in *.
        -- now injection H as _ <-.
        -- injection H as <- _. apply andb_true_iff in Hk as [Hk _].
           rewrite E in Hk. discriminate.
    + split.
      * intros H. destruct (split_equals s) as [[k' v']|]; [| discriminate].
        injection H as <- <-. destruct (proj1 (IH k') eq_refl) as [-> Hk].
        simpl. rewrite E. auto.
      * intros [H Hk]. destruct k as [|c' k]; simpl in *.
        -- injection H as -> _. discriminate.
        -- injection H as <- H. apply andb_true_iff in Hk as [_ Hk].
           rewrite (proj2 (IH k) (conj H Hk)). reflexivity.
Qed.

(** X1. An argument is taken for an option exactly when it reads
    [--key=value] with a key that is not empty and holds no [=], and a
    value without line terminator; the key ends at the first [=], so the
    value may hold further ones. *)
Theorem match_argument_spec (a k v : string) :
  match_argument a = Some (k, v) <->
  a = "--" +:+ k +:+ "=" +:+ v /\ k <> EmptyString /\
  no_equals k = true /\ single_line v = true.
Proof.
  unfold match_argument, single_line. split.
  - destruct (strip_prefix "--" a) as [r|] eqn:Hp; [| discriminate].
    apply strip_prefix_Some in Hp. subst a.
    destruct (split_equals r) as [[k' v']|] eqn:Hs; [| discriminate].
    apply split_equals_spec in Hs as [-> Hk].
    destruct (String.eqb k' EmptyString) eqn:Ek; simpl; [discriminate |].
    destruct (existsb _ _) eqn:Ev; [discriminate |].
    intros [= <- <-]. rewrite Ev. repeat split; try assumption.
    intros ->. discriminate.
  - intros (-> & Hne & Hk & Hv).
    rewrite strip_prefix_app.
    rewrite (proj2 (split_equals_spec (k +:+ "=" +:+ v) k v) (conj eq_refl Hk)).
    apply String.eqb_neq in Hne. rewrite Hne. simpl.
    apply negb_true_iff in Hv. now rewrite Hv.
Qed.

Example match_argument_keeps_later_signs :
  match_argument "--ollama-url=http://localhost:11434/?a=b"
  = Some ("ollama-url", "http://localhost:11434/?a=b").
Proof. reflexivity. Qed.

Lemma obj_lookup_insert_index (n : N) (k k0 : string) (v : jvalue)
    (ms : list (string * jvalue)) :
  has_key k ms = false ->
  obj_lookup k0 (insert_index n k v ms)
  = if String.eqb k k0 then Some v else obj_lookup k0 ms.
Proof.
  unfold has_key. induction ms as [|[k' v'] ms IH]; simpl; [reflexivity |].
  intros H. apply orb_false_iff in H as [Hk H].
  destruct (array_index k') as [n'|]; [destruct (n' <? n)%N |]; simpl; try reflexivity.
  rewrite (IH H). destruct (String.eqb k k0) eqn:E; [| reflexivity].
  apply String.eqb_eq in E. subst k0. now rewrite Hk.
Qed.

(** Reading a member after an assignment. *)
Lemma obj_lookup_obj_set (k k0 : string) (v : jvalue) (ms : list (string * jvalue)) :
  obj_lookup k0 (obj_set k v ms) = if String.eqb k k0 then Some v else obj_lookup k0 ms.
Proof.
  unfold obj_set. destruct (has_key k ms) eqn:H.
  - destruct (String.eqb k k0) eqn:E.
    + apply String.eqb_eq in E. subst k0. now apply replace_member_lookup_eq.
    + apply replace_member_lookup_ne. intros ->. now rewrite String.eqb_refl in E.
  - destruct (array_index k) as [n|]; [now apply obj_lookup_insert_index |].
    rewrite obj_lookup_app. cbn [obj_lookup].
    destruct (String.eqb k k0) eqn:E.
    + apply String.eqb_eq in E. subst k0.
      apply obj_lookup_None in H. now rewrite H.
    + now destruct (obj_lookup k0 ms).
Qed.

Lemma parseArgs_fold (k : string) (args : list string) :
  forall out,
  obj_lookup k
    (fold_left (fun out a =>
                  match match_argument a with
                  | Some (k', v) => assign_argument out k' v
                  | None => out
                  end) args out)
  = if String.eqb k "__proto__" then obj_lookup k out
    else match last (omap (fun a =>
                             match match_argument a with
                             | Some (k', v) => if String.eqb k' k then Some v else None
                             | None => None
                             end) args) with
         | Some v => Some (JStr v)
         | None => obj_lookup k out
         end.
Proof.
  induction args as [|a args IH]; intros out; simpl.
  - now destruct (String.eqb k "__proto__").
  - rewrite IH. destruct (String.eqb k "__proto__") eqn:Ep.
    + destruct (match_argument a) as [[k' v]|]; [| reflexivity].
      unfold assign_argument. destruct (String.eqb k' "__proto__") eqn:E'; [reflexivity |].
      rewrite obj_lookup_obj_set. destruct (String.eqb k' k) eqn:E; [| reflexivity].
      apply String.eqb_eq in E, Ep. subst. now rewrite String.eqb_refl in E'.
    + destruct (match_argument a) as [[k' v]|]; [| reflexivity].
      unfold assign_argument. destruct (String.eqb k' k) eqn:E.
      * apply String.eqb_eq in E. subst k'. rewrite Ep, obj_lookup_obj_set, String.eqb_refl.
        rewrite last_cons. now destruct (last _).
      * destruct (last _); [reflexivity |].
        destruct (String.eqb k' "__proto__"); [reflexivity |].
        now rewrite obj_lookup_obj_set, E.
Qed.

Lemma parseArgs_value (argv : list string) (k : string) :
  obj_lookup k (parseArgs argv)
  = if String.eqb k "__proto__" then None else JStr <$> argument_value k argv.
Proof.
  unfold parseArgs, argument_value. rewrite parseArgs_fold. simpl.
  destruct (String.eqb k "__proto__"); [reflexivity |]. now destruct (last _).
Qed.

(** X2. What the script reads under a key of the parsed command line is
    the value of the last argument [--key=value] with that key, and
    nothing when there is none: arguments of another form are ignored,
    the two leading entries of [process.argv] are skipped, and a later
    occurrence replaces an earlier one.  The key [__proto__] is never
    stored. *)
Theorem parseArgs_lookup (argv : list string) (k : string) :
  obj_lookup k (parseArgs argv)
  = if String.eqb k "__proto__" then None else JStr <$> argument_value k argv.
Proof.
  unfold parseArgs, argument_value. rewrite parseArgs_fold. cbn [obj_lookup].
  destruct (String.eqb k "__proto__"); [reflexivity |].
  destruct (last _) as [v|]; reflexivity.
Qed.

Lemma or_else_text (a : option string) (b : option jvalue) :
  or_else (JStr <$> a) b
  = match nonempty a with Some s => Some (JStr s) | None => b end.
Proof.
  unfold or_else, nonempty. destruct a as [s|]; simpl; [| reflexivity].
  now destruct (String.eqb s EmptyString).
Qed.

Lemma or_else_texts (a b : option string) (c : jvalue) :
  or_else (or_else (JStr <$> a) (JStr <$> b)) (Some c)
  = Some (match first_of a (nonempty b) with Some s => JStr s | None => c end).
Proof.
  unfold or_else, first_of, nonempty.
  destruct a as [s|], b as [t|]; simpl;
    repeat match goal with
           | |- context [String.eqb ?x EmptyString] =>
               destruct (String.eqb x EmptyString) eqn:?; simpl
           end;
    congruence.
Qed.

(** X3. The options that the script builds from its command line: the
    results directory is the value of [--allure-dir], else of
    [--allureDir], else [allure-results]; the model is the value of
    [--model], else [llama2]; the service URL is the value of
    [--ollama-url], else the variable [OLLAMA_URL]; the token limit is
    the text of [--max-tokens], else of [--maxTokens], else the number
    800.  Each time the last occurrence counts, and an empty value counts
    as none. *)
Theorem script_options_of_arguments (argv : list string) (env : environment) :
  script_options (parseArgs argv) env
  = {| so_allureDir :=
         Some (JStr (string_or (argument_value "allure-dir" argv)
                       (string_or (argument_value "allureDir" argv) DEFAULT_ALLURE_DIR)));
       so_model := Some (JStr (string_or (argument_value "model" argv) "llama2"));
       so_ollamaUrl := JStr <$> first_of (argument_value "ollama-url" argv) (OLLAMA_URL env);
       so_maxTokens :=
         Some (match first_of (argument_value "max-tokens" argv)
                              (nonempty (argument_value "maxTokens" argv)) with
               | Some s => JStr s
               | None => JNum 800
               end) |}.
Proof.
  unfold script_options. rewrite !parseArgs_value. simpl.
  rewrite !or_else_texts, !or_else_text. f_equal.
  - unfold string_or, first_of.
    destruct (nonempty (argument_value "allure-dir" argv)); [reflexivity |].
    now destruct (nonempty (argument_value "allureDir" argv)).
  - unfold string_or. now destruct (nonempty (argument_value "model" argv)).
  - unfold first_of.
    now destruct (nonempty (argument_value "ollama-url" argv)), (OLLAMA_URL env).
Qed.

Example script_options_example :
  script_options
    (parseArgs ["node"; "llm-failure-analysis.js"; "--allure-dir=out"; "verbose";
                "--model="; "--allure-dir=results"; "--max-tokens=0"])
    (Environment (Some "http://localhost:11434") None)
  = {| so_allureDir := Some (JStr "results"); so_model := Some (JStr "llama2");
       so_ollamaUrl := Some (JStr "http://localhost:11434");
       so_maxTokens := Some (JStr "0") |}.
Proof. reflexivity. Qed.

(** ** Suffixes *)

Lemma list_ascii_of_string_app (a b : string) :
  list_ascii_of_string (a +:+ b) = list_ascii_of_string a ++ list_ascii_of_string b.
Proof. induction a as [|c a IH]; simpl; [reflexivity | now rewrite IH]. Qed.

Lemma ends_with_list_spec (suffix s : list ascii) :
  ends_with_list suffix s = true <-> exists pre, s = pre ++ suffix.
Proof.
  induction s as [|c s IH]; simpl.
  - destruct (decide (suffix = [])) as [-> | Hne].
    + split; [exists []; reflexivity | reflexivity].
    + split; [discriminate |]. intros [pre H]. symmetry in H.
      apply app_eq_nil in H as [_ H]. contradiction.
  - destruct (decide (suffix = c :: s)) as [-> | Hne].
    + split; [exists []; reflexivity | reflexivity].
    + rewrite IH. split.
      * intros [pre ->]. now exists (c :: pre).
      * intros [[|c' pre] H]; simpl in H; [congruence |].
        injection H as _ ->. eauto.
Qed.

Lemma endsWith_spec (s suffix : string) :
  endsWith s suffix = true <-> exists pre, s = pre +:+ suffix.
Proof.
  unfold endsWith. rewrite ends_with_list_spec. split.
  - intros [pre H]. exists (string_of_list_ascii pre).
    rewrite <- (string_of_list_ascii_of_string s), H.
    rewrite <- (string_of_list_ascii_of_string (_ +:+ suffix)), list_ascii_of_string_app.
    now rewrite list_ascii_of_string_of_list_ascii.
  - intros [pre ->]. exists (list_ascii_of_string pre). apply list_ascii_of_string_app.
Qed.

Lemma endsWith_app (pre suffix : string) : endsWith (pre +:+ suffix) suffix = true.
Proof. apply endsWith_spec. eauto. Qed.

(** Two texts with different last characters. *)
Lemma endsWith_last (s t : string) (a b : ascii) :
  a <> b -> endsWith (s +:+ String a EmptyString) (t +:+ String b EmptyString) = false.
Proof.
  intros Hne. destruct (endsWith _ _) eqn:E; [| reflexivity].
  apply endsWith_spec in E as [pre H].
  apply (f_equal list_ascii_of_string) in H.
  rewrite !list_ascii_of_string_app in H. simpl in H.
  rewrite app_assoc in H. apply app_inj_tail in H as [_ H]. congruence.
Qed.

Lemma substring_prefix (a b : string) :
  String.substring 0 (String.length a) (a +:+ b) = a.
Proof.
  induction a as [|c a IH]; simpl.
  - now destruct b.
  - now rewrite IH.
Qed.

Lemma strip_trailing_slash_app (base : string) :
  strip_trailing_slash (base +:+ "/") = base.
Proof.
  unfold strip_trailing_slash.
  change (String slash EmptyString) with "/". rewrite endsWith_app.
  rewrite length_app_s. simpl.
  replace (String.length base + 1 - 1) with (String.length base) by lia.
  apply substring_prefix.
Qed.

Lemma strip_trailing_slash_none (base : string) :
  endsWith base "/" = false -> strip_trailing_slash base = base.
Proof. unfold strip_trailing_slash. change (String slash EmptyString) with "/". now intros ->. Qed.

(** X4. The request goes to the service URL and the path joined by
    exactly one slash: one trailing slash of the URL is dropped, a path
    without leading slash gets one, and an empty path stands for
    [/api/generate]. *)
Theorem endpoint_url_slashes (base path : string) :
  endsWith base "/" = false -> path <> EmptyString -> startsWith path "/" = false ->
  endpoint_url base path = base +:+ "/" +:+ path /\
  endpoint_url base ("/" +:+ path) = base +:+ "/" +:+ path /\
  endpoint_url (base +:+ "/") path = base +:+ "/" +:+ path /\
  endpoint_url (base +:+ "/") ("/" +:+ path) = base +:+ "/" +:+ path /\
  endpoint_url base EmptyString = base +:+ "/api/generate" /\
  endpoint_url (base +:+ "/") EmptyString = base +:+ "/api/generate".
Proof.
  intros Hb Hp Hs. unfold endpoint_url.
  rewrite strip_trailing_slash_app, (strip_trailing_slash_none _ Hb).
  change (String slash EmptyString) with "/".
  apply String.eqb_neq in Hp. rewrite Hp, Hs.
  repeat split; reflexivity.
Qed.

Lemma endpoint_url_slashes_witness :
  endpoint_url "http://localhost:11434" "api/chat" = "http://localhost:11434/api/chat" /\
  endpoint_url "http://localhost:11434" "/api/chat" = "http://localhost:11434/api/chat" /\
  endpoint_url "http://localhost:11434/" "api/chat" = "http://localhost:11434/api/chat" /\
  endpoint_url "http://localhost:11434/" "/api/chat" = "http://localhost:11434/api/chat" /\
  endpoint_url "http://localhost:11434" "" = "http://localhost:11434/api/generate" /\
  endpoint_url "http://localhost:11434/" "" = "http://localhost:11434/api/generate".
Proof.
  apply (endpoint_url_slashes "http://localhost:11434" "api/chat");
    [reflexivity | discriminate | reflexivity].
Defined.

(** ** The answers of the model *)

Lemma answer_http (tr : transport) (url : option string) (u apiPath model prompt text : string)
    (maxTokens : Z) :
  nonempty url = Some u ->
  answer tr url apiPath model prompt maxTokens = Some text ->
  callOllamaHttp tr u apiPath model prompt maxTokens
  = Ok (match JSON_parse text with
        | Some v => v
        | None => JObj [("raw", JStr text)]
        end).
Proof.
  unfold answer, callOllamaHttp. intros ->.
  destruct (fetch tr _ _) as [m | status statusText body]; [discriminate |].
  destruct (response_ok status); [| discriminate].
  intros [= ->]. now destruct (JSON_parse text).
Qed.

Lemma answer_cli (tr : transport) (url : option string) (apiPath model prompt text : string)
    (maxTokens : Z) :
  nonempty url = None ->
  answer tr url apiPath model prompt maxTokens = Some text ->
  callOllamaCli tr model prompt maxTokens = Ok text.
Proof.
  unfold answer, callOllamaCli. intros ->. cbv zeta.
  destruct (spawn_error _); [discriminate |].
  destruct (decide (spawn_status _ = Some 0%Z)) as [H | H].
  - rewrite bool_decide_eq_true_2 by assumption. now intros [= ->].
  - rewrite bool_decide_eq_false_2 by assumption. discriminate.
Qed.

(** X5. An answer that does not begin like a JSON value is saved as it
    is.  Over HTTP this needs the answer not to be empty: an empty body
    is saved as the JSON text of the wrapper object with an empty [raw]
    member. *)
Theorem plain_answer_verbatim (tr : transport) (url : option string)
    (apiPath model prompt text : string) (maxTokens : Z) :
  answer tr url apiPath model prompt maxTokens = Some text ->
  plain_text text = true ->
  normalize (analysis_of (call_model tr url apiPath model prompt maxTokens))
  = if String.eqb text EmptyString && bool_decide (nonempty url <> None)
    then JStr (JSON_stringify (JObj [("raw", JStr EmptyString)]))
    else JStr text.
Proof.
  intros Ha Hplain. pose proof (plain_text_not_json _ Hplain) as Hp. unfold call_model.
  destruct (nonempty url) as [u|] eqn:Hu.
  - rewrite (answer_http _ _ _ _ _ _ _ _ Hu Ha), Hp.
    rewrite bool_decide_eq_true_2 by discriminate. rewrite andb_true_r.
    cbn [mbind result_bind prop obj_lookup String.eqb Ascii.eqb Bool.eqb truthy
         first_truthy or_else].
    destruct (String.eqb text EmptyString) eqn:E; cbn [negb analysis_of].
    + apply String.eqb_eq in E. subst text. vm_compute. reflexivity.
    + now apply normalize_unparsed.
  - rewrite (answer_cli _ _ _ _ _ _ _ Hu Ha). cbn [mbind result_bind]. rewrite Hp.
    rewrite bool_decide_eq_false_2 by (intros H; now apply H). rewrite andb_false_r.
    now apply normalize_unparsed.
Qed.

Lemma plain_answer_verbatim_witness :
  normalize (analysis_of (call_model (answering "The selector changed.") None
                            "/api/generate" "llama2" "prompt" 800))
  = JStr "The selector changed."
  /\ normalize (analysis_of (call_model (answering "") (Some "http://localhost:11434")
                               "/api/generate" "llama2" "prompt" 800))
     = JStr (JSON_stringify (JObj [("raw", JStr "")])).
Proof.
  split.
  - apply (plain_answer_verbatim (answering "The selector changed.") None
             "/api/generate" "llama2" "prompt" "The selector changed." 800);
      reflexivity.
  - apply (plain_answer_verbatim (answering "") (Some "http://localhost:11434")
             "/api/generate" "llama2" "prompt" "" 800); reflexivity.
Defined.

Lemma prop_member (v : jvalue) (k : string) :
  v <> JNull -> prop (Some v) k = Ok (member v k).
Proof. destruct v; try reflexivity. congruence. Qed.

Lemma normalize_whole (text : string) (v : jvalue) :
  JSON_parse text = Some v -> truthy (member v "raw") = false ->
  normalize (JStr (JSON_stringify v)) = JStr (JSON_stringify v).
Proof.
  intros Hp Hr. rewrite (normalize_parsed _ _ (JSON_reparse _ _ Hp)), Hr.
  now rewrite andb_false_r.
Qed.

(** X6. A JSON answer without truthy [output], [text] and [raw] members
    is saved whole, as the two-space print of the parsed answer; over
    HTTP the answer is taken not to be [null] or a JSON string. *)
Theorem json_answer_saved_whole (tr : transport) (url : option string)
    (apiPath model prompt text : string) (maxTokens : Z) (v : jvalue) :
  answer tr url apiPath model prompt maxTokens = Some text ->
  JSON_parse text = Some v ->
  truthy (member v "output") = false -> truthy (member v "text") = false ->
  truthy (member v "raw") = false ->
  (nonempty url <> None -> v <> JNull /\ forall s, v <> JStr s) ->
  normalize (analysis_of (call_model tr url apiPath model prompt maxTokens))
  = JStr (JSON_stringify v).
Proof.
  intros Ha Hp Ho Ht Hr Hv. unfold call_model.
  destruct (nonempty url) as [u|] eqn:Hu.
  - destruct Hv as [Hnull Hstr]; [discriminate |].
    rewrite (answer_http _ _ _ _ _ _ _ _ Hu Ha), Hp. cbn [mbind result_bind].
    rewrite !(prop_member _ _ Hnull). cbn [mbind result_bind].
    assert (E : first_truthy (member v "text") (member v "raw") (JStr (JSON_stringify v))
                = JStr (JSON_stringify v)).
    { unfold first_truthy, or_else. rewrite Ht.
      destruct (member v "raw") as [raw|]; [now rewrite Hr | reflexivity]. }
    rewrite Ho, E.
    destruct v as [| b | n | s | l | ms];
      [ congruence | | | exfalso; exact (Hstr s eq_refl) | | ];
      (destruct (member _ "output") as [[]|]; try discriminate;
       cbn [analysis_of]; eapply normalize_whole; eassumption).
  - rewrite (answer_cli _ _ _ _ _ _ _ Hu Ha). cbn [mbind result_bind]. rewrite Hp.
    cbn [analysis_of]. eapply normalize_whole; eassumption.
Qed.

Lemma json_answer_saved_whole_witness :
  normalize (analysis_of (call_model (answering ollama_response)
                            (Some "http://localhost:11434") "/api/generate" "llama2"
                            "prompt" 800))
  = JStr ollama_response.
Proof.
  apply (json_answer_saved_whole (answering ollama_response)
           (Some "http://localhost:11434") "/api/generate" "llama2" "prompt"
           ollama_response 800
           (JObj [("model", JStr "llama2"); ("response", JStr "The selector changed.");
                  ("done", JBool true)]));
    try reflexivity.
  intros _. split; [discriminate | intros s; discriminate].
Defined.

(** X7. An answer that is the JSON [null] is recorded as a failed call
    over HTTP, where reading a member of the answer throws inside the
    guarded block, and is saved as the text [null] from the command
    line. *)
Theorem null_answer (tr : transport) (url : option string)
    (apiPath model prompt text : string) (maxTokens : Z) :
  answer tr url apiPath model prompt maxTokens = Some text ->
  JSON_parse text = Some JNull ->
  normalize (analysis_of (call_model tr url apiPath model prompt maxTokens))
  = if bool_decide (nonempty url <> None)
    then JStr "LLM call failed: Cannot read properties of null (reading 'output')"
    else JStr "null".
Proof.
  intros Ha Hp. unfold call_model.
  destruct (nonempty url) as [u|] eqn:Hu.
  - rewrite (answer_http _ _ _ _ _ _ _ _ Hu Ha), Hp.
    rewrite bool_decide_eq_true_2 by discriminate.
    cbn [mbind result_bind prop analysis_of]. apply normalize_failure_text.
  - rewrite (answer_cli _ _ _ _ _ _ _ Hu Ha). cbn [mbind result_bind]. rewrite Hp.
    rewrite bool_decide_eq_false_2 by (intros H; now apply H). reflexivity.
Qed.

Lemma null_answer_witness :
  normalize (analysis_of (call_model (answering " null ") (Some "http://localhost:11434")
                            "/api/generate" "llama2" "prompt" 800))
  = JStr "LLM call failed: Cannot read properties of null (reading 'output')"
  /\ normalize (analysis_of (call_model (answering " null ") None
                               "/api/generate" "llama2" "prompt" 800))
     = JStr "null".
Proof.
  split.
  - apply (null_answer (answering " null ") (Some "http://localhost:11434")
             "/api/generate" "llama2" "prompt" " null " 800); reflexivity.
  - apply (null_answer (answering " null ") None
             "/api/generate" "llama2" "prompt" " null " 800); reflexivity.
Defined.

(** ** The transport that a run consults *)

Lemma call_model_ext (tr tr' : transport) (url : option string)
    (apiPath model prompt : string) (maxTokens : Z) :
  match nonempty url with
  | Some u =>
      fetch tr (endpoint_url u apiPath) (request_body model prompt maxTokens)
      = fetch tr' (endpoint_url u apiPath) (request_body model prompt maxTokens)
  | None =>
      spawnSync tr "ollama" (cli_arguments model maxTokens) prompt
      = spawnSync tr' "ollama" (cli_arguments model maxTokens) prompt
  end ->
  call_model tr url apiPath model prompt maxTokens
  = call_model tr' url apiPath model prompt maxTokens.
Proof.
  unfold call_model, callOllamaHttp, callOllamaCli.
  destruct (nonempty url); now intros ->.
Qed.

Lemma for_each_ext (body body' : test -> world -> result unit * world)
    (failures : list test) :
  (forall f w, body f w = body' f w) ->
  forall w, for_each body failures w = for_each body' failures w.
Proof.
  intros H. induction failures as [|f failures IH]; intros w; simpl; [reflexivity |].
  rewrite H. destruct (body' f w) as [[u|e] w1]; [apply IH | reflexivity].
Qed.

(** X8. A run consults one transport only.  With a service URL
    configured (the option, else [OLLAMA_URL], else [OLLAMA_HOST], the
    first that is not empty) it depends on the outside world through the
    answers of [fetch] at the one endpoint; without, through the answers
    of the command [ollama generate <model> --max-tokens <n>].  Two
    worlds that answer alike there give the same exit code, files and
    writes. *)
Theorem run_transport_choice (opts : options) (env : environment) (tr tr' : transport)
    (w : world) :
  match service_url opts env with
  | Some u =>
      forall body, fetch tr (endpoint_url u (api_path opts)) body
                   = fetch tr' (endpoint_url u (api_path opts)) body
  | None =>
      forall input,
        spawnSync tr "ollama" (cli_arguments (model_name opts) (token_limit opts)) input
        = spawnSync tr' "ollama" (cli_arguments (model_name opts) (token_limit opts)) input
  end ->
  run opts env tr w = run opts env tr' w.
Proof.
  intros H. unfold run, analyzeFailures.
  destruct (findFailedResults _ w) as [[|f failures]|e]; try reflexivity.
  erewrite for_each_ext; [reflexivity |].
  intros g w'. unfold analyze_one.
  destruct (buildPrompt g) as [prompt|e]; [| reflexivity].
  rewrite (call_model_ext tr tr'); [reflexivity |].
  unfold service_url, api_path, model_name, token_limit in H.
  destruct (nonempty _); apply H.
Qed.

Lemma run_transport_choice_witness :
  run default_options (Environment None (Some "http://localhost:11434")) offline fake_world
  = run default_options (Environment None (Some "http://localhost:11434"))
        (other_runner offline) fake_world.
Proof.
  apply (run_transport_choice default_options
           (Environment None (Some "http://localhost:11434")) offline (other_runner offline)
           fake_world).
  intros body. reflexivity.
Defined.

(** ** Discovery, exactly *)

Lemma visit_discovered (dir : string) (w : world) (acc : list test) (name : string) :
  visit dir w acc name = acc ++ option_list (discovered dir w name).
Proof.
  unfold visit, discovered, readFileSync.
  destruct (files w !! path_join dir name) as [[text|]|]; try now rewrite app_nil_r.
  destruct (JSON_parse text) as [j|]; [| now rewrite app_nil_r].
  destruct (is_failed j) as [[|]|e] eqn:E.
  - apply is_failed_spec in E. now rewrite E.
  - destruct (failed_or_broken j) eqn:F; [| now rewrite app_nil_r].
    apply is_failed_spec in F. congruence.
  - destruct (failed_or_broken j) eqn:F; [| now rewrite app_nil_r].
    apply is_failed_spec in F. congruence.
Qed.

Lemma fold_visit_discovered (dir : string) (w : world) (names : list string) :
  forall acc, fold_left (visit dir w) names acc = acc ++ omap (discovered dir w) names.
Proof.
  induction names as [|n names IH]; intros acc; simpl; [now rewrite app_nil_r |].
  rewrite IH, visit_discovered, <- app_assoc. now destruct (discovered dir w n).
Qed.

Lemma child_name_join (dir name : string) :
  contains_slash name = false -> name <> EmptyString ->
  child_name dir (path_join dir name) = Some name.
Proof.
  intros Hs Hn. unfold child_name, path_join.
  replace (dir +:+ String slash name) with ((dir +:+ String slash EmptyString) +:+ name)
    by now rewrite app_assoc_s.
  rewrite strip_prefix_app, Hs.
  apply String.eqb_neq in Hn. now rewrite Hn.
Qed.

Lemma child_name_nonempty (dir p name : string) :
  child_name dir p = Some name -> name <> EmptyString.
Proof.
  unfold child_name. destruct (strip_prefix _ p) as [n|]; [| discriminate].
  destruct (contains_slash n); simpl; [discriminate |].
  destruct (String.eqb n EmptyString) eqn:E; [discriminate |].
  intros [= <-]. now apply String.eqb_neq.
Qed.

(** The entries that [readdirSync] lists. *)
Lemma readdirSync_elem (dir : string) (w : world) (name : string) :
  name ∈ omap (fun kv : string * node => child_name dir (fst kv)) (map_to_list (files w))
  <-> name <> EmptyString /\ contains_slash name = false /\
      is_Some (files w !! path_join dir name).
Proof.
  rewrite list_elem_of_omap. split.
  - intros ([p nd] & Hin & Hc). simpl in Hc.
    pose proof (child_name_nonempty _ _ _ Hc) as Hn.
    apply child_name_Some in Hc as [-> Hs]. apply elem_of_map_to_list in Hin. eauto.
  - intros (Hn & Hs & [nd Hnd]). exists (path_join dir name, nd). split.
    + now apply elem_of_map_to_list.
    + now apply child_name_join.
Qed.

Lemma NoDup_omap_inj {A B : Type} (f : A -> option B) (l : list A) :
  (forall x y z, x ∈ l -> y ∈ l -> f x = Some z -> f y = Some z -> x = y) ->
  NoDup l -> NoDup (omap f l).
Proof.
  intros Hinj Hnd. induction Hnd as [|x l Hx Hl IH]; simpl; [constructor |].
  assert (IH' : NoDup (omap f l)).
  { apply IH. intros a b z Ha Hb. apply Hinj; now right. }
  destruct (f x) as [z|] eqn:E; [| exact IH'].
  constructor; [| exact IH'].
  intros Hin. apply list_elem_of_omap in Hin as (y & Hy & Hfy).
  rewrite (Hinj x y z) in Hx; [contradiction | left | now right | assumption | assumption].
Qed.

Lemma readdirSync_NoDup (dir : string) (w : world) :
  NoDup (omap (fun kv : string * node => child_name dir (fst kv)) (map_to_list (files w))).
Proof.
  apply NoDup_omap_inj; [| apply NoDup_map_to_list].
  intros [p nd] [p' nd'] name Hin Hin' Hp Hp'. simpl in *.
  apply child_name_Some in Hp as [-> _]. apply child_name_Some in Hp' as [-> _].
  apply elem_of_map_to_list in Hin, Hin'. congruence.
Qed.

Lemma discovered_Some (dir : string) (w : world) (name : string) (f : test) :
  discovered dir w name = Some f <->
  file f = path_join dir name /\
  exists text, files w !! path_join dir name = Some (File text) /\
               JSON_parse text = Some (json f) /\ failed_or_broken (json f) = true.
Proof.
  unfold discovered. split.
  - destruct (files w !! path_join dir name) as [[text|]|]; try discriminate.
    destruct (JSON_parse text) as [j|] eqn:Hp; [| discriminate].
    destruct (failed_or_broken j) eqn:F; [| discriminate].
    intros [= <-]. simpl. eauto.
  - intros (Hf & text & -> & Hp & F). rewrite Hp, F. destruct f as [p j]. simpl in *.
    now subst p.
Qed.

Lemma findFailedResults_list (dir : string) (w : world) :
  files w !! dir = Some Directory ->
  findFailedResults dir w
  = Ok (omap (discovered dir w)
          (filter (fun f => endsWith f ".json" = true)
             (omap (fun kv : string * node => child_name dir (fst kv))
                   (map_to_list (files w))))).
Proof.
  intros H. unfold findFailedResults, existsSync, readdirSync. rewrite H. simpl.
  now rewrite fold_visit_discovered.
Qed.

(** X9. In a results directory whose [.json] entries are texts in the
    domain of the parser, discovery returns exactly the records of the
    entries whose name ends in [.json], that are regular files, whose
    text is JSON, and whose [status] is [failed] or [broken]; no record
    file is returned twice.  Entries that cannot be read or parsed are
    passed over without failing. *)
Theorem discovery_exact (dir : string) (w : world) :
  files w !! dir = Some Directory ->
  records_modelled dir w ->
  exists failures,
    findFailedResults dir w = Ok failures /\
    (forall f, f ∈ failures <->
       exists name text,
         file f = path_join dir name /\ name <> EmptyString /\
         contains_slash name = false /\ endsWith name ".json" = true /\
         files w !! file f = Some (File text) /\
         JSON_parse text = Some (json f) /\ failed_or_broken (json f) = true) /\
    NoDup (file <$> failures).
Proof.
  intros Hd _. eexists. split; [now apply findFailedResults_list |]. split.
  - intros f. rewrite list_elem_of_omap. split.
    + intros (name & Hin & Hf). apply list_elem_of_filter in Hin as [Hj Hin].
      apply readdirSync_elem in Hin as (Hn & Hs & _).
      apply discovered_Some in Hf as (Hf & text & Hfile & Hp & F).
      exists name, text. rewrite Hf. auto 10.
    + intros (name & text & Hf & Hn & Hs & Hj & Hfile & Hp & F).
      exists name. split.
      * apply list_elem_of_filter. split; [assumption |].
        apply readdirSync_elem. rewrite <- Hf, Hfile. eauto.
      * apply discovered_Some. rewrite <- Hf. eauto.
  - set (names := filter _ _).
    assert (Hnd : NoDup names) by (apply NoDup_filter, readdirSync_NoDup).
    clearbody names. induction Hnd as [|n names Hn Hnd IH]; simpl; [constructor |].
    destruct (discovered dir w n) as [f|] eqn:E; [| exact IH].
    simpl. constructor; [| exact IH].
    intros Hin. apply list_elem_of_fmap in Hin as (g & Hg & Hin).
    apply list_elem_of_omap in Hin as (n' & Hn' & E').
    apply discovered_Some in E as [Hf _]. apply discovered_Some in E' as [Hf' _].
    rewrite Hf, Hf' in Hg. apply path_join_inj in Hg. now subst n'.
Qed.

Lemma discovery_exact_witness :
  exists failures,
    findFailedResults "allure-results" fake_world = Ok failures /\
    (forall f, f ∈ failures <->
       exists name text,
         file f = path_join "allure-results" name /\ name <> EmptyString /\
         contains_slash name = false /\ endsWith name ".json" = true /\
         files fake_world !! file f = Some (File text) /\
         JSON_parse text = Some (json f) /\ failed_or_broken (json f) = true) /\
    NoDup (file <$> failures).
Proof.
  apply (discovery_exact "allure-results" fake_world).
  - vm_compute. reflexivity.
  - apply fake_world_modelled.
Defined.

Lemma findFailedResults_complete (dir : string) (w : world) (failures : list test)
    (name text : string) (j : jvalue) :
  files w !! dir = Some Directory -> findFailedResults dir w = Ok failures ->
  name <> EmptyString -> contains_slash name = false -> endsWith name ".json" = true ->
  files w !! path_join dir name = Some (File text) ->
  JSON_parse text = Some j -> failed_or_broken j = true ->
  Test (path_join dir name) j ∈ failures.
Proof.
  intros Hd Hf Hn Hs Hj Hfile Hp F. rewrite (findFailedResults_list _ _ Hd) in Hf.
  injection Hf as <-. apply list_elem_of_omap. exists name. split.
  - apply list_elem_of_filter. split; [assumption |].
    apply readdirSync_elem. rewrite Hfile. eauto.
  - apply discovered_Some. simpl. eauto.
Qed.

Lemma findFailedResults_nonempty (dir : string) (w : world) (failures : list test) (f : test) :
  findFailedResults dir w = Ok failures -> f ∈ failures -> files w !! dir = Some Directory.
Proof.
  unfold findFailedResults, existsSync, readdirSync.
  destruct (files w !! dir) as [[c|]|]; simpl; try discriminate; [reflexivity |].
  intros [= <-] H. now apply elem_of_nil in H.
Qed.

(** ** A batch in which transport calls fail *)


Lemma fake_world_accepts : accepts_entries "allure-results" fake_world.
Proof.
  intros name. split; [| reflexivity].
  intros H. unfold fake_world, world_of in H. cbn [files] in H.
  apply elem_of_list_to_map_2 in H.
  repeat (apply elem_of_cons in H as [H | H]); try discriminate.
  now apply elem_of_nil in H.
Defined.

Lemma fake_world_typed (name text : string) (j : jvalue) :
  files fake_world !! path_join "allure-results" name = Some (File text) ->
  JSON_parse text = Some j -> failed_or_broken j = true -> well_typed_record j = true.
Proof.
  intros H Hp Hf. unfold fake_world, world_of in H. cbn [files] in H.
  apply elem_of_list_to_map_2 in H.
  repeat (apply elem_of_cons in H as [H | H]); try discriminate.
  - injection H as _ Ht. subst text. vm_compute in Hp. injection Hp as Hj. now subst j.
  - injection H as _ Ht. subst text. vm_compute in Hp. injection Hp as Hj. now subst j.
  - injection H as _ Ht. subst text. vm_compute in Hp. injection Hp as Hj. now subst j.
  - now apply elem_of_nil in H.
Defined.



Example offline_analysis_text :
  written (snd (run default_options no_environment offline fake_world))
  = [ ("allure-results/fake-failed-1-result.json-llm-analysis.txt",
       "LLM call failed: Ollama CLI call failed: spawnSync ollama ENOENT");
      (fake_file,
       JSON_stringify
         (JObj (obj_set "attachments"
                  (JArr [attachment "fake-failed-1-result.json-llm-analysis.txt"])
                  fake_members))) ].
Proof. vm_compute. reflexivity. Qed.

(** ** Records that the prompt cannot be built from *)

Lemma forEach_step_null (steps : list jvalue) :
  JNull ∈ steps ->
  forall i lines, exists e, forEach_step steps i lines = Throw e.
Proof.
  induction steps as [|s steps IH]; intros Hin i lines.
  - now apply elem_of_nil in Hin.
  - simpl. apply elem_of_cons in Hin as [<- | Hin]; [simpl; eauto |].
    destruct (step_callback s i lines) as [lines1|e]; simpl; [now apply IH | eauto].
Qed.

(** One step of a computation that ends by throwing: the first action
    throws, or the rest is examined with its result. *)
Ltac bind_or_throw :=
  lazymatch goal with
  | |- exists e, mbind ?f ?m = Throw e =>
      let x := fresh "x" in
      destruct m as [x|x]; cbn [mbind result_bind]; [| eauto]
  end.

Lemma buildPrompt_null_step (f : test) :
  JNull ∈ steps_of (json f) -> exists e, buildPrompt f = Throw e.
Proof.
  destruct f as [p j]. unfold steps_of, member. simpl.
  destruct j as [| b | n | s | l | ms]; try (intros H; now apply elem_of_nil in H).
  destruct (obj_lookup "steps" ms) as [[| b | n | s | steps | ms']|] eqn:Es;
    try (intros H; now apply elem_of_nil in H).
  intros Hin. unfold buildPrompt. cbn [json prop mbind result_bind].
  do 3 bind_or_throw. rewrite Es.
  destruct steps as [|s steps]; [now apply elem_of_nil in Hin |].
  match goal with
  | |- context [forEach_step (s :: steps) 0 ?lines] =>
      destruct (forEach_step_null _ Hin 0 lines) as [e ->]
  end.
  eauto.
Qed.

Lemma for_each_throws (body : test -> world -> result unit * world)
    (failures : list test) (f : test) :
  (forall w, exists e, body f w = (Throw e, w)) -> f ∈ failures ->
  forall w, exists e w1, for_each body failures w = (Throw e, w1).
Proof.
  intros Hf. induction failures as [|g failures IH]; intros Hin w.
  - now apply elem_of_nil in Hin.
  - simpl. apply elem_of_cons in Hin as [<- | Hin].
    + destruct (Hf w) as [e ->]. eauto.
    + destruct (body g w) as [[u|e] w1]; [now apply IH | eauto].
Qed.

(** X10. A discovered record with a [null] among its steps stops the
    batch: the prompt cannot be built, nothing guards that call, and the
    run exits with 2. *)
Theorem null_step_aborts_run (opts : options) (env : environment) (tr : transport)
    (w : world) (failures : list test) (f : test) :
  findFailedResults (results_dir opts) w = Ok failures ->
  f ∈ failures -> JNull ∈ steps_of (json f) ->
  (exists e, buildPrompt f = Throw e) /\ fst (run opts env tr w) = 2%Z.
Proof.
  intros Hd Hf Hnull. destruct (buildPrompt_null_step f Hnull) as [e He].
  split; [eauto |].
  unfold run, analyzeFailures. fold (results_dir opts). rewrite Hd.
  destruct failures as [|g failures]; [now apply elem_of_nil in Hf |].
  match goal with
  | |- context [for_each ?body ?l w] =>
      destruct (for_each_throws body l f) with (w := w) as (e' & w1 & ->);
      [| assumption | reflexivity]
  end.
  intros w'. unfold analyze_one. rewrite He. eauto.
Qed.

Lemma null_step_aborts_run_witness :
  (exists e, buildPrompt (Test "allure-results/a-result.json" null_step_record) = Throw e) /\
  fst (run default_options no_environment offline null_step_world) = 2%Z.
Proof.
  apply (null_step_aborts_run default_options no_environment offline null_step_world
           [Test "allure-results/a-result.json" null_step_record]
           (Test "allure-results/a-result.json" null_step_record)).
  - vm_compute. reflexivity.
  - apply list_elem_of_singleton. reflexivity.
  - unfold steps_of. simpl. right. left.
Defined.

(** ** Where the analysis file goes *)

Lemma sanitize_no_slash (s : string) : contains_slash (sanitize s) = false.
Proof.
  induction s as [|c s IH]; simpl; [reflexivity |]. rewrite IH, orb_false_r.
  destruct (safe_char c) eqn:E; [| reflexivity].
  destruct (Ascii.eqb c slash) eqn:Ec; [| reflexivity].
  apply Ascii.eqb_eq in Ec. subst c. discriminate.
Qed.

Lemma analysisFileName_no_slash (f : test) : contains_slash (analysisFileName f) = false.
Proof.
  unfold analysisFileName, uuid. rewrite contains_slash_app, sanitize_no_slash. reflexivity.
Qed.

Lemma analysisFileName_not_json (f : test) : endsWith (analysisFileName f) ".json" = false.
Proof.
  unfold analysisFileName.
  replace (uuid f +:+ "-llm-analysis.txt") with ((uuid f +:+ "-llm-analysis.tx") +:+ "t")
    by now rewrite app_assoc_s.
  apply (endsWith_last _ ".jso"). discriminate.
Qed.

Lemma analysisFileName_nonempty (f : test) : analysisFileName f <> EmptyString.
Proof.
  unfold analysisFileName. intros H. apply (f_equal String.length) in H.
  rewrite length_app_s in H. simpl in H. lia.
Qed.

Lemma endsWith_join (dir name suffix : string) :
  endsWith name suffix = true -> endsWith (path_join dir name) suffix = true.
Proof.
  intros H. apply endsWith_spec in H as [pre ->]. apply endsWith_spec.
  exists (dir +:+ String slash pre). unfold path_join.
  now rewrite app_assoc_s.
Qed.

Lemma append_inj_l (a b t : string) : a +:+ t = b +:+ t -> a = b.
Proof.
  intros H. apply (f_equal list_ascii_of_string) in H.
  rewrite !list_ascii_of_string_app in H. apply app_inv_tail in H.
  rewrite <- (string_of_list_ascii_of_string a), H.
  apply string_of_list_ascii_of_string.
Qed.

Lemma sanitize_safe (name : string) : safe_name name = true -> sanitize name = name.
Proof.
  unfold safe_name. induction name as [|c name IH]; simpl; [reflexivity |].
  intros H. apply andb_true_iff in H as [-> H]. now rewrite IH.
Qed.

(** X11. The analysis file is an entry of the results directory itself,
    whatever the name of the record file, and its name does not end in
    [.json]: a later discovery never takes an analysis file for a
    record. *)
Theorem analysis_file_beside_records (dir : string) (f : test) :
  child_name dir (path_join dir (analysisFileName f)) = Some (analysisFileName f) /\
  endsWith (analysisFileName f) ".json" = false /\
  (forall w failures g,
     findFailedResults dir w = Ok failures -> g ∈ failures ->
     file g <> path_join dir (analysisFileName f)).
Proof.
  split; [| split].
  - apply child_name_join; [apply analysisFileName_no_slash | apply analysisFileName_nonempty].
  - apply analysisFileName_not_json.
  - intros w failures g Hd Hg Heq.
    destruct (findFailedResults_elem _ _ _ _ Hd Hg) as (name & Hf & Hj & _).
    rewrite Hf in Heq. apply path_join_inj in Heq. subst name.
    rewrite analysisFileName_not_json in Hj. discriminate.
Qed.

Lemma analysis_file_beside_records_witness :
  child_name "allure-results" (path_join "allure-results" (analysisFileName fake_test))
  = Some (analysisFileName fake_test) /\
  endsWith (analysisFileName fake_test) ".json" = false /\
  (forall g, g ∈ [fake_test] ->
     file g <> path_join "allure-results" (analysisFileName fake_test)).
Proof.
  destruct (analysis_file_beside_records "allure-results" fake_test) as (H1 & H2 & H3).
  split; [exact H1 |]. split; [exact H2 |].
  intros g Hg. apply (H3 fake_world [fake_test] g); [vm_compute; reflexivity | exact Hg].
Defined.

(** X12. Two records of a directory share their analysis file exactly
    when their file names are equal after sanitising; records whose file
    names hold allowed characters only have analysis files of their
    own. *)
Theorem analysis_files_distinct (dir n1 n2 : string) (f g : test) :
  file f = path_join dir n1 -> file g = path_join dir n2 ->
  contains_slash n1 = false -> contains_slash n2 = false ->
  (analysisFileName f = analysisFileName g <-> sanitize n1 = sanitize n2) /\
  (safe_name n1 = true -> safe_name n2 = true ->
   analysisFileName f = analysisFileName g -> file f = file g).
Proof.
  intros Hf Hg H1 H2.
  rewrite (analysisFileName_of_entry _ _ _ Hf H1), (analysisFileName_of_entry _ _ _ Hg H2).
  split.
  - split; [apply append_inj_l | now intros ->].
  - intros S1 S2 H. apply append_inj_l in H.
    rewrite (sanitize_safe _ S1), (sanitize_safe _ S2) in H. congruence.
Qed.

Lemma analysis_files_distinct_witness :
  (analysisFileName (Test "allure-results/a-result.json" passed_record)
   = analysisFileName (Test "allure-results/b-result.json" fake_failed_1)
   <-> sanitize "a-result.json" = sanitize "b-result.json") /\
  (safe_name "a-result.json" = true -> safe_name "b-result.json" = true ->
   analysisFileName (Test "allure-results/a-result.json" passed_record)
   = analysisFileName (Test "allure-results/b-result.json" fake_failed_1) ->
   file (Test "allure-results/a-result.json" passed_record)
   = file (Test "allure-results/b-result.json" fake_failed_1)).
Proof.
  apply (analysis_files_distinct "allure-results" "a-result.json" "b-result.json"
           (Test "allure-results/a-result.json" passed_record)
           (Test "allure-results/b-result.json" fake_failed_1)); reflexivity.
Defined.

Example analysis_files_collide :
  analysisFileName (Test "allure-results/a b.json" passed_record)
  = analysisFileName (Test "allure-results/a_b.json" fake_failed_1).
Proof. reflexivity. Qed.

(** ** What a run leaves in place *)

Lemma writeFileSync_cases (p : string) (data : jvalue) (w : world) :
  snd (writeFileSync p data w) = w \/
  exists text,
    data = JStr text /\ accepts w p /\
    writeFileSync p data w
    = (Ok tt, World (<[p := File text]> (files w)) (written w ++ [(p, text)]) (refused w)).
Proof.
  unfold writeFileSync, accepts. destruct data as [| b | n | text | l | ms]; auto.
  destruct (files w !! p) as [[c|]|] eqn:E; auto;
    destruct (refused w p) eqn:R; auto; right; exists text;
    (split; [reflexivity | split; [split; [discriminate | reflexivity] | reflexivity]]).
Qed.

Lemma attach_cases (f : test) (name : string) (w : world) :
  (snd (attach f name w) = w /\
   ((forall j1, attach_entry (json f) name <> Ok (j1, true)) \/
    files w !! file f = Some Directory \/ refused w (file f) <> None)) \/
  exists j1,
    attach_entry (json f) name = Ok (j1, true) /\
    accepts w (file f) /\
    snd (attach f name w)
    = World (<[file f := File (JSON_stringify j1)]> (files w))
            (written w ++ [(file f, JSON_stringify j1)]) (refused w).
Proof.
  unfold attach. destruct (attach_entry (json f) name) as [[j1 [|]]|e];
    try (left; split; [reflexivity | left; discriminate]).
  destruct (writeFileSync_cases (file f) (JStr (JSON_stringify j1)) w)
    as [Hsame | (text & [= <-] & Ha & ->)].
  - unfold accepts. unfold writeFileSync in *.
    destruct (files w !! file f) as [[c|]|] eqn:E; simpl in *;
      try (left; split; [reflexivity | right; now left]);
      destruct (refused w (file f)) eqn:R; simpl in *;
      try (left; split; [reflexivity | right; right; discriminate]);
      right; exists j1; repeat split; discriminate.
  - right. exists j1. repeat split; apply Ha.
Qed.

(** The world after one record. *)
Lemma analyze_one_cases (tr : transport) (dir : string) (url : option string)
    (apiPath model : string) (maxTokens : Z) (f : test) (w w1 : world) (r : result unit) :
  analyze_one tr dir url apiPath model maxTokens f w = (r, w1) ->
  (w1 = w /\ exists e, r = Throw e) \/
  (r = Ok tt /\
   exists text w2,
     accepts w (path_join dir (analysisFileName f)) /\
     w2 = World (<[path_join dir (analysisFileName f) := File text]> (files w))
                (written w ++ [(path_join dir (analysisFileName f), text)]) (refused w) /\
     w1 = snd (attach f (analysisFileName f) w2)).
Proof.
  unfold analyze_one, accepts. destruct (buildPrompt f) as [prompt|e]; [| intros [= <- <-]; eauto].
  unfold writeFileSync. destruct (normalize _) as [| b | n | text | l | ms];
    try (intros [= <- <-]; eauto).
  destruct (files w !! path_join dir (analysisFileName f)) as [[c|]|] eqn:E;
    try (intros [= <- <-]; now eauto 10);
    destruct (refused w (path_join dir (analysisFileName f))) eqn:R;
    intros [= <- <-]; eauto 10; right; (split; [reflexivity |]);
    exists text; eexists; (split; [split; [discriminate | reflexivity] | split; reflexivity]).
Qed.

Lemma analyze_one_frame (tr : transport) (dir : string) (url : option string)
    (apiPath model : string) (maxTokens : Z) (f : test) (w w1 : world) (r : result unit) :
  analyze_one tr dir url apiPath model maxTokens f w = (r, w1) ->
  forall p,
    files w1 !! p = files w !! p \/
    ((p = path_join dir (analysisFileName f) \/ p = file f) /\
     is_file p w1 /\ files w !! p <> Some Directory).
Proof.
  intros H p. unfold is_file.
  apply analyze_one_cases in H as [[-> _] | (_ & text & w2 & [Hd _] & -> & ->)]; [now left |].
  match goal with
  | |- context [attach f ?n ?w2] =>
      destruct (attach_cases f n w2) as [[-> _] | (j1 & _ & [Hd' _] & ->)]
  end; simpl in *.
  - destruct (decide (p = path_join dir (analysisFileName f))) as [-> | Hne].
    + right. rewrite lookup_insert_eq. split; [now left |]. split; [now eexists | assumption].
    + left. now rewrite lookup_insert_ne.
  - destruct (decide (p = file f)) as [-> | Hne].
    + right. rewrite lookup_insert_eq. split; [now right |]. split; [now eexists |].
      destruct (decide (file f = path_join dir (analysisFileName f))) as [E | Hne'].
      * now rewrite E.
      * now rewrite lookup_insert_ne in Hd' by congruence.
    + rewrite lookup_insert_ne by congruence.
      destruct (decide (p = path_join dir (analysisFileName f))) as [-> | Hne'].
      * right. rewrite lookup_insert_eq. split; [now left |].
        split; [now eexists | assumption].
      * left. now rewrite lookup_insert_ne.
Qed.

Lemma for_each_frame (tr : transport) (dir : string) (url : option string)
    (apiPath model : string) (maxTokens : Z) (failures : list test) :
  forall w w1 r,
  for_each (analyze_one tr dir url apiPath model maxTokens) failures w = (r, w1) ->
  forall p,
    files w1 !! p = files w !! p \/
    (exists f, f ∈ failures /\ (p = path_join dir (analysisFileName f) \/ p = file f)) /\
    is_file p w1 /\ files w !! p <> Some Directory.
Proof.
  induction failures as [|f failures IH]; simpl; intros w w1 r H p.
  - injection H as _ <-. now left.
  - destruct (analyze_one _ _ _ _ _ _ f w) as [[[]|e] w2] eqn:E.
    + pose proof (analyze_one_frame _ _ _ _ _ _ _ _ _ _ E p) as Hone.
      destruct (IH _ _ _ H p) as [Hsame | ((g & Hg & Hp) & Hfile & Hnd)].
      * rewrite Hsame. destruct Hone as [-> | (Hp & Hfile & Hnd)]; [now left | right].
        split; [exists f; split; [left | assumption] |].
        split; [| assumption]. destruct Hfile as [text Ht]. exists text. congruence.
      * right. split; [exists g; split; [now right | assumption] |].
        split; [assumption |].
        destruct Hone as [<- | (_ & _ & Hnd')]; assumption.
    + injection H as _ <-.
      destruct (analyze_one_frame _ _ _ _ _ _ _ _ _ _ E p) as [-> | (Hp & Hfile & Hnd)];
        [now left | right].
      split; [exists f; split; [left | assumption] | auto].
Qed.

(** X13. A run changes nothing but the analysis files and the record
    files of the records it discovered: every other path holds what it
    held, nothing is removed, and what is written over was not a
    directory. *)
Theorem run_changes_only_its_files (opts : options) (env : environment) (tr : transport)
    (w : world) (failures : list test) :
  findFailedResults (results_dir opts) w = Ok failures ->
  forall p,
    files (snd (run opts env tr w)) !! p = files w !! p \/
    (exists f, f ∈ failures /\
       (p = path_join (results_dir opts) (analysisFileName f) \/ p = file f)) /\
    is_file p (snd (run opts env tr w)) /\ files w !! p <> Some Directory.
Proof.
  intros Hd p. unfold run, analyzeFailures. fold (results_dir opts). rewrite Hd.
  destruct failures as [|f failures]; [now left |].
  match goal with
  | |- context [for_each ?body ?l w] => destruct (for_each body l w) as [r w1] eqn:E
  end.
  apply for_each_frame with (p := p) in E.
  now destruct r.
Qed.

Lemma run_changes_only_its_files_witness :
  files (snd (run default_options no_environment offline fake_world))
    !! "allure-results/ok-1-result.json"
  = files fake_world !! "allure-results/ok-1-result.json" \/
  (exists f, f ∈ [fake_test] /\
     ("allure-results/ok-1-result.json"
      = path_join "allure-results" (analysisFileName f) \/
      "allure-results/ok-1-result.json" = file f)) /\
  is_file "allure-results/ok-1-result.json"
    (snd (run default_options no_environment offline fake_world)) /\
  files fake_world !! "allure-results/ok-1-result.json" <> Some Directory.
Proof.
  apply (run_changes_only_its_files default_options no_environment offline fake_world
           [fake_test]).
  vm_compute. reflexivity.
Defined.

(** ** A second run *)

Lemma attach_entry_reparse (j j1 : jvalue) (name : string) :
  attach_entry j name = Ok (j1, true) -> canonical j = true ->
  JSON_parse (JSON_stringify j1) = Some j1.
Proof.
  intros E Hc.
  apply attach_entry_Ok in E
    as (ms & items & found & -> & Hw & Hfind & [(_ & [=] & _) | (-> & _ & ->)]).
  apply working_array in Hw as [Hitems _].
  apply JSON_parse_stringify, canonical_set; [assumption |].
  cbn [canonical]. rewrite forallb_app, <- Hitems, (canonical_attachments_of _ Hc).
  reflexivity.
Qed.

(** The record file that the attach block has just written is settled. *)
Lemma settled_written (f : test) (j1 : jvalue) :
  attach_entry (json f) (analysisFileName f) = Ok (j1, true) ->
  canonical (json f) = true ->
  settled (file f) (JSON_stringify j1).
Proof.
  intros E Hc j Hp _ j2. rewrite (attach_entry_reparse _ _ _ E Hc) in Hp.
  injection Hp as <-.
  change (sanitize (path_basename (file f)) +:+ "-llm-analysis.txt")
    with (analysisFileName f).
  rewrite (attach_entry_again _ _ _ _ E). discriminate.
Qed.

Lemma analysis_path_not_json (dir : string) (f : test) (p : string) :
  endsWith p ".json" = true -> p <> path_join dir (analysisFileName f).
Proof.
  intros H ->. unfold path_join in H.
  assert (E : endsWith (dir +:+ String slash (analysisFileName f)) ".json" = false).
  { unfold analysisFileName.
    replace (dir +:+ String slash (uuid f +:+ "-llm-analysis.txt"))
      with ((dir +:+ String slash (uuid f +:+ "-llm-analysis.tx")) +:+ "t").
    - apply (endsWith_last _ ".jso"). discriminate.
    - rewrite app_assoc_s. simpl. now rewrite app_assoc_s. }
  congruence.
Qed.

Lemma analyze_one_settles (tr : transport) (dir : string) (url : option string)
    (apiPath model : string) (maxTokens : Z) (f : test) (w w' w1 : world)
    (processed : test -> Prop) :
  analyze_one tr dir url apiPath model maxTokens f w' = (Ok tt, w1) ->
  canonical (json f) = true ->
  record_files_settled w processed w' ->
  record_files_settled w (fun g => g = f \/ processed g) w1.
Proof.
  intros H Hc [Hr Hinv].
  apply analyze_one_cases in H as [[_ [e [=]]] | (_ & t & w2 & Hd & -> & ->)].
  match goal with
  | |- context [attach f ?n ?w2] =>
      destruct (attach_cases f n w2) as [[Hsame Hwhy] | (j1 & E & Hd' & Hw)]
  end.
  - rewrite Hsame. split; [assumption |]. intros p text Hp Hj.
    pose proof (analysis_path_not_json dir f p Hj) as Hna.
    simpl in Hp, Hwhy. rewrite lookup_insert_ne in Hp by congruence.
    destruct (Hinv p text Hp Hj) as [Hs | [Hw Hpend]]; [now left | right].
    split; [assumption |]. intros g [-> | Hg] Hfile; [| now apply Hpend].
    destruct Hwhy as [Hno | [Hdir | Href]]; [now left | | right].
    + rewrite Hfile, lookup_insert_ne, Hp in Hdir by congruence. discriminate.
    + now rewrite <- Hr, <- Hfile.
  - rewrite Hw. split; [assumption |]. intros p text Hp Hj.
    pose proof (analysis_path_not_json dir f p Hj) as Hna. simpl in Hp.
    destruct (decide (p = file f)) as [-> | Hne].
    + rewrite lookup_insert_eq in Hp. injection Hp as <-. left.
      now apply settled_written.
    + rewrite !lookup_insert_ne in Hp by congruence.
      destruct (Hinv p text Hp Hj) as [Hs | [Hw' Hpend]]; [now left | right].
      split; [assumption |]. intros g [-> | Hg] Hfile; [congruence | now apply Hpend].
Qed.

Lemma for_each_settles (tr : transport) (dir : string) (url : option string)
    (apiPath model : string) (maxTokens : Z) (w : world) (failures : list test) :
  (forall f, f ∈ failures -> canonical (json f) = true) ->
  forall w' w1 processed,
  for_each (analyze_one tr dir url apiPath model maxTokens) failures w' = (Ok tt, w1) ->
  record_files_settled w processed w' ->
  record_files_settled w (fun g => g ∈ failures \/ processed g) w1.
Proof.
  induction failures as [|f failures IH]; simpl; intros Hc w' w1 processed H Hinv.
  - injection H as <-. destruct Hinv as [Hr Hinv]. split; [assumption |].
    intros p text Hp Hj.
    destruct (Hinv p text Hp Hj) as [Hs | [Hw Hpend]]; [now left | right].
    split; [assumption |]. intros g [Hg | Hg]; [now apply elem_of_nil in Hg | now apply Hpend].
  - destruct (analyze_one _ _ _ _ _ _ f w') as [[[]|e] w2] eqn:E; [| discriminate].
    eapply analyze_one_settles in E; [| apply Hc; left | exact Hinv].
    eapply IH in H; [| intros g Hg; apply Hc; now right | exact E].
    destruct H as [Hr H]. split; [assumption |].
    intros p text Hp Hj.
    destruct (H p text Hp Hj) as [Hs | [Hw Hpend]]; [now left | right].
    split; [assumption |]. intros g [Hg | Hg]; apply Hpend.
    + apply elem_of_cons in Hg as [-> | Hg]; [right; now left | now left].
    + right. now right.
Qed.

(** After a completed run, no discovered record has something to be
    added that could be written. *)
Lemma settled_discovery (dir : string) (w w1 : world) (failures failures1 : list test) :
  record_files_settled w (fun g => g ∈ failures) w1 ->
  (forall p, files w1 !! p = files w !! p \/ is_file p w1) ->
  findFailedResults dir w = Ok failures ->
  findFailedResults dir w1 = Ok failures1 ->
  forall g, g ∈ failures1 ->
    (forall j1, attach_entry (json g) (analysisFileName g) <> Ok (j1, true)) \/
    refused w1 (file g) <> None.
Proof.
  intros [Hr Hinv] Hframe Hd Hd1 g Hg.
  pose proof (findFailedResults_nonempty _ _ _ _ Hd1 Hg) as Hdir1.
  assert (Hdir : files w !! dir = Some Directory).
  { destruct (Hframe dir) as [<- | [t Ht]]; [assumption | congruence]. }
  destruct (findFailedResults_elem _ _ _ _ Hd1 Hg)
    as (name & Hfile & Hj & Hs & text & Htext & Hp & Hfailed).
  destruct (Hinv (file g) text Htext) as [Hset | [Hw Hpend]].
  - rewrite Hfile. now apply endsWith_join.
  - left. now apply Hset.
  - rewrite Hr. apply (Hpend g); [| reflexivity].
    assert (Hn : name <> EmptyString) by (intros ->; discriminate).
    rewrite Hfile in Hw. apply is_failed_spec in Hfailed.
    pose proof (findFailedResults_complete _ _ _ _ _ _ Hdir Hd Hn Hs Hj Hw Hp Hfailed) as Hin.
    destruct g as [p j]. simpl in *. now subst p.
Qed.

Lemma attach_settled (f : test) (w : world) :
  (forall j1, attach_entry (json f) (analysisFileName f) <> Ok (j1, true)) \/
  refused w (file f) <> None ->
  snd (attach f (analysisFileName f) w) = w.
Proof.
  intros H. unfold attach.
  destruct (attach_entry (json f) (analysisFileName f)) as [[j1 [|]]|e]; try reflexivity.
  destruct H as [H | H]; [now destruct (H j1) |].
  unfold writeFileSync. destruct (files w !! file f) as [[c|]|]; try reflexivity;
    destruct (refused w (file f)); try reflexivity; now destruct H.
Qed.

Lemma for_each_settled (tr : transport) (dir : string) (url : option string)
    (apiPath model : string) (maxTokens : Z) (failures : list test)
    (refusals : string -> option string) :
  (forall f, f ∈ failures ->
     (forall j1, attach_entry (json f) (analysisFileName f) <> Ok (j1, true)) \/
     refusals (file f) <> None) ->
  forall w w1 r,
  refused w = refusals ->
  for_each (analyze_one tr dir url apiPath model maxTokens) failures w = (r, w1) ->
  exists new,
    written w1 = written w ++ new /\
    (forall p text, (p, text) ∈ new ->
       exists f, f ∈ failures /\ p = path_join dir (analysisFileName f)) /\
    (forall p, endsWith p ".json" = true -> files w1 !! p = files w !! p).
Proof.
  induction failures as [|f failures IH]; simpl; intros Hset w w1 r Hr H.
  - injection H as _ <-. exists []. rewrite app_nil_r.
    split; [reflexivity |]. split; [| reflexivity].
    intros p text Hin. now apply elem_of_nil in Hin.
  - assert (Hrest : forall g, g ∈ failures ->
              (forall j1, attach_entry (json g) (analysisFileName g) <> Ok (j1, true)) \/
              refusals (file g) <> None)
      by (intros g Hg; apply Hset; now right).
    destruct (analyze_one _ _ _ _ _ _ f w) as [r2 w2] eqn:E.
    apply analyze_one_cases in E as [[-> [e ->]] | (-> & text & w3 & _ & -> & ->)].
    + injection H as _ <-. exists []. rewrite app_nil_r.
      split; [reflexivity |]. split; [| reflexivity].
      intros p t Hin. now apply elem_of_nil in Hin.
    + rewrite attach_settled in H by (simpl; rewrite Hr; apply Hset; left).
      apply (IH Hrest) in H as (new & Hlog & Hnew & Hfiles); [| exact Hr]. simpl in *.
      exists ((path_join dir (analysisFileName f), text) :: new).
      split; [now rewrite Hlog, <- app_assoc |]. split.
      * intros p t Hin. apply elem_of_cons in Hin as [[= -> ->] | Hin].
        -- exists f. split; [left | reflexivity].
        -- destruct (Hnew p t Hin) as (g & Hg & ->). exists g. split; [now right | reflexivity].
      * intros p Hj. rewrite (Hfiles p Hj).
        apply lookup_insert_ne. intros Heq. symmetry in Heq. revert Heq.
        now apply analysis_path_not_json.
Qed.

(** X14. After a run that completed, a further run on the same results
    directory rewrites no record file: whatever options, environment and
    transport it is given, its writes are analysis files only, and every
    file whose name ends in [.json] holds what the first run left.  No
    record gets a second attachment for its analysis. *)
Theorem second_run_keeps_records (opts opts' : options) (env env' : environment)
    (tr tr' : transport) (w w1 : world) :
  results_dir opts' = results_dir opts ->
  run opts env tr w = (0%Z, w1) ->
  exists new,
    written (snd (run opts' env' tr' w1)) = written w1 ++ new /\
    (forall p text, (p, text) ∈ new ->
       endsWith p ".json" = false /\
       exists f, p = path_join (results_dir opts) (analysisFileName f)) /\
    (forall p, endsWith p ".json" = true ->
       files (snd (run opts' env' tr' w1)) !! p = files w1 !! p).
Proof.
  intros Hdir Hrun.
  destruct (findFailedResults (results_dir opts) w) as [failures|e] eqn:Hd.
  2: { unfold run, analyzeFailures in Hrun. fold (results_dir opts) in Hrun.
       rewrite Hd in Hrun. discriminate. }
  destruct (run_completed _ _ _ _ _ _ Hd Hrun) as (url & apiPath & model & maxTokens & Hfor).
  assert (Hinv : record_files_settled w (fun g => g ∈ failures) w1).
  { assert (H0 : record_files_settled w (fun _ => False) w).
    { split; [reflexivity |]. intros p text Hp _. right. split; [assumption |]. intros f []. }
    eapply for_each_settles in Hfor; [| | exact H0].
    - destruct Hfor as [Hr Hfor]. split; [assumption |].
      intros p text Hp Hj. destruct (Hfor p text Hp Hj) as [Hs | [Hw Hpend]]; [now left | right].
      split; [assumption |]. intros f Hf. apply Hpend. now left.
    - intros f Hf.
      destruct (findFailedResults_elem _ _ _ _ Hd Hf) as (_ & _ & _ & _ & text & _ & Hp & _).
      eapply JSON_parse_canonical, Hp. }
  assert (Hframe : forall p, files w1 !! p = files w !! p \/ is_file p w1).
  { intros p. destruct (for_each_frame _ _ _ _ _ _ _ _ _ _ Hfor p) as [H | (_ & H & _)]; auto. }
  unfold run at 1 2, analyzeFailures. fold (results_dir opts'). rewrite Hdir.
  destruct (findFailedResults (results_dir opts) w1) as [[|f failures1]|e] eqn:Hd1.
  - exists []. rewrite app_nil_r. split; [reflexivity |]. split; [| reflexivity].
    intros p text Hin. now apply elem_of_nil in Hin.
  - match goal with
    | |- context [for_each ?body ?l w1] => destruct (for_each body l w1) as [r w2] eqn:E
    end.
    apply for_each_settled with (refusals := refused w1) in E as (new & Hlog & Hnew & Hfiles);
      [| | reflexivity].
    + exists new. split; [now destruct r |]. split; [| now destruct r].
      intros p text Hin. destruct (Hnew p text Hin) as (g & _ & ->).
      split; [| eauto].
      destruct (endsWith _ ".json") eqn:Ej; [| reflexivity].
      now apply (analysis_path_not_json (results_dir opts) g) in Ej.
    + intros g Hg. eapply settled_discovery; eassumption.
  - exists []. rewrite app_nil_r. split; [reflexivity |]. split; [| reflexivity].
    intros p text Hin. now apply elem_of_nil in Hin.
Qed.

Lemma second_run_keeps_records_witness :
  exists new,
    written (snd (run default_options no_environment (answering "The selector changed.")
                    (snd (run default_options no_environment offline fake_world))))
    = written (snd (run default_options no_environment offline fake_world)) ++ new /\
    (forall p text, (p, text) ∈ new ->
       endsWith p ".json" = false /\
       exists f, p = path_join (results_dir default_options) (analysisFileName f)) /\
    (forall p, endsWith p ".json" = true ->
       files (snd (run default_options no_environment (answering "The selector changed.")
                     (snd (run default_options no_environment offline fake_world)))) !! p
       = files (snd (run default_options no_environment offline fake_world)) !! p).
Proof.
  apply (second_run_keeps_records default_options default_options
           no_environment no_environment offline (answering "The selector changed.")
           fake_world (snd (run default_options no_environment offline fake_world))).
  - reflexivity.
  - vm_compute. reflexivity.
Defined.

Example second_run_writes :
  written (snd (run default_options no_environment (answering "The selector changed.")
                  (snd (run default_options no_environment offline fake_world))))
  = written (snd (run default_options no_environment offline fake_world))
    ++ [("allure-results/fake-failed-1-result.json-llm-analysis.txt",
         "The selector changed.")].
Proof. vm_compute. reflexivity. Qed.

(** ** The whole prompt, and the texts of a failed call *)

(** X15. The prompt of a well-typed record, line by line: the three
    instruction lines and a rule; the test name, [Unknown] when the
    record has no name or an empty one; the full name when the record has
    a non-empty one; the words [Error message:] and the message when the
    record carries a non-empty one; [Steps:] and the lines of the steps
    when there is a step; the trace lines; a rule and the closing
    request.  The lines are joined by line feeds, and building the prompt
    does not fail. *)
Theorem prompt_text (path : string) (j : jvalue) :
  well_typed_record j = true ->
  buildPrompt (Test path j)
  = Ok (join newline
          (head_lines j ++ concat (imap step_lines (steps_of j))
           ++ trace_lines j ++ ["---"; "Provide the JSON only."])).
Proof. apply buildPrompt_typed. Qed.

Lemma prompt_text_witness :
  buildPrompt (Test "allure-results/bare-1-result.json" (JObj bare_members))
  = Ok (join newline
          [ "You are an expert Playwright + Cucumber engineer.";
            "Analyze the failing test and provide a concise JSON with keys: summary, probable_root_cause, confidence, suggested_fix, immediate_workaround, files_to_change (array), allure_attachment (markdown string).";
            "Do not include secrets. Keep suggested_fix short and actionable.";
            "---";
            "Test name: No attachments yet";
            "---";
            "Provide the JSON only." ]).
Proof.
  apply (prompt_text "allure-results/bare-1-result.json" (JObj bare_members)).
  reflexivity.
Defined.

(** X16. What the analysis file holds after a failed call: [LLM call
    failed: ], then [Ollama HTTP call failed: ] and either the message of
    the rejected request or [Ollama HTTP error <status> <status text>],
    or then [Ollama CLI call failed: ] and either the message of the
    launch failure, the standard error of the command, or [ollama CLI
    failed] when the standard error is empty. *)
Theorem failure_texts (tr : transport) (url : option string)
    (apiPath model prompt : string) (maxTokens : Z) :
  let saved := normalize (analysis_of (call_model tr url apiPath model prompt maxTokens)) in
  (forall u message,
     nonempty url = Some u ->
     fetch tr (endpoint_url u apiPath) (request_body model prompt maxTokens)
     = FetchRejected message ->
     saved = JStr ("LLM call failed: Ollama HTTP call failed: " +:+ message)) /\
  (forall u status statusText body,
     nonempty url = Some u ->
     fetch tr (endpoint_url u apiPath) (request_body model prompt maxTokens)
     = FetchResponse status statusText body ->
     response_ok status = false ->
     saved = JStr ("LLM call failed: Ollama HTTP call failed: Ollama HTTP error "
                   +:+ Z_to_string status +:+ " " +:+ statusText)) /\
  (forall message,
     nonempty url = None ->
     spawn_error (spawnSync tr "ollama" (cli_arguments model maxTokens) prompt)
     = Some message ->
     saved = JStr ("LLM call failed: Ollama CLI call failed: " +:+ message)) /\
  (nonempty url = None ->
   spawn_error (spawnSync tr "ollama" (cli_arguments model maxTokens) prompt) = None ->
   spawn_status (spawnSync tr "ollama" (cli_arguments model maxTokens) prompt) <> Some 0%Z ->
   saved = JStr ("LLM call failed: Ollama CLI call failed: "
                 +:+ (if String.eqb (spawn_stderr (spawnSync tr "ollama"
                                        (cli_arguments model maxTokens) prompt)) EmptyString
                      then "ollama CLI failed"
                      else spawn_stderr (spawnSync tr "ollama"
                                           (cli_arguments model maxTokens) prompt)))).
Proof.
  cbv zeta. unfold call_model, callOllamaHttp, callOllamaCli. repeat split.
  - intros u message -> ->. cbn [mbind result_bind analysis_of].
    apply normalize_failure_text.
  - intros u status statusText body -> -> ->. cbn [mbind result_bind analysis_of].
    apply normalize_failure_text.
  - intros message -> ->. cbn [mbind result_bind analysis_of].
    apply normalize_failure_text.
  - intros -> -> Hs. destruct (decide _) as [E | _]; [contradiction |].
    cbn [mbind result_bind analysis_of]. apply normalize_failure_text.
Qed.

Lemma failure_texts_witness :
  normalize (analysis_of (call_model failing_service (Some "http://localhost:11434")
                            "/api/generate" "llama2" "prompt" 800))
  = JStr "LLM call failed: Ollama HTTP call failed: Ollama HTTP error 500 Internal Server Error"
  /\ normalize (analysis_of (call_model failing_service None
                               "/api/generate" "llama2" "prompt" 800))
     = JStr "LLM call failed: Ollama CLI call failed: model not found".
Proof.
  split.
  - destruct (failure_texts failing_service (Some "http://localhost:11434")
                "/api/generate" "llama2" "prompt" 800) as (_ & H & _).
    apply (H "http://localhost:11434" 500%Z "Internal Server Error" "overloaded");
      reflexivity.
  - destruct (failure_texts failing_service None "/api/generate" "llama2" "prompt" 800)
      as (_ & _ & _ & H).
    apply H; [reflexivity | reflexivity | discriminate].
Defined.

(** ** Runs that complete, and analyses that cannot be written *)

(** X17. In a results directory whose failed and broken records are
    well typed and have an analysis file that can be written, with
    records and answers that are texts in the domain of the parser, a run
    exits 0 whenever the analysis of every prompt is a text, whether the
    transport answers or fails. *)
Theorem run_completes (opts : options) (env : environment) (tr : transport) (w : world) :
  files w !! results_dir opts = Some Directory ->
  records_modelled (results_dir opts) w ->
  answers_modelled tr (service_url opts env) (api_path opts) (model_name opts)
    (token_limit opts) ->
  (forall name text j,
     files w !! path_join (results_dir opts) name = Some (File text) ->
     JSON_parse text = Some j -> failed_or_broken j = true ->
     well_typed_record j = true /\
     accepts w (path_join (results_dir opts) (sanitize name +:+ "-llm-analysis.txt"))) ->
  (forall prompt, exists text,
     normalize (analysis_of (call_model tr (service_url opts env) (api_path opts)
                               (model_name opts) prompt (token_limit opts)))
     = JStr text) ->
  fst (run opts env tr w) = 0%Z.
Proof.
  intros Hdir _ _ Htyped Htext.
  unfold run, analyzeFailures. fold (results_dir opts).
  destruct (findFailedResults_directory _ _ Hdir) as [failures Hd]. rewrite Hd.
  assert (Hall : forall g, g ∈ failures ->
            well_typed_record (json g) = true /\
            accepts w (path_join (results_dir opts) (analysisFileName g))).
  { intros g Hg.
    destruct (findFailedResults_elem _ _ _ _ Hd Hg)
      as (name & Hf & _ & Hs & text & Hfile & Hparse & Hfailed).
    rewrite (analysisFileName_of_entry _ _ _ Hf Hs).
    apply (Htyped name text); [now rewrite <- Hf | assumption | now apply is_failed_spec]. }
  destruct failures as [|f failures]; [reflexivity |].
  match goal with
  | |- context [for_each (analyze_one tr ?d ?u ?a ?m ?t) ?l w] =>
      destruct (for_each_texts tr d u a m t l w) as [w1 ->]; [| | reflexivity]
  end.
  - intros g Hg. now apply Hall.
  - intros g Hg. destruct (Hall g Hg) as [Ht _].
    destruct (buildPrompt_typed_test g Ht) as [prompt Hp].
    destruct (Htext prompt) as [analysis Ha].
    exists prompt, analysis. split; [assumption |].
    unfold service_url in Ha. now rewrite call_model_service in Ha.
Qed.

Lemma run_completes_witness :
  fst (run default_options no_environment (answering "The selector changed.") fake_world)
  = 0%Z.
Proof.
  apply (run_completes default_options no_environment (answering "The selector changed.")
           fake_world).
  - vm_compute. reflexivity.
  - apply fake_world_modelled.
  - apply answering_modelled.
  - intros name text j H Hp Hf.
    split; [now apply (fake_world_typed name text) | apply fake_world_accepts].
  - intros prompt. exists "The selector changed.". reflexivity.
Defined.

(** X18. When the normalised analysis of a discovered record is not a
    text, which happens when a [raw] member that is a number, an array
    or an object is unwrapped, the analysis cannot be written, nothing
    guards the write, and the run exits with 2. *)
Theorem analysis_not_text_aborts_run (opts : options) (env : environment)
    (tr : transport) (w : world) (failures : list test) (f : test) (prompt : string) :
  findFailedResults (results_dir opts) w = Ok failures ->
  f ∈ failures -> buildPrompt f = Ok prompt ->
  (forall text,
     normalize (analysis_of (call_model tr (service_url opts env) (api_path opts)
                               (model_name opts) prompt (token_limit opts)))
     <> JStr text) ->
  fst (run opts env tr w) = 2%Z.
Proof.
  intros Hd Hf Hp Hn.
  unfold run, analyzeFailures. fold (results_dir opts). rewrite Hd.
  destruct failures as [|g failures]; [now apply elem_of_nil in Hf |].
  match goal with
  | |- context [for_each ?body ?l w] =>
      destruct (for_each_throws body l f) with (w := w) as (e' & w1 & ->);
      [| assumption | reflexivity]
  end.
  intros w'. unfold analyze_one. rewrite Hp.
  unfold service_url in Hn. rewrite call_model_service in Hn.
  unfold writeFileSync. destruct (normalize _) as [| b | n | text | l | ms]; eauto.
  now destruct (Hn text).
Qed.

Lemma analysis_not_text_aborts_run_witness :
  fst (run default_options no_environment (answering raw_number) fake_world) = 2%Z.
Proof.
  apply (analysis_not_text_aborts_run default_options no_environment (answering raw_number)
           fake_world [fake_test] fake_test
           (match buildPrompt fake_test with Ok prompt => prompt | Throw _ => EmptyString end)).
  - vm_compute. reflexivity.
  - apply list_elem_of_singleton. reflexivity.
  - vm_compute. reflexivity.
  - intros text. vm_compute. discriminate.
Defined.

Example raw_number_analysis :
  normalize (analysis_of (call_model (answering raw_number) None "/api/generate" "llama2"
                            "prompt" 800))
  = JNum 5.
Proof. vm_compute. reflexivity. Qed.

(** ** The member of an HTTP answer that is kept *)

(** X19. Of an HTTP answer that is a JSON object, the script keeps one
    member, in this order of preference: a truthy [output] (an array of
    texts is joined by line feeds, a text is taken as it is), else a
    truthy [text], else a truthy [raw]; the other members are dropped. *)
Theorem answer_member_precedence (tr : transport) (url : option string)
    (u apiPath model prompt text : string) (maxTokens : Z) (ms : list (string * jvalue)) :
  nonempty url = Some u ->
  answer tr url apiPath model prompt maxTokens = Some text ->
  JSON_parse text = Some (JObj ms) ->
  let kept := analysis_of (call_model tr url apiPath model prompt maxTokens) in
  (forall lines, obj_lookup "output" ms = Some (JArr (map JStr lines)) ->
     kept = JStr (join newline lines)) /\
  (forall s, obj_lookup "output" ms = Some (JStr s) -> s <> EmptyString -> kept = JStr s) /\
  (forall t, truthy (obj_lookup "output" ms) = false ->
     obj_lookup "text" ms = Some t -> truthy (Some t) = true -> kept = t) /\
  (forall r, truthy (obj_lookup "output" ms) = false ->
     truthy (obj_lookup "text" ms) = false ->
     obj_lookup "raw" ms = Some r -> truthy (Some r) = true -> kept = r).
Proof.
  intros Hu Ha Hp. cbv zeta. unfold call_model.
  rewrite Hu, (answer_http _ _ _ _ _ _ _ _ Hu Ha), Hp.
  cbn [mbind result_bind prop]. repeat split.
  - intros lines ->. now rewrite array_join_texts.
  - intros s -> Hs. apply String.eqb_neq in Hs. cbn [truthy]. now rewrite Hs.
  - intros t Ho Ht Htt. unfold first_truthy, or_else.
    destruct (obj_lookup "output" ms) as [[]|]; try discriminate;
      rewrite ?Ho; cbn [mbind result_bind analysis_of]; rewrite Ht, Htt; now rewrite Htt.
  - intros r Ho Ht Hr Hrt. unfold first_truthy, or_else.
    destruct (obj_lookup "output" ms) as [[]|]; try discriminate;
      rewrite ?Ho; cbn [mbind result_bind analysis_of]; rewrite Ht, Hr; now rewrite Hrt.
Qed.

Lemma answer_member_precedence_witness :
  analysis_of (call_model (answering layered_response) (Some "http://localhost:11434")
                 "/api/generate" "llama2" "prompt" 800)
  = JStr (join newline ["first"; "and more"]).
Proof.
  destruct (answer_member_precedence (answering layered_response)
              (Some "http://localhost:11434") "http://localhost:11434" "/api/generate"
              "llama2" "prompt" layered_response 800
              [("raw", JStr "third"); ("text", JStr "second");
               ("output", JArr [JStr "first"; JStr "and more"])]
              eq_refl eq_refl eq_refl) as [H _].
  apply (H ["first"; "and more"]). reflexivity.
Defined.
